(** * Verification of the video-processing pipeline (utils/videoProcessor.js)

    A shallow embedding of [VideoProcessor]: the metadata probe, the frame
    sampler, the per-frame classification loop with its decision policy,
    the mock classifier and the orchestrator [processVideo].

    Numbers.  JavaScript numbers are IEEE-754 binary64 values.  The code is
    embedded once, over an interface [JsNumber] of the numeric operations it
    uses, and read at two instances:
    - [F64]: binary64 itself (Corelib's [SpecFloat] at precision 53 and
      maximal exponent 1024), on which concrete runs are evaluated;
    - [QNum]: exact rationals, the idealisation against which the
      binary64 results are cross-checked.
    The bounds on the confidence are proved at both instances, for every
    input; in binary64 this rests on a description of what the rounding
    of [SpecFloat] returns ([binary_round_aux_spec]).
    Integer-valued counters of the source (loop indices, frame counts, the
    progress percentage) are integers [Z]/[nat]; they enter the numeric
    interface through [ofZ] exactly where the source mixes them into
    floating-point arithmetic.

    Effects.  Every asynchronous function is a computation over a [world]
    holding the persisted record and the chronological trace of emitted
    events and store updates; a promise settles as [Fulfilled], [Rejected]
    or stays [Pending].  The external collaborators (ffprobe, the screenshot
    tool, the classifier service, [Math.random], the clock) are read from an
    environment record.  The document store applies an update atomically
    or rejects it, as the environment says.

    Text.  Template strings of the source (stage texts, issue texts, the
    completion message) are kept as constructors carrying the interpolated
    values.

    The HTTP layer.  Section 10 embeds what stands between a request and
    the processor: the middleware of [middleware/auth.js], the upload
    filter and the routes of [routes/videoRoutes.js], the handlers of
    [controllers/videoController.js] that upload, update, delete and
    stream a video, and the error handler of [index.js]. *)

From Stdlib Require Import ZArith QArith Qround Bool List String Ascii Lia Lqa.
From Stdlib Require Import DecimalString.
From Stdlib Require Import Floats.SpecFloat.
From Equations Require Import Equations.
Import ListNotations.

Local Open Scope Z_scope.

(* ===================================================================== *)
(** * 1. JavaScript numbers *)
(* ===================================================================== *)

(** The numeric operations used by the pipeline. *)
Class JsNumber (num : Type) : Type := {
  (** integer literal / integer-valued counter used as a number *)
  ofZ : Z -> num;
  (** decimal literal [m]e-[k], e.g. [0.99] is [dec 99 2] *)
  dec : Z -> nat -> num;
  add : num -> num -> num;
  sub : num -> num -> num;
  mul : num -> num -> num;
  div : num -> num -> num;
  (** [a < b] *)
  ltb : num -> num -> bool;
  (** [a === b] *)
  eqb : num -> num -> bool;
  (** [Math.max(a, b)], [Math.min(a, b)] *)
  max : num -> num -> num;
  min : num -> num -> num;
  (** [Math.round(x)], for finite [x] *)
  round : num -> Z;
  (** [parseFloat(x.toFixed(d))] *)
  toFixed : nat -> num -> num
}.

(** [a > b] *)
Definition gtb {num} `{JsNumber num} (a b : num) : bool := ltb b a.

(* --------------------------------------------------------------------- *)
(** ** 1.1 binary64 *)
(* --------------------------------------------------------------------- *)

Module F64.

Definition prec : Z := 53.
Definition emax : Z := 1024.

Definition t : Type := spec_float.

Definition ofZ (n : Z) : t := binary_normalize prec emax n 0 false.

(** The binary64 value nearest to [n / d] for [d > 0]; division is
    correctly rounded, also on operands wider than 53 bits. *)
Definition ofRatio (s : bool) (n d : positive) : t :=
  SFdiv prec emax (S754_finite s n 0) (S754_finite false d 0).

Definition dec (m : Z) (k : nat) : t :=
  match m with
  | Z0 => S754_zero false
  | Zpos p => ofRatio false p (Z.to_pos (10 ^ Z.of_nat k))
  | Zneg p => ofRatio true p (Z.to_pos (10 ^ Z.of_nat k))
  end.

Definition add : t -> t -> t := SFadd prec emax.
Definition sub : t -> t -> t := SFsub prec emax.
Definition mul : t -> t -> t := SFmul prec emax.
Definition div : t -> t -> t := SFdiv prec emax.
Definition ltb : t -> t -> bool := SFltb.
Definition eqb : t -> t -> bool := SFeqb.
(** [a <= b] *)
Definition leb : t -> t -> bool := SFleb.

Definition is_nan (x : t) : bool :=
  match x with S754_nan => true | _ => false end.

Definition is_negative (x : t) : bool :=
  match x with
  | S754_zero s | S754_infinity s | S754_finite s _ _ => s
  | S754_nan => false
  end.

(** [Math.max]: NaN if either argument is NaN; [+0] is larger than [-0]. *)
Definition max (a b : t) : t :=
  if is_nan a || is_nan b then S754_nan
  else if SFltb a b then b
  else if SFltb b a then a
  else if is_negative a then b else a.

(** [Math.min]: NaN if either argument is NaN; [-0] is smaller than [+0]. *)
Definition min (a b : t) : t :=
  if is_nan a || is_nan b then S754_nan
  else if SFltb a b then a
  else if SFltb b a then b
  else if is_negative a then a else b.

(** [floor (m * 2^e * scale + 1/2)] for a positive mantissa, exactly. *)
Definition scaled_half_up (m : positive) (e : Z) (scale : Z) : Z :=
  match e with
  | Zneg p => (2 * Zpos m * scale + 2 ^ Zpos p) / 2 ^ (Zpos p + 1)
  | _ => Zpos m * 2 ^ e * scale
  end.

(** [Math.round]: the nearest integer, ties towards +infinity. *)
Definition round (x : t) : Z :=
  match x with
  | S754_finite false m e => scaled_half_up m e 1
  | S754_finite true m e =>
      match e with
      | Zneg p => (2 * Zneg m + 2 ^ Zpos p) / 2 ^ (Zpos p + 1)
      | _ => Zneg m * 2 ^ e
      end
  | _ => 0
  end.

(** [parseFloat(x.toFixed(d))]: [toFixed] picks the integer [n] with
    [n / 10^d] nearest to [|x|] (the larger on a tie) and prints it with
    the sign of [x]; values of magnitude [1e21] and more, infinities and
    NaN are printed as by [String(x)].  [parseFloat] reads the printed
    decimal back to the nearest binary64 value. *)
Definition toFixed (d : nat) (x : t) : t :=
  match x with
  | S754_finite s m e =>
      if SFltb (S754_finite false m e) (ofZ (10 ^ 21)) then
        match scaled_half_up m e (10 ^ Z.of_nat d) with
        | Zpos n => ofRatio s n (Z.to_pos (10 ^ Z.of_nat d))
        | _ => S754_zero s
        end
      else x
  | _ => x
  end.

End F64.

#[export] Instance F64_JsNumber : JsNumber F64.t := {
  ofZ := F64.ofZ; dec := F64.dec;
  add := F64.add; sub := F64.sub; mul := F64.mul; div := F64.div;
  ltb := F64.ltb; eqb := F64.eqb; max := F64.max; min := F64.min;
  round := F64.round; toFixed := F64.toFixed
}.

(* --------------------------------------------------------------------- *)
(** ** 1.2 Exact rationals *)
(* --------------------------------------------------------------------- *)

Module QNum.

Definition t : Type := Q.

Definition ofZ (n : Z) : t := inject_Z n.
Definition dec (m : Z) (k : nat) : t := Qmake m (Z.to_pos (10 ^ Z.of_nat k)).
Definition ltb (a b : t) : bool := negb (Qle_bool b a).
Definition max (a b : t) : t := if Qle_bool a b then b else a.
Definition min (a b : t) : t := if Qle_bool a b then a else b.
Definition round (x : t) : Z := Qfloor (x + (1 # 2)).

(** Nearest multiple of [10^-d], ties away from zero. *)
Definition toFixed (d : nat) (x : t) : t :=
  let scale := inject_Z (10 ^ Z.of_nat d) in
  if Qle_bool 0 x
  then Qmake (Qfloor (x * scale + (1 # 2))) (Z.to_pos (10 ^ Z.of_nat d))
  else Qmake (- Qfloor (- x * scale + (1 # 2))) (Z.to_pos (10 ^ Z.of_nat d)).

End QNum.

#[export] Instance Q_JsNumber : JsNumber QNum.t := {
  ofZ := QNum.ofZ; dec := QNum.dec;
  add := Qplus; sub := Qminus; mul := Qmult; div := Qdiv;
  ltb := QNum.ltb; eqb := Qeq_bool; max := QNum.max; min := QNum.min;
  round := QNum.round; toFixed := QNum.toFixed
}.

(* ===================================================================== *)
(** * 2. Strings *)
(* ===================================================================== *)

Local Open Scope string_scope.

(** [String.prototype.toLowerCase], on the ASCII letters. *)
Definition lowerAscii (c : ascii) : ascii :=
  let n := nat_of_ascii c in
  if (Nat.leb 65 n && Nat.leb n 90)%bool then ascii_of_nat (n + 32) else c.

Fixpoint toLowerCase (s : string) : string :=
  match s with
  | EmptyString => EmptyString
  | String c s' => String (lowerAscii c) (toLowerCase s')
  end.

(** [s.includes(pat)]: [pat] occurs in [s] as a substring. *)
Fixpoint includes (pat s : string) : bool :=
  if String.prefix pat s then true
  else match s with
       | EmptyString => false
       | String _ s' => includes pat s'
       end.

(** A whole number inside a template string: its decimal numeral. *)
Definition decimalNumeral (n : Z) : string :=
  NilZero.string_of_int (Z.to_int n).

(** [x || ''] and [!x] on a possibly absent string: the empty string is
    falsy like [undefined]. *)
Definition truthy (s : option string) : option string :=
  match s with
  | Some EmptyString | None => None
  | Some s' => Some s'
  end.

Definition orElse (s : option string) (dflt : string) : string :=
  match truthy s with Some s' => s' | None => dflt end.

(** ** The fragment of [eval] the probe relies on

    [eval] receives the text of [r_frame_rate].  Its result is fixed by the
    language for a decimal integer literal and for the quotient of two of
    them; on any other text it is whatever the engine does with that
    program, given by the environment ([hostEval]). *)

Definition digitValue (c : ascii) : option Z :=
  let n := nat_of_ascii c in
  if (Nat.leb 48 n && Nat.leb n 57)%bool then Some (Z.of_nat (n - 48)) else None.

Fixpoint decimalDigits (acc : Z) (s : string) : option Z :=
  match s with
  | EmptyString => Some acc
  | String c s' =>
      match digitValue c with
      | Some d => decimalDigits (10 * acc + d) s'
      | None => None
      end
  end.

(** DecimalIntegerLiteral: [0], or a non-zero digit followed by digits. *)
Definition decimalLiteral (s : string) : option Z :=
  match s with
  | EmptyString => None
  | String c s' =>
      match digitValue c with
      | Some 0%Z => match s' with EmptyString => Some 0%Z | _ => None end
      | Some d => decimalDigits d s'
      | None => None
      end
  end.

(** Split at the first ["/"]. *)
Fixpoint splitSlash (s : string) : option (string * string) :=
  match s with
  | EmptyString => None
  | String c s' =>
      if Ascii.eqb c "/"%char then Some (EmptyString, s')
      else match splitSlash s' with
           | Some (a, b) => Some (String c a, b)
           | None => None
           end
  end.

Inductive completion (A : Type) : Type :=
| Normal (v : A)
| Throw (e : string).
Arguments Normal {A} v.
Arguments Throw {A} e.

Definition jsEval {num} `{JsNumber num}
    (hostEval : string -> completion num) (src : string) : completion num :=
  match decimalLiteral src with
  | Some n => Normal (ofZ n)
  | None =>
      match splitSlash src with
      | Some (a, b) =>
          match decimalLiteral a, decimalLiteral b with
          | Some n, Some d => Normal (div (ofZ n) (ofZ d))
          | _, _ => hostEval src
          end
      | None => hostEval src
      end
  end.

(* ===================================================================== *)
(** * 3. Data model *)
(* ===================================================================== *)

Inductive jobStatus : Type := pending | processing | completed | failed.

(** [sensitivityFlag] of the schema: ['safe'], ['flagged'], ['pending']. *)
Inductive sensitivity : Type := safe | flagged | unrated.

(** Stream and format sections of the ffprobe report. *)
Record stream : Type := {
  codec_type : string;
  width : option Z;
  height : option Z;
  r_frame_rate : option string;
  codec_name : option string
}.

Record probeData (num : Type) : Type := {
  streams : list stream;
  format_duration : num;
  format_bit_rate : option Z
}.
Arguments streams {num} _.
Arguments format_duration {num} _.
Arguments format_bit_rate {num} _.

(** The object resolved by [getVideoMetadata]. *)
Module Metadata.
Record t (num : Type) : Type := {
  duration : num;
  width : option Z;
  height : option Z;
  fps : num;
  bitrate : option Z;
  codec : option string
}.
Arguments duration {num} _.
Arguments width {num} _.
Arguments height {num} _.
Arguments fps {num} _.
Arguments bitrate {num} _.
Arguments codec {num} _.
End Metadata.

(** A sampled frame: [frame-<index>.jpg] and its bytes. *)
Record frame : Type := {
  path : nat;
  buffer : list Byte.byte
}.

(** Classifier output: a list of [{label, score}] pairs, a flat object of
    entries in [Object.entries] order, or anything else.  The items of a
    [ResultList] are elements the loop over the list can read: their label
    is a string or falsy, their score a number.  A [ResultBrokenList] is a
    list with an element on which [(item.label || '').toLowerCase()]
    throws, [null] or an object whose label is truthy and not a string;
    [readable] are the elements before it. *)
Record labelScore (num : Type) : Type := {
  label : option string;
  score : num
}.
Arguments label {num} _.
Arguments score {num} _.

Inductive entryValue (num : Type) : Type :=
| NumberValue (v : num)
| OtherValue.
Arguments NumberValue {num} v.
Arguments OtherValue {num}.

Inductive apiResult (num : Type) : Type :=
| ResultList (items : list (labelScore num))
| ResultObject (entries : list (string * entryValue num))
| ResultOther
| ResultBrokenList (readable : list (labelScore num)).
Arguments ResultList {num} items.
Arguments ResultObject {num} entries.
Arguments ResultOther {num}.
Arguments ResultBrokenList {num} readable.

(** Issue texts: [Frame <n>: High sensitivity content detected (<p>%
    confidence)] with [p = nsfwScore * 100] printed to one decimal, and the
    mock's [Potentially sensitive content detected]. *)
Inductive issue (num : Type) : Type :=
| FrameIssue (frameNo : nat) (percent : num)
| PotentiallySensitive.
Arguments FrameIssue {num} frameNo percent.
Arguments PotentiallySensitive {num}.

Module Details.
Record t (num : Type) : Type := {
  totalFramesAnalyzed : nat;
  successfulAnalyses : nat;
  flaggedFrames : nat;
  averageNsfwScore : num
}.
Arguments totalFramesAnalyzed {num} _.
Arguments successfulAnalyses {num} _.
Arguments flaggedFrames {num} _.
Arguments averageNsfwScore {num} _.
End Details.

Module Verdict.
Record t (num : Type) : Type := {
  sensitivityFlag : sensitivity;
  confidence : num;
  detectedIssues : list (issue num);
  details : option (Details.t num)
}.
Arguments sensitivityFlag {num} _.
Arguments confidence {num} _.
Arguments detectedIssues {num} _.
Arguments details {num} _.
End Verdict.

(** The persisted record, restricted to the fields the pipeline touches. *)
Module Job.
Record t (num : Type) : Type := {
  status : jobStatus;
  processProgress : Z;
  sensitivityFlag : sensitivity;
  metadata : option (Metadata.t num);
  duration : num;
  processedAt : option Z;
  errorMessage : option string
}.
Arguments status {num} _.
Arguments processProgress {num} _.
Arguments sensitivityFlag {num} _.
Arguments metadata {num} _.
Arguments duration {num} _.
Arguments processedAt {num} _.
Arguments errorMessage {num} _.
End Job.

(** The field set of one [findByIdAndUpdate] call: [None] leaves a field
    as it is. *)
Module Update.
Record t (num : Type) : Type := {
  status : option jobStatus;
  processProgress : option Z;
  sensitivityFlag : option sensitivity;
  metadata : option (Metadata.t num);
  duration : option num;
  processedAt : option Z;
  errorMessage : option string
}.
Arguments status {num} _.
Arguments processProgress {num} _.
Arguments sensitivityFlag {num} _.
Arguments metadata {num} _.
Arguments duration {num} _.
Arguments processedAt {num} _.
Arguments errorMessage {num} _.

Definition set {A} (new : option A) (old : A) : A :=
  match new with Some v => v | None => old end.

Definition apply {num} (u : t num) (j : Job.t num) : Job.t num :=
  {| Job.status := set (status u) (Job.status j);
     Job.processProgress := set (processProgress u) (Job.processProgress j);
     Job.sensitivityFlag := set (sensitivityFlag u) (Job.sensitivityFlag j);
     Job.metadata :=
       match metadata u with Some m => Some m | None => Job.metadata j end;
     Job.duration := set (duration u) (Job.duration j);
     Job.processedAt :=
       match processedAt u with Some d => Some d | None => Job.processedAt j end;
     Job.errorMessage :=
       match errorMessage u with Some e => Some e | None => Job.errorMessage j end |}.
End Update.

(** Stage texts of the progress events. *)
Inductive stage : Type :=
| StartingProcessing
| ExtractingMetadata
| ExtractingFrames (numFrames : nat)
| AnalyzingFrame (frameNo total : nat)
| AnalyzingContent
| FinalizingAnalysis
| Finalizing.

(** Summary message of the completion event, with the confidence
    percentage it prints. *)
Inductive summary (num : Type) : Type :=
| VideoIsSafe (percent : num)
| VideoFlagged (percent : num).
Arguments VideoIsSafe {num} percent.
Arguments VideoFlagged {num} percent.

Module Completion.
Record t (num : Type) : Type := {
  sensitivityFlag : sensitivity;
  confidence : num;
  detectedIssues : list (issue num);
  details : option (Details.t num);
  duration : num;
  resolution : option Z * option Z;
  codec : option string;
  message : summary num
}.
Arguments sensitivityFlag {num} _.
Arguments confidence {num} _.
Arguments detectedIssues {num} _.
Arguments details {num} _.
Arguments duration {num} _.
Arguments resolution {num} _.
Arguments codec {num} _.
Arguments message {num} _.
End Completion.

(** The three event kinds sent to the observers of one job. *)
Inductive event (num : Type) : Type :=
| ProgressEvent (progress : Z) (st : stage)
| CompleteEvent (payload : Completion.t num)
| ErrorEvent (error : string).
Arguments ProgressEvent {num} progress st.
Arguments CompleteEvent {num} payload.
Arguments ErrorEvent {num} error.

(** What a run does to the outside, in order. *)
Inductive effect (num : Type) : Type :=
| Emit (e : event num)
| Persist (u : Update.t num).
Arguments Emit {num} e.
Arguments Persist {num} u.

(** ** The environment of one run *)

Inductive fileState : Type :=
| Missing
| Readable (bytes : list Byte.byte)
| Unreadable (error : string).

Inductive extraction : Type :=
| MkdirThrows (error : string)
| ScreenshotsError (error : string)
| ScreenshotsEnd (files : nat -> fileState).

Inductive httpOutcome (num : Type) : Type :=
| NetworkError (message : string)
| HttpResponse (status : Z) (data : apiResult num).
Arguments NetworkError {num} message.
Arguments HttpResponse {num} status data.

Record env (num : Type) : Type := {
  (** [process.env.HUGGINGFACE_API_KEY] *)
  apiKey : option string;
  (** outcome of [ffmpeg.ffprobe]: an error or the report *)
  ffprobe : string + probeData num;
  hostEval : string -> completion num;
  (** outcome of the screenshot extraction *)
  screenshots : extraction;
  (** answer of the classifier service to the request for frame [i] *)
  post : nat -> list Byte.byte -> httpOutcome num;
  (** successive results of [Math.random()] *)
  random : nat -> num;
  (** answer of the document store to an update: the error it rejects
      the update with, or [None] when it applies it *)
  storeRejects : Update.t num -> option string;
  (** [new Date()] at the completion update *)
  now : Z
}.
Arguments apiKey {num} _.
Arguments ffprobe {num} _.
Arguments hostEval {num} _.
Arguments screenshots {num} _.
Arguments post {num} _ _ _.
Arguments random {num} _ _.
Arguments storeRejects {num} _ _.
Arguments now {num} _.

(* ===================================================================== *)
(** * 4. Asynchronous computations *)
(* ===================================================================== *)

(** State of a promise once the run has gone as far as it can. *)
Inductive settled (A : Type) : Type :=
| Fulfilled (a : A)
| Rejected (e : string)
| Pending.
Arguments Fulfilled {A} a.
Arguments Rejected {A} e.
Arguments Pending {A}.

Record world (num : Type) : Type := {
  store : Job.t num;
  trace : list (effect num)
}.
Arguments store {num} _.
Arguments trace {num} _.

Definition Async (num A : Type) : Type := world num -> settled A * world num.

Definition ret {num A} (a : A) : Async num A := fun w => (Fulfilled a, w).

Definition bind {num A B} (c : Async num A) (k : A -> Async num B) : Async num B :=
  fun w =>
    match c w with
    | (Fulfilled a, w') => k a w'
    | (Rejected e, w') => (Rejected e, w')
    | (Pending, w') => (Pending, w')
    end.

(** [throw] / [reject(err)] *)
Definition reject {num A} (e : string) : Async num A := fun w => (Rejected e, w).

(** A promise that nobody settles. *)
Definition never {num A} : Async num A := fun w => (Pending, w).

(** [try { c } catch (error) { handler error }] *)
Definition tryCatch {num A} (c : Async num A) (handler : string -> Async num A)
    : Async num A :=
  fun w =>
    match c w with
    | (Rejected e, w') => handler e w'
    | r => r
    end.

(** [this.io.emit(...)] *)
Definition emit {num} (e : event num) : Async num unit :=
  fun w => (Fulfilled tt, {| store := store w; trace := trace w ++ [Emit e] |}).

Declare Scope async_scope.
Delimit Scope async_scope with async.
Notation "x <- c ;; k" := (bind c (fun x => k))
  (at level 61, c at next level, right associativity) : async_scope.
Notation "c ;; k" := (bind c (fun _ => k))
  (at level 61, right associativity) : async_scope.

(* ===================================================================== *)
(** * 5. The video processor *)
(* ===================================================================== *)

Section VideoProcessor.

Context {num : Type} `{JsNumber num}.
Variable E : env num.

Local Open Scope Z_scope.
Local Open Scope async_scope.

(** [videoModel.findByIdAndUpdate(videoId, u, { new: true })]: applies the
    fields of [u] and resolves to the updated record, unless the store
    rejects the update. *)
Definition findByIdAndUpdate (u : Update.t num) : Async num (Job.t num) :=
  fun w =>
    match storeRejects E u with
    | Some storeError => (Rejected storeError, w)
    | None =>
        let j := Update.apply u (store w) in
        (Fulfilled j, {| store := j; trace := trace w ++ [Persist u] |})
    end.

(** ** getVideoMetadata *)

Definition isVideo (s : stream) : bool := String.eqb (codec_type s) "video".

Definition optBind {A B} (o : option A) (f : A -> option B) : option B :=
  match o with Some a => f a | None => None end.

(** An exception of [eval] escapes the ffprobe callback, so the promise is
    neither resolved nor rejected. *)
Definition getVideoMetadata : Async num (Metadata.t num) :=
  match ffprobe E with
  | inl err => reject err
  | inr metadata =>
      let videoStream := List.find isVideo (streams metadata) in
      match jsEval (hostEval E) (orElse (optBind videoStream r_frame_rate) "0") with
      | Normal rate =>
          ret {| Metadata.duration := format_duration metadata;
                 Metadata.width := optBind videoStream width;
                 Metadata.height := optBind videoStream height;
                 Metadata.fps := rate;
                 Metadata.bitrate := format_bit_rate metadata;
                 Metadata.codec := optBind videoStream codec_name |}
      | Throw _ => never
      end
  end.

(** ** extractFrames *)

(** The read-back loop [for (let i = 1; i <= numFrames; i++)], with
    [remaining] iterations to go. *)
Fixpoint readFrames (files : nat -> fileState) (remaining i : nat)
    (frames : list frame) : string + list frame :=
  match remaining with
  | O => inr frames
  | S remaining' =>
      match files i with
      | Missing => readFrames files remaining' (S i) frames
      | Readable bytes =>
          readFrames files remaining' (S i)
            (frames ++ [{| path := i; buffer := bytes |}])
      | Unreadable error => inl error
      end
  end.

Definition extractFrames (numFrames : nat) : Async num (list frame) :=
  match screenshots E with
  | MkdirThrows error => reject error
  | ScreenshotsError error =>
      emit (ProgressEvent 25 (ExtractingFrames numFrames)) ;;
      reject error
  | ScreenshotsEnd files =>
      emit (ProgressEvent 25 (ExtractingFrames numFrames)) ;;
      match readFrames files numFrames 1 [] with
      | inr frames => ret frames
      | inl error => reject error
      end
  end.

(** ** callHuggingFaceAPI *)

(** axios rejects a response whose status is outside 2xx, with the message
    [Request failed with status code <status>]; the function itself
    rejects every status other than 200. *)
Definition callHuggingFaceAPI (i : nat) (imageBuffer : list Byte.byte)
    : Async num (apiResult num) :=
  match post E i imageBuffer with
  | NetworkError message => reject ("Hugging Face API failed: " ++ message)
  | HttpResponse status data =>
      if ((200 <=? status) && (status <? 300))%bool then
        if status =? 200 then ret data
        else reject ("Hugging Face API failed: " ++
                     ("API returned status " ++ decimalNumeral status))
      else reject ("Hugging Face API failed: " ++
                   ("Request failed with status code " ++ decimalNumeral status))
  end.

(** ** Normalisation of one classifier result *)

Definition unsafeLabel (l : string) : bool :=
  includes "nsfw" l || includes "unsafe" l || includes "porn" l ||
  includes "adult" l || includes "sexual" l || includes "explicit" l ||
  includes "nude" l || includes "erotic" l.

Definition safeLabel (l : string) : bool :=
  includes "normal" l || includes "sfw" l || includes "safe" l ||
  includes "neutral" l || includes "clean" l || includes "appropriate" l.

Definition ambiguousLabel (l : string) : bool :=
  includes "bikini" l || includes "underwear" l || includes "swimsuit" l.

(** Body of [for (const item of result)]; the pair is
    [(nsfwScore, normalScore)]. *)
Definition scoreItem (scores : num * num) (item : labelScore num) : num * num :=
  let '(nsfwScore, normalScore) := scores in
  let l := toLowerCase (orElse (label item) EmptyString) in
  if unsafeLabel l then (max nsfwScore (score item), normalScore)
  else if safeLabel l then (nsfwScore, max normalScore (score item))
  else if ambiguousLabel l then
    (max nsfwScore (mul (score item) (dec 5 1)), normalScore)
  else (nsfwScore, normalScore).

(** [typeof value === 'number' ? value : 0] *)
Definition numberOrZero (v : entryValue num) : num :=
  match v with NumberValue x => x | OtherValue => ofZ 0 end.

(** Body of [for (const [key, value] of Object.entries(result))]. *)
Definition scoreEntry (scores : num * num) (entry : string * entryValue num)
    : num * num :=
  let '(nsfwScore, normalScore) := scores in
  let l := toLowerCase (fst entry) in
  if includes "nsfw" l || includes "unsafe" l || includes "sexual" l then
    (max nsfwScore (numberOrZero (snd entry)), normalScore)
  else if includes "safe" l || includes "normal" l then
    (nsfwScore, max normalScore (numberOrZero (snd entry)))
  else (nsfwScore, normalScore).

(** [(nsfwScore, normalScore)] of one frame, with the assume-safe default.
    On a broken list the scoring throws and its two variables are lost
    with it: [recordFrame] asks for no scores then, and the initial ones
    stand here. *)
Definition frameScores (result : apiResult num) : num * num :=
  let '(nsfwScore, normalScore) :=
    match result with
    | ResultList items => fold_left scoreItem items (ofZ 0, ofZ 0)
    | ResultObject entries => fold_left scoreEntry entries (ofZ 0, ofZ 0)
    | ResultOther => (ofZ 0, ofZ 0)
    | ResultBrokenList _ => (ofZ 0, ofZ 0)
    end in
  if eqb nsfwScore (ofZ 0) && eqb normalScore (ofZ 0)
  then (nsfwScore, dec 95 2)
  else (nsfwScore, normalScore).

(** ** analyzeSensitivityMock *)

(** Firings of the timer still to come when the counter is [progress]. *)
Definition ticksLeft (progress : Z) : nat := Z.to_nat ((109 - progress) / 10).

Opaque ticksLeft.

(** The object the mock resolves with: two draws of [Math.random()]. *)
Definition mockVerdict : Verdict.t num :=
  let isSafe := gtb (random E 0) (dec 3 1) in
  {| Verdict.sensitivityFlag := if isSafe then safe else flagged;
     Verdict.confidence := add (mul (random E 1) (dec 3 1)) (dec 7 1);
     Verdict.detectedIssues := if isSafe then [] else [PotentiallySensitive];
     Verdict.details := None |}.

Definition mockStage (progress : Z) : stage :=
  if progress <? 50 then AnalyzingContent else FinalizingAnalysis.

(** The timer callback: every firing adds 10, broadcasts, and at 100
    stops the timer and resolves with the random verdict. *)
Equations? mockInterval (progress : Z) (w : world num)
    : settled (Verdict.t num) * world num
    by wf (ticksLeft progress) lt :=
  mockInterval progress w with Z_lt_ge_dec (progress + 10) 100 := {
    | left _ =>
        mockInterval (progress + 10)
          (snd (emit (ProgressEvent (progress + 10) (mockStage (progress + 10))) w));
    | right _ =>
        (emit (ProgressEvent (progress + 10) (mockStage (progress + 10))) ;;
         ret mockVerdict) w }.
Proof.
  with_strategy transparent [ticksLeft] unfold ticksLeft.
  replace (109 - progress) with ((109 - (progress + 10)) + 1 * 10) by lia.
  rewrite Z.div_add by lia.
  assert (0 <= (109 - (progress + 10)) / 10) by (apply Z.div_pos; lia).
  lia.
Qed.

Transparent ticksLeft.

Definition analyzeSensitivityMock : Async num (Verdict.t num) := mockInterval 0.

(** ** analyzeSensitivity *)

(** The accumulators of the frame loop. *)
Record loopState : Type := {
  flaggedFrames : nat;
  totalNsfwScore : num;
  detectedIssues : list (issue num);
  apiSuccessCount : nat
}.

Definition loopStart : loopState :=
  {| flaggedFrames := 0; totalNsfwScore := ofZ 0;
     detectedIssues := []; apiSuccessCount := 0 |}.

(** [apiSuccessCount++], the first statement after a successful call. *)
Definition countFrame (st : loopState) : loopState :=
  {| flaggedFrames := flaggedFrames st;
     totalNsfwScore := totalNsfwScore st;
     detectedIssues := detectedIssues st;
     apiSuccessCount := S (apiSuccessCount st) |}.

(** The statements of the [try] block after a successful API call, when
    the scoring of the answer runs to its end. *)
Definition scoreFrame (st : loopState) (i : nat) (result : apiResult num)
    : loopState :=
  let nsfwScore := fst (frameScores result) in
  let flag := gtb nsfwScore (dec 6 1) in
  {| flaggedFrames := if flag then S (flaggedFrames st) else flaggedFrames st;
     totalNsfwScore := add (totalNsfwScore st) nsfwScore;
     detectedIssues :=
       if flag
       then detectedIssues st ++ [FrameIssue (i + 1) (mul nsfwScore (ofZ 100))]
       else detectedIssues st;
     apiSuccessCount := S (apiSuccessCount st) |}.

(** The statements of the [try] block after a successful API call.  The
    counter is incremented before the scoring; when the scoring throws, on
    a broken list, the [catch] of the loop is entered with the counter
    incremented and the other accumulators untouched. *)
Definition recordFrame (st : loopState) (i : nat) (result : apiResult num)
    : loopState :=
  match result with
  | ResultBrokenList _ => countFrame st
  | _ => scoreFrame st i result
  end.

(** [30 + ((i + 1) / frames.length) * 60], rounded. *)
Definition frameProgress (i total : nat) : Z :=
  round (add (ofZ 30)
           (mul (div (ofZ (Z.of_nat (i + 1))) (ofZ (Z.of_nat total))) (ofZ 60))).

(** One iteration: broadcast, classify, fold the result in; a failed call
    is logged and skipped. *)
Definition analyzeFrame (total : nat) (st : loopState) (i : nat) (f : frame)
    : Async num loopState :=
  emit (ProgressEvent (frameProgress i total) (AnalyzingFrame (i + 1) total)) ;;
  tryCatch
    (result <- callHuggingFaceAPI i (buffer f) ;;
     ret (recordFrame st i result))
    (fun _ => ret st).

(** [for (let i = 0; i < frames.length; i++)] over the frames from index
    [i] on. *)
Fixpoint analyzeFrames (total : nat) (st : loopState) (i : nat)
    (frames : list frame) : Async num loopState :=
  match frames with
  | [] => ret st
  | f :: rest =>
      st' <- analyzeFrame total st i f ;;
      analyzeFrames total st' (S i) rest
  end.

Definition averageOf (st : loopState) : num :=
  div (totalNsfwScore st) (ofZ (Z.of_nat (apiSuccessCount st))).

Definition isSafeOf (st : loopState) : bool :=
  Nat.eqb (flaggedFrames st) 0 && ltb (averageOf st) (dec 5 1).

Definition confidenceOf (st : loopState) : num :=
  if isSafeOf st
  then min (mul (sub (ofZ 1) (averageOf st)) (dec 11 1)) (dec 99 2)
  else min (mul (averageOf st) (dec 11 1)) (dec 99 2).

(** The returned object, once at least one call has succeeded. *)
Definition decide (total : nat) (st : loopState) : Verdict.t num :=
  let averageNsfwScore := averageOf st in
  let isSafe := isSafeOf st in
  let confidence := confidenceOf st in
  {| Verdict.sensitivityFlag := if isSafe then safe else flagged;
     Verdict.confidence := toFixed 3 confidence;
     Verdict.detectedIssues := if isSafe then [] else detectedIssues st;
     Verdict.details :=
       Some {| Details.totalFramesAnalyzed := total;
               Details.successfulAnalyses := apiSuccessCount st;
               Details.flaggedFrames := flaggedFrames st;
               Details.averageNsfwScore := toFixed 4 averageNsfwScore |} |}.

Definition analyzeSensitivity : Async num (Verdict.t num) :=
  tryCatch
    (match truthy (apiKey E) with
     | None => analyzeSensitivityMock
     | Some _ =>
         frames <- extractFrames 5 ;;
         st <- analyzeFrames (List.length frames) loopStart 0 frames ;;
         if Nat.eqb (apiSuccessCount st) 0 then analyzeSensitivityMock
         else ret (decide (List.length frames) st)
     end)
    (fun _ => analyzeSensitivityMock).

(** ** processVideo *)

Definition toProcessing : Update.t num :=
  {| Update.status := Some processing;
     Update.processProgress := Some 0;
     Update.sensitivityFlag := None;
     Update.metadata := None;
     Update.duration := None;
     Update.processedAt := None;
     Update.errorMessage := None |}.

Definition toCompleted (sensitivityResult : Verdict.t num)
    (metadata : Metadata.t num) : Update.t num :=
  {| Update.status := Some completed;
     Update.processProgress := Some 100;
     Update.sensitivityFlag := Some (Verdict.sensitivityFlag sensitivityResult);
     Update.metadata := Some metadata;
     Update.duration := Some (Metadata.duration metadata);
     Update.processedAt := Some (now E);
     Update.errorMessage := None |}.

Definition toFailed (message : string) : Update.t num :=
  {| Update.status := Some failed;
     Update.processProgress := None;
     Update.sensitivityFlag := None;
     Update.metadata := None;
     Update.duration := None;
     Update.processedAt := None;
     Update.errorMessage := Some message |}.

Definition completionPayload (sensitivityResult : Verdict.t num)
    (metadata : Metadata.t num) : Completion.t num :=
  let percent := mul (Verdict.confidence sensitivityResult) (ofZ 100) in
  {| Completion.sensitivityFlag := Verdict.sensitivityFlag sensitivityResult;
     Completion.confidence := Verdict.confidence sensitivityResult;
     Completion.detectedIssues := Verdict.detectedIssues sensitivityResult;
     Completion.details := Verdict.details sensitivityResult;
     Completion.duration := Metadata.duration metadata;
     Completion.resolution := (Metadata.width metadata, Metadata.height metadata);
     Completion.codec := Metadata.codec metadata;
     Completion.message :=
       match Verdict.sensitivityFlag sensitivityResult with
       | safe => VideoIsSafe percent
       | _ => VideoFlagged percent
       end |}.

Definition processVideo : Async num (Job.t num) :=
  tryCatch
    (_ <- findByIdAndUpdate toProcessing ;;
     emit (ProgressEvent 0 StartingProcessing) ;;
     emit (ProgressEvent 20 ExtractingMetadata) ;;
     metadata <- getVideoMetadata ;;
     sensitivityResult <- analyzeSensitivity ;;
     emit (ProgressEvent 100 Finalizing) ;;
     updatedVideo <- findByIdAndUpdate (toCompleted sensitivityResult metadata) ;;
     emit (CompleteEvent (completionPayload sensitivityResult metadata)) ;;
     ret updatedVideo)
    (fun error =>
       _ <- findByIdAndUpdate (toFailed error) ;;
       emit (ErrorEvent error) ;;
       reject error).

End VideoProcessor.

(* ===================================================================== *)
(** * 6. Traces *)
(* ===================================================================== *)

Section Traces.

Context {num : Type}.

Local Open Scope list_scope.

(** The world after the effects [tr] have been appended; the store is
    replayed through the updates among them. *)
Fixpoint replay (j : Job.t num) (tr : list (effect num)) : Job.t num :=
  match tr with
  | [] => j
  | Persist u :: tr' => replay (Update.apply u j) tr'
  | Emit _ :: tr' => replay j tr'
  end.

Definition extend (w : world num) (tr : list (effect num)) : world num :=
  {| store := replay (store w) tr; trace := trace w ++ tr |}.

(** Progress values broadcast in a trace, in order. *)
Fixpoint progressValues (tr : list (effect num)) : list Z :=
  match tr with
  | [] => []
  | Emit (ProgressEvent p _) :: tr' => p :: progressValues tr'
  | _ :: tr' => progressValues tr'
  end.

Fixpoint nondecreasing (l : list Z) : bool :=
  match l with
  | a :: (b :: _) as rest => (a <=? b)%Z && nondecreasing rest
  | _ => true
  end.

(** Completion and failure events of a trace. *)
Definition isTerminal (e : effect num) : bool :=
  match e with
  | Emit (CompleteEvent _) | Emit (ErrorEvent _) => true
  | _ => false
  end.

Definition terminalEvents (tr : list (effect num)) : list (effect num) :=
  List.filter isTerminal tr.

Definition isProgress (e : effect num) : bool :=
  match e with
  | Emit (ProgressEvent _ _) => true
  | _ => false
  end.

(** Store updates of a trace, in order. *)
Fixpoint updates (tr : list (effect num)) : list (Update.t num) :=
  match tr with
  | [] => []
  | Persist u :: tr' => u :: updates tr'
  | Emit _ :: tr' => updates tr'
  end.

(** Values written to a field by the updates of a trace. *)
Definition writes {A} (field : Update.t num -> option A)
    (tr : list (effect num)) : list A :=
  List.flat_map (fun u => match field u with Some v => [v] | None => [] end)
    (updates tr).

End Traces.

(* ===================================================================== *)
(** * 7. Runs, described from the environment *)
(* ===================================================================== *)

(** What each function of the processor does is fixed by the environment:
    the definitions below spell it out, and section 11 proves that the
    functions of section 5 behave accordingly. *)

Section RunDescription.

Context {num : Type} `{JsNumber num}.
Variable E : env num.

Local Open Scope list_scope.
Local Open Scope Z_scope.

(** The ten broadcasts of the mock's timer. *)
Definition mockTrace : list (effect num) :=
  List.map (fun p => Emit (ProgressEvent p (mockStage p)))
    [10; 20; 30; 40; 50; 60; 70; 80; 90; 100].

(** [extractFrames] broadcasts once, unless the directory cannot be made. *)
Definition extractTrace (numFrames : nat) : list (effect num) :=
  match screenshots E with
  | MkdirThrows _ => []
  | _ => [Emit (ProgressEvent 25 (ExtractingFrames numFrames))]
  end.

(** The outcome of the extraction. *)
Definition extractOutcome (numFrames : nat) : string + list frame :=
  match screenshots E with
  | MkdirThrows error | ScreenshotsError error => inl error
  | ScreenshotsEnd files => readFrames files numFrames 1 []
  end.

(** The outcome of the classifier call for frame [i]. *)
Definition apiOutcome (i : nat) (imageBuffer : list Byte.byte)
    : string + apiResult num :=
  match post E i imageBuffer with
  | NetworkError message => inl ("Hugging Face API failed: " ++ message)%string
  | HttpResponse status data =>
      if ((200 <=? status) && (status <? 300))%bool then
        if status =? 200 then inr data
        else inl ("Hugging Face API failed: " ++
                  ("API returned status " ++ decimalNumeral status))%string
      else inl ("Hugging Face API failed: " ++
                ("Request failed with status code " ++ decimalNumeral status))%string
  end.

(** State after frame [i], given the outcome of its call. *)
Definition afterFrame (st : loopState) (i : nat) (f : frame) : loopState :=
  match apiOutcome i (buffer f) with
  | inr result => recordFrame st i result
  | inl _ => st
  end.

Fixpoint afterFrames (st : loopState) (i : nat) (frames : list frame)
    : loopState :=
  match frames with
  | [] => st
  | f :: rest => afterFrames (afterFrame st i f) (S i) rest
  end.

Definition frameEvent (total i : nat) : effect num :=
  Emit (ProgressEvent (frameProgress i total) (AnalyzingFrame (i + 1) total)).

Definition loopTrace (total i count : nat) : list (effect num) :=
  List.map (frameEvent total) (List.seq i count).

(** State of the accumulators when the loop over [frames] is done. *)
Definition loopEnd (frames : list frame) : loopState :=
  afterFrames loopStart 0 frames.

(** The three ways into the mock, and the real path. *)
Inductive route : Type :=
| NoCredentials
| ExtractionFailed (error : string)
| NothingClassified (frames : list frame)
| Classified (frames : list frame).

Definition routeOf : route :=
  match truthy (apiKey E) with
  | None => NoCredentials
  | Some _ =>
      match extractOutcome 5 with
      | inl error => ExtractionFailed error
      | inr frames =>
          if Nat.eqb (apiSuccessCount (loopEnd frames)) 0
          then NothingClassified frames
          else Classified frames
      end
  end.

Definition sensitivityVerdict : Verdict.t num :=
  match routeOf with
  | Classified frames => decide (List.length frames) (loopEnd frames)
  | _ => mockVerdict E
  end.

Definition framesTrace (frames : list frame) : list (effect num) :=
  loopTrace (List.length frames) 0 (List.length frames).

Definition sensitivityTrace : list (effect num) :=
  match routeOf with
  | NoCredentials => mockTrace
  | ExtractionFailed _ => extractTrace 5 ++ mockTrace
  | NothingClassified frames => extractTrace 5 ++ framesTrace frames ++ mockTrace
  | Classified frames => extractTrace 5 ++ framesTrace frames
  end.

Definition frameRateText (metadata : probeData num) : string :=
  orElse (optBind (List.find isVideo (streams metadata)) r_frame_rate) "0".

Definition probeOutcome : settled (Metadata.t num) :=
  match ffprobe E with
  | inl err => Rejected err
  | inr metadata =>
      let videoStream := List.find isVideo (streams metadata) in
      match jsEval (hostEval E) (frameRateText metadata) with
      | Normal rate =>
          Fulfilled {| Metadata.duration := format_duration metadata;
                       Metadata.width := optBind videoStream width;
                       Metadata.height := optBind videoStream height;
                       Metadata.fps := rate;
                       Metadata.bitrate := format_bit_rate metadata;
                       Metadata.codec := optBind videoStream codec_name |}
      | Throw _ => Pending
      end
  end.

Definition startTrace : list (effect num) :=
  [Persist toProcessing;
   Emit (ProgressEvent 0 StartingProcessing);
   Emit (ProgressEvent 20 ExtractingMetadata)].

(** The [catch] block: the failure update, then the failure event; when
    the store rejects that update too, its error leaves the function and
    nothing is broadcast. *)
Definition failTrace (error : string) : list (effect num) :=
  match storeRejects E (toFailed error) with
  | Some _ => []
  | None => [Persist (toFailed error); Emit (ErrorEvent error)]
  end.

Definition failResult (error : string) : settled (Job.t num) :=
  match storeRejects E (toFailed error) with
  | Some storeError => Rejected storeError
  | None => Rejected error
  end.

Definition completeTrace (metadata : Metadata.t num) : list (effect num) :=
  [Persist (toCompleted E sensitivityVerdict metadata);
   Emit (CompleteEvent (completionPayload sensitivityVerdict metadata))].

Definition finishTrace (metadata : Metadata.t num) : list (effect num) :=
  Emit (ProgressEvent 100 Finalizing) ::
  match storeRejects E (toCompleted E sensitivityVerdict metadata) with
  | Some storeError => failTrace storeError
  | None => completeTrace metadata
  end.

(** Everything one run of [processVideo] does, in order. *)
Definition runTrace : list (effect num) :=
  match storeRejects E toProcessing with
  | Some storeError => failTrace storeError
  | None =>
      startTrace ++
      match probeOutcome with
      | Fulfilled metadata => sensitivityTrace ++ finishTrace metadata
      | Rejected error => failTrace error
      | Pending => []
      end
  end.

Definition runResult (j : Job.t num) : settled (Job.t num) :=
  match storeRejects E toProcessing with
  | Some storeError => failResult storeError
  | None =>
      match probeOutcome with
      | Fulfilled metadata =>
          match storeRejects E (toCompleted E sensitivityVerdict metadata) with
          | Some storeError => failResult storeError
          | None => Fulfilled (replay j runTrace)
          end
      | Rejected error => failResult error
      | Pending => Pending
      end
  end.

End RunDescription.

(* ===================================================================== *)
(** * 8. Sample jobs and environments *)
(* ===================================================================== *)

Module Sample.

Local Open Scope Z_scope.

(** A freshly uploaded job. *)
Definition job {num} `{JsNumber num} : Job.t num :=
  {| Job.status := pending;
     Job.processProgress := 0;
     Job.sensitivityFlag := unrated;
     Job.metadata := None;
     Job.duration := ofZ 0;
     Job.processedAt := None;
     Job.errorMessage := None |}.

Definition start {num} `{JsNumber num} : world num :=
  {| store := job; trace := [] |}.

Definition videoStream (rate : option string) : stream :=
  {| codec_type := "video"; width := Some 1920; height := Some 1080;
     r_frame_rate := rate; codec_name := Some "h264" |}.

Definition audioStream : stream :=
  {| codec_type := "audio"; width := None; height := None;
     r_frame_rate := Some "0/0"; codec_name := Some "aac" |}.

Definition report {num} `{JsNumber num} (rate : option string) : probeData num :=
  {| streams := [audioStream; videoStream rate];
     format_duration := dec 125 1;
     format_bit_rate := Some 800000 |}.

(** Five frames on disk. *)
Definition fiveFrames : extraction :=
  ScreenshotsEnd (fun i => if Nat.leb i 5 then Readable [] else Missing).

(** An engine that throws on every program outside the modelled fragment. *)
Definition strictHost {num} : string -> completion num :=
  fun _ => Throw "SyntaxError".

Definition make {num} `{JsNumber num} (key : option string)
    (probe : string + probeData num) (shots : extraction)
    (answers : nat -> httpOutcome num) (r0 r1 : num) : env num :=
  {| apiKey := key; ffprobe := probe; hostEval := strictHost;
     screenshots := shots; post := fun i _ => answers i;
     random := fun k => match k with O => r0 | _ => r1 end;
     storeRejects := fun _ => None;
     now := 1767225600 |}.

Definition unreachable {num} : nat -> httpOutcome num :=
  fun _ => NetworkError "timeout of 30000ms exceeded".

(** The classifier's usual answer with the given nsfw score. *)
Definition scored {num} `{JsNumber num} (nsfw normal : num) : httpOutcome num :=
  HttpResponse 200
    (ResultList [{| label := Some "normal"; score := normal |};
                 {| label := Some "nsfw"; score := nsfw |}]).

(** No API key configured. *)
Definition noKey {num} `{JsNumber num} : env num :=
  make None (inr (report (Some "30000/1001"))) fiveFrames unreachable
    (dec 5 1) (dec 999 3).

(** Key configured, every classifier call fails. *)
Definition allCallsFail {num} `{JsNumber num} : env num :=
  make (Some "hf_key") (inr (report (Some "30000/1001"))) fiveFrames unreachable
    (dec 5 1) (dec 5 1).

(** Key configured, ffprobe fails. *)
Definition probeFails {num} `{JsNumber num} : env num :=
  make (Some "hf_key") (inl "ffprobe exited with code 1") fiveFrames
    unreachable (dec 5 1) (dec 5 1).

(** Key configured, ffprobe fine, the store rejects every update. *)
Definition storeDown {num} `{JsNumber num} : env num :=
  {| apiKey := Some "hf_key";
     ffprobe := inr (report (Some "30000/1001"));
     hostEval := strictHost;
     screenshots := fiveFrames;
     post := fun i _ => unreachable i;
     random := fun _ => dec 5 1;
     storeRejects := fun _ => Some "MongoNetworkError";
     now := 1767225600 |}.

(** Key configured, only the third frame is classified, with score 0.8. *)
Definition oneHit {num} `{JsNumber num} : env num :=
  make (Some "hf_key") (inr (report (Some "30000/1001"))) fiveFrames
    (fun i => if Nat.eqb i 2 then scored (dec 8 1) (dec 2 1) else unreachable i)
    (dec 5 1) (dec 5 1).

(** Key configured, every frame is classified as harmless. *)
Definition allCalm {num} `{JsNumber num} : env num :=
  make (Some "hf_key") (inr (report (Some "30000/1001"))) fiveFrames
    (fun _ => scored (dec 1 1) (dec 9 1)) (dec 5 1) (dec 5 1).

End Sample.

(* ===================================================================== *)
(** * 9. Vocabulary of the properties *)
(* ===================================================================== *)


(** Labels the list branch scores and the flat-mapping branch skips. *)
Definition listOnlyLabels : list string :=
  ["porn"; "adult"; "explicit"; "nude"; "erotic";
   "sfw"; "neutral"; "clean"; "appropriate";
   "bikini"; "underwear"; "swimsuit"].

(** Texts made of decimal digits only. *)
Fixpoint allDigits (s : string) : bool :=
  match s with
  | EmptyString => true
  | String c s' =>
      match digitValue c with
      | Some _ => allDigits s'
      | None => false
      end
  end.

(** A number proper: not NaN, its mantissa within 53 bits. *)
Definition fits (x : F64.t) : Prop :=
  match x with
  | S754_finite _ m _ => (Zpos m < 2 ^ 53)%Z
  | S754_nan => False
  | _ => True
  end.

(** A number proper that is not negative: [+0], a positive number or
    [+Infinity]. *)
Definition nonneg (x : F64.t) : Prop := fits x /\ F64.is_negative x = false.

(** The scores of a classifier answer are numbers proper. *)
Definition numericResult (result : apiResult F64.t) : Prop :=
  match result with
  | ResultList items => Forall (fun item => fits (score item)) items
  | ResultObject entries =>
      Forall (fun entry => fits (numberOrZero (snd entry))) entries
  | ResultOther => True
  | ResultBrokenList _ => True
  end.

Definition numericAnswers (E : env F64.t) : Prop :=
  forall (i : nat) (imageBuffer : list Byte.byte) (status : Z)
         (data : apiResult F64.t),
    post E i imageBuffer = HttpResponse status data -> numericResult data.

(** A value [Math.random()] may return: a binary64 number in [[0, 1)]. *)
Definition unitDraw (r : F64.t) : Prop :=
  valid_binary F64.prec F64.emax r = true /\
  F64.leb (F64.ofZ 0) r = true /\ F64.ltb r (F64.ofZ 1) = true.

(** What [binary_round_aux] packs: a mantissa [q] of at most 53 bits, or
    [2^53], at exponent [e1]. *)
Definition rounded (s : bool) (q e1 : Z) : spec_float :=
  (if q =? 0 then S754_zero s
   else if q <? 2 ^ 53 then
     if e1 <=? 971 then S754_finite s (Z.to_pos q) e1 else S754_infinity s
   else
     if e1 + 1 <=? 971 then S754_finite s (Z.to_pos (2 ^ 52)) (e1 + 1)
     else S754_infinity s)%Z.

(** ** Vocabulary of the further properties *)

(** [fs.existsSync] on a frame file. *)
Definition present (s : fileState) : bool :=
  match s with Missing => false | _ => true end.

(** The request for frame [i] was answered with status 200. *)
Definition answered {num} `{JsNumber num} (E : env num) (i : nat) (f : frame)
    : bool :=
  match apiOutcome E i (buffer f) with inr _ => true | inl _ => false end.

(** Frames answered with status 200, the first of [frames] having index
    [i]. *)
Fixpoint countAnswered {num} `{JsNumber num} (E : env num) (i : nat)
    (frames : list frame) : nat :=
  match frames with
  | [] => 0
  | f :: rest =>
      (if answered E i f then 1 else 0) + countAnswered E (S i) rest
  end.

(** A label of the list branch's vocabulary, a key of the flat-mapping
    branch's. *)
Definition recognisedLabel (l : string) : bool :=
  unsafeLabel l || safeLabel l || ambiguousLabel l.

Definition recognisedKey (l : string) : bool :=
  (includes "nsfw" l || includes "unsafe" l || includes "sexual" l) ||
  (includes "safe" l || includes "normal" l).

(** A classifier answer that is scored, and none of whose labels the
    normalisation knows. *)
Definition unrecognised {num} (result : apiResult num) : Prop :=
  match result with
  | ResultList items =>
      Forall (fun item =>
                recognisedLabel (toLowerCase (orElse (label item) EmptyString))
                = false) items
  | ResultObject entries =>
      Forall (fun entry => recognisedKey (toLowerCase (fst entry)) = false)
             entries
  | ResultOther => True
  | ResultBrokenList _ => False
  end.

(** The frame number an issue text names. *)
Definition issueFrame {num} (i : issue num) : option nat :=
  match i with
  | FrameIssue frameNo _ => Some frameNo
  | PotentiallySensitive => None
  end.

(** Strictly increasing frame numbers, all of them above [low]. *)
Fixpoint increasingFrom (low : nat) (l : list nat) : Prop :=
  match l with
  | [] => True
  | a :: rest => (low < a)%nat /\ increasingFrom a rest
  end.

(** [this.client] as the constructor leaves it: a client for the key, or
    [null] when the key is absent, empty or the placeholder of the sample
    configuration. *)
Definition placeholderKey : string := "your_huggingface_api_key_here".

Definition constructorClient (key : option string) : option string :=
  match truthy key with
  | None => None
  | Some k => if String.eqb k placeholderKey then None else Some k
  end.

(** What the frame loop keeps true of its accumulators once [seen] frames
    are done: every issue names a frame, the frame numbers increase and
    stay within the frames seen, there is one issue per flagged frame, and
    no more flagged frames than successes. *)
Definition accumulatorsAgree {num} `{JsNumber num} (seen : nat)
    (st : @loopState num) : Prop :=
  exists numbers,
    List.map issueFrame (detectedIssues st) = List.map Some numbers /\
    increasingFrom 0 numbers /\
    Forall (fun k => (k <= seen)%nat) numbers /\
    List.length numbers = flaggedFrames st /\
    (flaggedFrames st <= apiSuccessCount st <= seen)%nat.

(** Answers of a general-purpose image model: labels outside the
    vocabulary of the normalisation. *)
Module SampleAnswers.

Definition objectLabels {num} `{JsNumber num} : httpOutcome num :=
  HttpResponse 200
    (ResultList [{| label := Some "tabby cat"; score := dec 97 2 |};
                 {| label := None; score := dec 3 2 |}]).

Definition generalModel {num} `{JsNumber num} : env num :=
  Sample.make (Some "hf_key") (inr (Sample.report (Some "30000/1001")))
    Sample.fiveFrames (fun _ => objectLabels) (dec 5 1) (dec 5 1).

(** A probe report whose frame-rate text is not a program. *)
Definition brokenRate {num} `{JsNumber num} : env num :=
  Sample.make None (inr (Sample.report (Some "30000/"))) Sample.fiveFrames
    Sample.unreachable (dec 5 1) (dec 5 1).

(** Only the first frame is answered, by a list whose first element is
    unsafe at 0.9 and whose second element has a number for its label. *)
Definition brokenAnswer {num} `{JsNumber num} : env num :=
  Sample.make (Some "hf_key") (inr (Sample.report (Some "30000/1001")))
    Sample.fiveFrames
    (fun i => if Nat.eqb i 0
              then HttpResponse 200
                     (ResultBrokenList [{| label := Some "nsfw"; score := dec 9 1 |}])
              else Sample.unreachable i)
    (dec 5 1) (dec 5 1).

(** The key left at the placeholder of the sample configuration; the
    service answers all the same. *)
Definition placeholder {num} `{JsNumber num} : env num :=
  Sample.make (Some placeholderKey) (inr (Sample.report (Some "30000/1001")))
    Sample.fiveFrames (fun _ => Sample.scored (dec 1 1) (dec 9 1))
    (dec 5 1) (dec 5 1).

End SampleAnswers.

(** Progress values within the 0 to 100 of the record's schema. *)
Definition withinPercent (l : list Z) : bool :=
  forallb (fun p => (0 <=? p)%Z && (p <=? 100)%Z) l.

(** ** Whole numbers in binary64 *)

(** The mantissa of a positive whole number below [2^53], moved up to 53
    bits, and the binary64 value of a whole number of magnitude below
    [2^53]. *)
Definition wholeMantissa (c : Z) : positive :=
  Z.to_pos (c * 2 ^ (53 - Zdigits2 c))%Z.

Definition ofWhole (n : Z) : F64.t :=
  match n with
  | Z0 => S754_zero false
  | Zpos p => S754_finite false (wholeMantissa (Zpos p)) (Zdigits2 (Zpos p) - 53)%Z
  | Zneg p => S754_finite true (wholeMantissa (Zpos p)) (Zdigits2 (Zpos p) - 53)%Z
  end.

(* ===================================================================== *)
(** * 10. The HTTP layer: middleware, routes and the video controller *)
(* ===================================================================== *)

(** The requests that reach the processor come through Express: the
    middleware of [middleware/auth.js], the routes of
    [routes/videoRoutes.js], the handlers of
    [controllers/videoController.js] and the error handler of [index.js].
    A middleware continues with the (possibly extended) request, answers,
    or passes an error on; a handler answers and leaves a list of the
    things it did to the store, the disk and the scheduler.  The JWT
    library, the document store and the file system are read from a
    [server] record.  Request fields that Express hands over as arbitrary
    JSON (the title, the token of the query string) are taken to be
    strings when present. *)

Module Http.

(** An error object: its [name], its [message] and, for an instance of
    [multer.MulterError], its [code]. *)
Record thrown : Type := {
  name : string;
  message : string;
  multerCode : option string
}.

Inductive outcome (A : Type) : Type :=
| Returns (a : A)
| Throws (e : thrown).
Arguments Returns {A} a.
Arguments Throws {A} e.

(** A user document, without its password. *)
Record user : Type := {
  userId : string;
  role : string;
  organization : string;
  isActive : bool
}.

(** The file part of a multipart request, and [req.file] once the disk
    storage has written it. *)
Record incomingFile : Type := {
  partName : string;
  partType : string
}.

Record upload : Type := {
  path : string;
  filename : string;
  originalname : string;
  size : Z;
  mimetype : string
}.

(** A video document. *)
Record video : Type := {
  videoId : string;
  title : string;
  videoFilename : string;
  videoOriginalName : string;
  videoPath : string;
  videoSize : Z;
  videoMimeType : string;
  status : jobStatus;
  sensitivityFlag : sensitivity;
  ownerId : string;
  videoOrganization : string;
  uploadDate : Z
}.

Record request : Type := {
  (** [req.headers.authorization] *)
  authorization : option string;
  (** [req.query.token] *)
  queryToken : option string;
  (** [req.headers.range] *)
  range : option string;
  (** [req.params.id] *)
  paramId : string;
  (** [req.body.title] *)
  bodyTitle : option string;
  (** the file part named [video] of a multipart body *)
  incoming : option incomingFile;
  (** [req.file] *)
  file : option upload;
  (** [req.user] *)
  reqUser : option user
}.

Definition withUser (req : request) (u : user) : request :=
  {| authorization := authorization req; queryToken := queryToken req;
     range := range req; paramId := paramId req; bodyTitle := bodyTitle req;
     incoming := incoming req; file := file req; reqUser := Some u |}.

Definition withFile (req : request) (f : upload) : request :=
  {| authorization := authorization req; queryToken := queryToken req;
     range := range req; paramId := paramId req; bodyTitle := bodyTitle req;
     incoming := incoming req; file := Some f; reqUser := reqUser req |}.

(** JSON bodies of the answers. *)
Inductive body : Type :=
(** [{ error }] *)
| Error (error : string)
(** [{ error, details }] *)
| ErrorDetails (error details : string)
(** [{ error: 'Video is not ready for streaming', status }] *)
| NotReady (st : jobStatus)
(** [{ error: `Access denied. Required role(s): ... Your role: ...` }] *)
| RoleDenied (roles : list string) (role : string)
(** [{ error: 'Internal server error', message }] *)
| InternalError (message : string)
(** the answer of a successful upload *)
| Uploaded (id title filename : string) (size : Z) (st : jobStatus)
    (uploadDate : Z) (userId organization : string)
(** the answer of a successful update *)
| Updated (id title : string) (st : jobStatus) (flag : sensitivity)
(** the answer of a successful deletion *)
| Deleted (id : string).

(** The head written before a file is piped. *)
Inductive head : Type :=
(** [{ 'Content-Length', 'Content-Type' }] *)
| WholeHead (contentLength : F64.t) (contentType : string)
(** [{ 'Content-Range': `bytes ${start}-${end}/${fileSize}`,
       'Accept-Ranges': 'bytes', 'Content-Length', 'Content-Type' }] *)
| RangeHead (first last fileSize contentLength : F64.t)
    (contentType : string).

(** An answer: [res.status(code).json(body)], or
    [res.writeHead(code, head)] followed by a read stream of the file,
    with its [{ start, end }] if it has them, piped into the answer. *)
Inductive response : Type :=
| Json (code : Z) (b : body)
| Piped (code : Z) (h : head) (filePath : string)
    (window : option (F64.t * F64.t)).

(** What a handler did besides answering, in order. *)
Inductive action : Type :=
(** [fs.unlinkSync(path)], and whether it returned *)
| Unlink (path : string) (done : bool)
(** [video.save()] of a new document, accepted *)
| Insert (v : video)
(** [video.save()] after [video.title = title], accepted *)
| SetTitle (id title : string)
(** [Video.findByIdAndDelete(id)], accepted *)
| Remove (id : string)
(** [setImmediate(() => processVideo(path, id, Video).catch(...))] *)
| Schedule (path id : string).

Definition reply : Type := response * list action.

(** The outcome of a middleware. *)
Inductive step : Type :=
| Next (req : request)
| Respond (r : response)
| Fail (e : thrown).

(** The libraries and the state behind one request. *)
Record server : Type := {
  (** [jwt.verify(token, secret)]: the [id] of the payload, or an error *)
  jwtVerify : string -> outcome (option string);
  (** [User.findById(id).select('-password')] *)
  findUser : option string -> outcome (option user);
  (** [Video.findById(id)] *)
  findVideo : string -> outcome (option video);
  (** the disk storage of multer on an accepted file part *)
  storeFile : incomingFile -> outcome upload;
  (** the identifier and the upload date a new document gets *)
  newId : string;
  today : Z;
  (** [video.save()]: the error it rejects with, if any *)
  saveVideo : video -> option thrown;
  (** [Video.findByIdAndDelete(id)] *)
  deleteVideoRecord : string -> option thrown;
  (** [fs.existsSync], [fs.statSync(path).size] *)
  existsSync : string -> bool;
  statSize : string -> outcome Z;
  (** [fs.createReadStream(path, { start, end })]: the error it throws
      on its options, if any *)
  createReadStream : string -> F64.t -> F64.t -> option thrown;
  (** the [n]-th call of [fs.unlinkSync] in the request: the error it
      throws, if any *)
  unlinkSync : nat -> string -> option thrown;
  (** the engine's TypeError for a property read on [undefined] *)
  typeError : thrown;
  (** [process.env.NODE_ENV === 'development'] *)
  development : bool
}.

(** ** Strings of the HTTP layer *)

(** [s.split(sep)] for a one-character separator. *)
Fixpoint splitOn (sep : ascii) (s : string) : list string :=
  match s with
  | EmptyString => [EmptyString]
  | String c s' =>
      if Ascii.eqb c sep then EmptyString :: splitOn sep s'
      else match splitOn sep s' with
           | piece :: rest => String c piece :: rest
           | [] => [String c EmptyString]
           end
  end.

(** White space of [String.prototype.trim], among the characters below
    256. *)
Definition isSpace (c : ascii) : bool :=
  let n := nat_of_ascii c in
  (Nat.leb 9 n && Nat.leb n 13) || Nat.eqb n 32 || Nat.eqb n 160.

Fixpoint trimStart (s : string) : string :=
  match s with
  | EmptyString => EmptyString
  | String c s' => if isSpace c then trimStart s' else s
  end.

Fixpoint trimEnd (s : string) : string :=
  match s with
  | EmptyString => EmptyString
  | String c s' =>
      match trimEnd s' with
      | EmptyString => if isSpace c then EmptyString else String c EmptyString
      | rest => String c rest
      end
  end.

(** The [trim: true] setter of the schema. *)
Definition trim (s : string) : string := trimEnd (trimStart s).

(** [s] without a leading [pat], if it starts with it. *)
Fixpoint stripPrefix (pat s : string) : option string :=
  match pat, s with
  | EmptyString, _ => Some s
  | String a pat', String b s' =>
      if Ascii.eqb a b then stripPrefix pat' s' else None
  | String _ _, EmptyString => None
  end.

(** [s.replace(/pat/, '')] for a pattern of plain characters: the first
    occurrence of [pat] is dropped. *)
Fixpoint removeFirst (pat s : string) : string :=
  match stripPrefix pat s with
  | Some rest => rest
  | None =>
      match s with
      | EmptyString => EmptyString
      | String c s' => String c (removeFirst pat s')
      end
  end.

(** The digits [s] starts with, read in base ten; [None] when it starts
    with none. *)
Fixpoint leadingDigits (acc : option Z) (s : string) : option Z :=
  match s with
  | EmptyString => acc
  | String c s' =>
      match digitValue c with
      | Some d =>
          leadingDigits
            (Some (10 * match acc with Some a => a | None => 0 end + d)) s'
      | None => acc
      end
  end.

(** [parseInt(s, 10)]: white space is skipped, a sign is read, then the
    digits that follow; [NaN] when no digit follows.  The whole number
    read is rounded to binary64. *)
Definition parseInt (s : string) : F64.t :=
  let unsigned (negative : bool) (digits : string) : F64.t :=
    match leadingDigits None digits with
    | None => S754_nan
    | Some 0 => S754_zero negative
    | Some n => F64.ofZ (if negative then - n else n)
    end in
  match trimStart s with
  | String c digits =>
      if Ascii.eqb c "-" then unsigned true digits
      else if Ascii.eqb c "+" then unsigned false digits
      else unsigned false (String c digits)
  | EmptyString => unsigned false EmptyString
  end.

(** ** middleware/auth.js *)

(** The token: the second blank-separated word of the header, else the
    [token] of the query string. *)
Definition tokenOf (req : request) : option string :=
  let fromHeader :=
    match authorization req with
    | Some header => List.nth_error (splitOn " " header) 1
    | None => None
    end in
  match truthy fromHeader with
  | Some token => Some token
  | None => truthy (queryToken req)
  end.

(** The [catch] block of [authenticate]. *)
Definition authenticationFailure (e : thrown) : response :=
  if String.eqb (name e) "JsonWebTokenError" then
    Json 401 (Error "Invalid token.")
  else if String.eqb (name e) "TokenExpiredError" then
    Json 401 (Error "Token expired.")
  else Json 500 (Error "Authentication failed.").

Definition authenticate (S : server) (req : request) : step :=
  match tokenOf req with
  | None => Respond (Json 401 (Error "Access denied. No token provided."))
  | Some token =>
      match jwtVerify S token with
      | Throws e => Respond (authenticationFailure e)
      | Returns decodedId =>
          match findUser S decodedId with
          | Throws e => Respond (authenticationFailure e)
          | Returns None =>
              Respond (Json 401 (Error "Invalid token. User not found."))
          | Returns (Some u) =>
              if isActive u then Next (withUser req u)
              else Respond (Json 401 (Error "Account is deactivated."))
          end
      end
  end.

(** [roles.includes(role)] *)
Definition includesRole (roles : list string) (r : string) : bool :=
  List.existsb (String.eqb r) roles.

Definition requireRole (roles : list string) (req : request) : step :=
  match reqUser req with
  | None => Respond (Json 401 (Error "Authentication required."))
  | Some u =>
      if includesRole roles (role u) then Next req
      else Respond (Json 403 (RoleDenied roles (role u)))
  end.

Definition isOwnerOrAdmin (resourceUserId : string) (req : request) : step :=
  match reqUser req with
  | None => Respond (Json 401 (Error "Authentication required."))
  | Some u =>
      let isOwner := String.eqb (userId u) resourceUserId in
      let isAdmin := String.eqb (role u) "admin" in
      if negb isOwner && negb isAdmin then
        Respond (Json 403
                   (Error "Access denied. You can only access your own resources."))
      else Next req
  end.

(** ** routes/videoRoutes.js: the upload middleware *)

Definition allowedMimeTypes : list string :=
  ["video/mp4"; "video/mpeg"; "video/quicktime"; "video/x-msvideo";
   "video/x-matroska"; "video/webm"].

(** [fileFilter]: the error it passes to its callback, if any. *)
Definition fileFilter (f : incomingFile) : option thrown :=
  if List.existsb (String.eqb (partType f)) allowedMimeTypes then None
  else Some {| name := "Error";
               message := "Invalid file type. Only video files are allowed.";
               multerCode := None |}.

(** [upload.single('video')]: no file part, a part the filter refuses, or
    a part handed to the disk storage. *)
Definition uploadSingle (S : server) (req : request) : step :=
  match incoming req with
  | None => Next req
  | Some part =>
      match fileFilter part with
      | Some e => Fail e
      | None =>
          match storeFile S part with
          | Returns f => Next (withFile req f)
          | Throws e => Fail e
          end
      end
  end.

(** ** index.js: the error handler *)

Definition errorHandler (S : server) (e : thrown) : response :=
  match multerCode e with
  | Some code =>
      if String.eqb code "LIMIT_FILE_SIZE" then
        Json 400 (Error "File is too large. Maximum size is 500MB")
      else Json 400 (Error (message e))
  | None =>
      Json 500 (InternalError (if development S then message e
                               else "Something went wrong"))
  end.

(** ** controllers/videoController.js *)

(** The [catch] block of [uploadVideo], entered after [attempts] calls of
    [unlinkSync]. *)
Definition uploadFailure (S : server) (req : request) (attempts : nat)
    (e : thrown) : reply :=
  (Json 500 (ErrorDetails "Failed to upload video" (message e)),
   match file req with
   | Some f =>
       [Unlink (path f)
          (match unlinkSync S attempts (path f) with
           | None => true
           | Some _ => false
           end)]
   | None => []
   end).

Definition after (done : list action) (r : reply) : reply :=
  (fst r, done ++ snd r)%list.

Definition uploadVideo (S : server) (req : request) : reply :=
  match file req with
  | None => (Json 400 (Error "No video file uploaded"), [])
  | Some f =>
      match truthy (bodyTitle req) with
      | None =>
          match unlinkSync S 0 (path f) with
          | None =>
              (Json 400 (Error "Video title is required"),
               [Unlink (path f) true])
          | Some e =>
              after [Unlink (path f) false] (uploadFailure S req 1 e)
          end
      | Some givenTitle =>
          match reqUser req with
          | None => uploadFailure S req 0 (typeError S)
          | Some u =>
              let v :=
                {| videoId := newId S;
                   title := trim givenTitle;
                   videoFilename := filename f;
                   videoOriginalName := originalname f;
                   videoPath := path f;
                   videoSize := size f;
                   videoMimeType := mimetype f;
                   status := pending;
                   sensitivityFlag := unrated;
                   ownerId := userId u;
                   videoOrganization := trim (organization u);
                   uploadDate := today S |} in
              match saveVideo S v with
              | Some e => uploadFailure S req 0 e
              | None =>
                  (Json 201
                     (Uploaded (videoId v) (title v) (videoFilename v)
                        (videoSize v) (status v) (uploadDate v) (ownerId v)
                        (videoOrganization v)),
                   [Insert v; Schedule (path f) (videoId v)])
              end
          end
      end
  end.

(** [req.user.role !== 'admin' && video.userId.toString() !==
    req.user._id.toString()] *)
Definition notOwnerNorAdmin (u : user) (v : video) : bool :=
  negb (String.eqb (role u) "admin") && negb (String.eqb (ownerId v) (userId u)).

Definition failed500 (what : string) (e : thrown) : reply :=
  (Json 500 (ErrorDetails what (message e)), []).

Definition updateVideo (S : server) (req : request) : reply :=
  match truthy (bodyTitle req) with
  | None => (Json 400 (Error "Title is required"), [])
  | Some newTitle =>
      match findVideo S (paramId req) with
      | Throws e => failed500 "Failed to update video" e
      | Returns None => (Json 404 (Error "Video not found"), [])
      | Returns (Some v) =>
          match reqUser req with
          | None => failed500 "Failed to update video" (typeError S)
          | Some u =>
              if String.eqb (role u) "viewer" then
                (Json 403 (Error "Viewers cannot edit videos"), [])
              else if notOwnerNorAdmin u v then
                (Json 403
                   (Error "Access denied. You can only update your own videos."),
                 [])
              else
                let v' :=
                  {| videoId := videoId v; title := trim newTitle;
                     videoFilename := videoFilename v;
                     videoOriginalName := videoOriginalName v;
                     videoPath := videoPath v; videoSize := videoSize v;
                     videoMimeType := videoMimeType v; status := status v;
                     sensitivityFlag := sensitivityFlag v;
                     ownerId := ownerId v;
                     videoOrganization := videoOrganization v;
                     uploadDate := uploadDate v |} in
                match saveVideo S v' with
                | Some e => failed500 "Failed to update video" e
                | None =>
                    (Json 200
                       (Updated (videoId v') (title v') (status v')
                          (sensitivityFlag v')),
                     [SetTitle (videoId v') (title v')])
                end
          end
      end
  end.

Definition deleteVideo (S : server) (req : request) : reply :=
  match findVideo S (paramId req) with
  | Throws e => failed500 "Failed to delete video" e
  | Returns None => (Json 404 (Error "Video not found"), [])
  | Returns (Some v) =>
      match reqUser req with
      | None => failed500 "Failed to delete video" (typeError S)
      | Some u =>
          if String.eqb (role u) "viewer" then
            (Json 403 (Error "Viewers cannot delete videos"), [])
          else if notOwnerNorAdmin u v then
            (Json 403
               (Error "Access denied. You can only delete your own videos."),
             [])
          else
            let removeRecord (done : list action) : reply :=
              match deleteVideoRecord S (paramId req) with
              | Some e =>
                  after done (failed500 "Failed to delete video" e)
              | None =>
                  (Json 200 (Deleted (paramId req)),
                   done ++ [Remove (paramId req)])%list
              end in
            if existsSync S (videoPath v) then
              match unlinkSync S 0 (videoPath v) with
              | Some e =>
                  after [Unlink (videoPath v) false]
                        (failed500 "Failed to delete video" e)
              | None => removeRecord [Unlink (videoPath v) true]
              end
            else removeRecord []
      end
  end.

(** [streamVideo].  The file size is the whole number of bytes
    [fs.statSync] reports.  A stream without options is opened on the
    path [statSync] has just accepted. *)
Definition streamVideo (S : server) (req : request) : reply :=
  match findVideo S (paramId req) with
  | Throws e => failed500 "Failed to stream video" e
  | Returns None => (Json 404 (Error "Video not found"), [])
  | Returns (Some v) =>
      match reqUser req with
      | None => failed500 "Failed to stream video" (typeError S)
      | Some u =>
          if notOwnerNorAdmin u v then
            (Json 403
               (Error "Access denied. You can only stream your own videos."),
             [])
          else
            match status v with
            | completed =>
                match statSize S (videoPath v) with
                | Throws e => failed500 "Failed to stream video" e
                | Returns bytes =>
                    let fileSize := F64.ofZ bytes in
                    let contentType :=
                      orElse (Some (videoMimeType v)) "video/mp4" in
                    match truthy (range req) with
                    | Some header =>
                        let parts :=
                          splitOn "-" (removeFirst "bytes=" header) in
                        let start :=
                          parseInt (List.nth 0 parts EmptyString) in
                        let end_ :=
                          match truthy (List.nth_error parts 1) with
                          | Some last => parseInt last
                          | None => F64.sub fileSize (F64.ofZ 1)
                          end in
                        let chunksize :=
                          F64.add (F64.sub end_ start) (F64.ofZ 1) in
                        match createReadStream S (videoPath v) start end_ with
                        | Some e => failed500 "Failed to stream video" e
                        | None =>
                            (Piped 206
                               (RangeHead start end_ fileSize chunksize
                                  contentType)
                               (videoPath v) (Some (start, end_)), [])
                        end
                    | None =>
                        (Piped 200 (WholeHead fileSize contentType)
                           (videoPath v) None, [])
                    end
                end
            | st => (Json 400 (NotReady st), [])
            end
      end
  end.

(** ** routes/videoRoutes.js: the routes *)

(** A middleware in front of what follows it. *)
Definition guarded (S : server) (s : step) (rest : request -> reply) : reply :=
  match s with
  | Next req => rest req
  | Respond r => (r, [])
  | Fail e => (errorHandler S e, [])
  end.

(** [POST /upload] *)
Definition uploadRoute (S : server) (req : request) : reply :=
  guarded S (authenticate S req) (fun req1 =>
  guarded S (requireRole ["editor"; "admin"] req1) (fun req2 =>
  guarded S (uploadSingle S req2) (uploadVideo S))).

(** [PUT /:id] *)
Definition updateRoute (S : server) (req : request) : reply :=
  guarded S (authenticate S req) (fun req1 =>
  guarded S (requireRole ["editor"; "admin"] req1) (updateVideo S)).

(** [DELETE /:id] *)
Definition deleteRoute (S : server) (req : request) : reply :=
  guarded S (authenticate S req) (fun req1 =>
  guarded S (requireRole ["editor"; "admin"] req1) (deleteVideo S)).

(** [GET /:id/stream] *)
Definition streamRoute (S : server) (req : request) : reply :=
  guarded S (authenticate S req) (streamVideo S).

End Http.

(** ** Vocabulary of the HTTP properties *)

(** No blank in a word. *)
Fixpoint blankFree (s : string) : bool :=
  match s with
  | EmptyString => true
  | String c s' => negb (Ascii.eqb c " ") && blankFree s'
  end.

(** The caller a request is admitted for: the token it carries verifies
    to the identifier of an active user. *)
Definition admits (S : Http.server) (req : Http.request) (u : Http.user)
    : Prop :=
  exists token decodedId,
    Http.tokenOf req = Some token /\
    Http.jwtVerify S token = Http.Returns decodedId /\
    Http.findUser S decodedId = Http.Returns (Some u) /\
    Http.isActive u = true.

(** The caller may change the video: an administrator, or an editor who
    owns it. *)
Definition mayChange (u : Http.user) (v : Http.video) : Prop :=
  Http.role u = "admin" \/
  (Http.role u = "editor" /\ Http.ownerId v = Http.userId u).

(** The handler has a file to stream for the request: the video exists
    and is completed, the caller is its owner or an administrator, and
    [statSync] reports [bytes] bytes. *)
Definition streamable (S : Http.server) (req : Http.request)
    (v : Http.video) (bytes : Z) : Prop :=
  exists u,
    Http.reqUser req = Some u /\
    Http.findVideo S (Http.paramId req) = Http.Returns (Some v) /\
    Http.notOwnerNorAdmin u v = false /\
    Http.status v = completed /\
    Http.statSize S (Http.videoPath v) = Http.Returns bytes.

(** The 206 answer for the bytes [first] to [last] of the file of a
    video: [Content-Range: bytes first-last/bytes], [Content-Length:
    length], and that window of the file piped. *)
Definition partialContent (v : Http.video) (bytes first last length : Z)
    : Http.reply :=
  (Http.Piped 206
     (Http.RangeHead (F64.ofZ first) (F64.ofZ last) (F64.ofZ bytes)
        (F64.ofZ length) (orElse (Some (Http.videoMimeType v)) "video/mp4"))
     (Http.videoPath v) (Some (F64.ofZ first, F64.ofZ last)), []).

(** A server and requests to try the routes on. *)
Module SampleHttp.

Definition alice : Http.user :=
  {| Http.userId := "u1"; Http.role := "editor";
     Http.organization := "acme"; Http.isActive := true |}.

Definition clip : Http.video :=
  {| Http.videoId := "v1"; Http.title := "Launch";
     Http.videoFilename := "video-1.mp4"; Http.videoOriginalName := "launch.mp4";
     Http.videoPath := "uploads/video-1.mp4"; Http.videoSize := 1048576;
     Http.videoMimeType := "video/mp4"; Http.status := completed;
     Http.sensitivityFlag := safe; Http.ownerId := "u1";
     Http.videoOrganization := "acme"; Http.uploadDate := 1767225600 |}.

Definition server : Http.server :=
  {| Http.jwtVerify := fun token =>
       if String.eqb token "good" then Http.Returns (Some "u1")
       else Http.Throws {| Http.name := "JsonWebTokenError";
                           Http.message := "jwt malformed";
                           Http.multerCode := None |};
     Http.findUser := fun id =>
       match id with
       | Some "u1" => Http.Returns (Some alice)
       | _ => Http.Returns None
       end;
     Http.findVideo := fun id =>
       if String.eqb id "v1" then Http.Returns (Some clip)
       else Http.Returns None;
     Http.storeFile := fun part =>
       Http.Returns {| Http.path := "uploads/video-2.mp4";
                       Http.filename := "video-2.mp4";
                       Http.originalname := Http.partName part;
                       Http.size := 2097152;
                       Http.mimetype := Http.partType part |};
     Http.newId := "v2";
     Http.today := 1767225600;
     Http.saveVideo := fun _ => None;
     Http.deleteVideoRecord := fun _ => None;
     Http.existsSync := fun _ => true;
     Http.statSize := fun _ => Http.Returns 1048576;
     Http.createReadStream := fun _ first last =>
       if SFleb first last then None
       else Some {| Http.name := "RangeError";
                    Http.message := "The value of start is out of range";
                    Http.multerCode := None |};
     Http.unlinkSync := fun _ _ => None;
     Http.typeError :=
       {| Http.name := "TypeError";
          Http.message := "Cannot read properties of undefined";
          Http.multerCode := None |};
     Http.development := false |}.

Definition request (title : option string) (part : option Http.incomingFile)
    : Http.request :=
  {| Http.authorization := Some "Bearer good"; Http.queryToken := None;
     Http.range := None; Http.paramId := "v1"; Http.bodyTitle := title;
     Http.incoming := part; Http.file := None; Http.reqUser := None |}.

Definition ranged (header : string) : Http.request :=
  {| Http.authorization := Some "Bearer good"; Http.queryToken := None;
     Http.range := Some header; Http.paramId := "v1";
     Http.bodyTitle := None; Http.incoming := None; Http.file := None;
     Http.reqUser := None |}.

Definition moviePart : Http.incomingFile :=
  {| Http.partName := "holiday.mp4"; Http.partType := "video/mp4" |}.

Definition picturePart : Http.incomingFile :=
  {| Http.partName := "holiday.png"; Http.partType := "image/png" |}.

End SampleHttp.

(* ===================================================================== *)
(** * 11. The functions behave as described *)
(* ===================================================================== *)

Section TraceLemmas.

Context {num : Type}.

Local Open Scope list_scope.

Lemma replay_app (j : Job.t num) (tr1 tr2 : list (effect num)) :
  replay j (tr1 ++ tr2) = replay (replay j tr1) tr2.
Proof.
  revert j. induction tr1 as [|[e|u] tr1 IH]; intros j; simpl; auto.
Qed.

Lemma extend_nil (w : world num) : extend w [] = w.
Proof. destruct w. unfold extend. simpl. now rewrite app_nil_r. Qed.

Lemma extend_extend (w : world num) (tr1 tr2 : list (effect num)) :
  extend (extend w tr1) tr2 = extend w (tr1 ++ tr2).
Proof. unfold extend. simpl. now rewrite replay_app, app_assoc. Qed.

Lemma replay_progress_only (j : Job.t num) (tr : list (effect num)) :
  forallb isProgress tr = true -> replay j tr = j.
Proof.
  induction tr as [|[[p st|c|e]|u] tr IH]; simpl; intros Hp;
    try discriminate; auto.
Qed.

Lemma updates_app (tr1 tr2 : list (effect num)) :
  updates (tr1 ++ tr2) = updates tr1 ++ updates tr2.
Proof.
  induction tr1 as [|[e|u] tr1 IH]; simpl; auto. now rewrite IH.
Qed.

Lemma updates_progress_only (tr : list (effect num)) :
  forallb isProgress tr = true -> updates tr = [].
Proof.
  induction tr as [|[[p st|c|e]|u] tr IH]; simpl; intros Hp;
    try discriminate; auto.
Qed.

Lemma terminal_progress_only (tr : list (effect num)) :
  forallb isProgress tr = true -> terminalEvents tr = [].
Proof.
  induction tr as [|[[p st|c|e]|u] tr IH]; simpl; intros Hp;
    try discriminate; auto.
Qed.

Lemma emit_extend (e : event num) (w : world num) :
  emit e w = (Fulfilled tt, extend w [Emit e]).
Proof. reflexivity. Qed.

End TraceLemmas.

Section Runs.

Context {num : Type} `{JsNumber num}.
Variable E : env num.

Local Open Scope list_scope.
Local Open Scope Z_scope.

Lemma mockInterval_step (progress : Z) (w : world num) :
  progress + 10 < 100 ->
  mockInterval E progress w =
  mockInterval E (progress + 10)
    (extend w [Emit (ProgressEvent (progress + 10) (mockStage (progress + 10)))]).
Proof.
  intros Hlt. rewrite mockInterval_equation_1.
  destruct (Z_lt_ge_dec (progress + 10) 100) as [Hl|Hg]; [reflexivity | lia].
Qed.

Lemma mockInterval_last (progress : Z) (w : world num) :
  100 <= progress + 10 ->
  mockInterval E progress w =
  (Fulfilled (mockVerdict E),
   extend w [Emit (ProgressEvent (progress + 10) (mockStage (progress + 10)))]).
Proof.
  intros Hge. rewrite mockInterval_equation_1.
  destruct (Z_lt_ge_dec (progress + 10) 100) as [Hl|Hg]; [lia | reflexivity].
Qed.

(** The mock always resolves, after exactly ten broadcasts. *)
Lemma mock_run (w : world num) :
  analyzeSensitivityMock E w = (Fulfilled (mockVerdict E), extend w mockTrace).
Proof.
  unfold analyzeSensitivityMock.
  do 9 (rewrite mockInterval_step by (simpl; lia); rewrite ?extend_extend;
        simpl Z.add; simpl app).
  rewrite mockInterval_last by (simpl; lia).
  rewrite extend_extend. reflexivity.
Qed.

Lemma mockTrace_progress : forallb isProgress (mockTrace (num := num)) = true.
Proof. reflexivity. Qed.

(** [extractFrames] rejects or resolves, after at most one broadcast. *)
Lemma extractFrames_run (numFrames : nat) (w : world num) :
  extractFrames E numFrames w =
  (match extractOutcome E numFrames with
   | inr frames => Fulfilled frames
   | inl error => Rejected error
   end, extend w (extractTrace E numFrames)).
Proof.
  unfold extractFrames, extractOutcome, extractTrace.
  destruct (screenshots E) as [e|e|files].
  - now rewrite extend_nil.
  - reflexivity.
  - unfold bind. rewrite emit_extend.
    destruct (readFrames files numFrames 1 []); reflexivity.
Qed.

(** [callHuggingFaceAPI] leaves the world as it is. *)
Lemma callHuggingFaceAPI_run (i : nat) (b : list Byte.byte) (w : world num) :
  callHuggingFaceAPI E i b w =
  (match apiOutcome E i b with
   | inr data => Fulfilled data
   | inl error => Rejected error
   end, w).
Proof.
  unfold callHuggingFaceAPI, apiOutcome.
  destruct (post E i b) as [m|status data]; [reflexivity|].
  destruct ((200 <=? status) && (status <? 300))%bool; [|reflexivity].
  destruct (status =? 200); reflexivity.
Qed.

Lemma analyzeFrame_run (total : nat) (st : loopState) (i : nat) (f : frame)
    (w : world num) :
  analyzeFrame E total st i f w =
  (Fulfilled (afterFrame E st i f), extend w [frameEvent total i]).
Proof.
  unfold analyzeFrame, bind, tryCatch, afterFrame. rewrite emit_extend.
  rewrite callHuggingFaceAPI_run.
  destruct (apiOutcome E i (buffer f)); reflexivity.
Qed.

(** The loop never rejects: it resolves with the folded state after one
    broadcast per frame. *)
Lemma analyzeFrames_run (total : nat) (frames : list frame) :
  forall (st : loopState) (i : nat) (w : world num),
  analyzeFrames E total st i frames w =
  (Fulfilled (afterFrames E st i frames),
   extend w (loopTrace total i (List.length frames))).
Proof.
  induction frames as [|f rest IH]; intros st i w; simpl.
  - unfold ret, loopTrace. simpl. now rewrite extend_nil.
  - unfold bind. rewrite analyzeFrame_run, IH, extend_extend. reflexivity.
Qed.

Lemma loopTrace_progress (total i count : nat) :
  forallb isProgress (loopTrace (num := num) total i count) = true.
Proof.
  unfold loopTrace. revert i.
  induction count as [|c IH]; intros i; simpl; auto.
Qed.

(** [analyzeSensitivity] always resolves. *)
Lemma analyzeSensitivity_run (w : world num) :
  analyzeSensitivity E w =
  (Fulfilled (sensitivityVerdict E), extend w (sensitivityTrace E)).
Proof.
  unfold analyzeSensitivity, sensitivityVerdict, sensitivityTrace, routeOf, tryCatch.
  destruct (truthy (apiKey E)) as [key|].
  - unfold bind. rewrite extractFrames_run.
    destruct (extractOutcome E 5) as [error|frames].
    + rewrite mock_run, extend_extend. reflexivity.
    + rewrite analyzeFrames_run, extend_extend. fold (loopEnd E frames).
      destruct (Nat.eqb (apiSuccessCount (loopEnd E frames)) 0).
      * rewrite mock_run, extend_extend, <- app_assoc. reflexivity.
      * reflexivity.
  - rewrite mock_run. reflexivity.
Qed.

Lemma extractTrace_progress (n : nat) :
  forallb isProgress (extractTrace E n) = true.
Proof. unfold extractTrace. destruct (screenshots E); reflexivity. Qed.

Lemma sensitivityTrace_progress : forallb isProgress (sensitivityTrace E) = true.
Proof.
  unfold sensitivityTrace, framesTrace.
  destruct (routeOf E); rewrite ?forallb_app, ?extractTrace_progress,
    ?loopTrace_progress, ?mockTrace_progress; reflexivity.
Qed.

Lemma getVideoMetadata_run (w : world num) :
  getVideoMetadata E w = (probeOutcome E, w).
Proof.
  unfold getVideoMetadata, probeOutcome, frameRateText.
  destruct (ffprobe E) as [err|metadata]; [reflexivity|].
  destruct (jsEval _ _); reflexivity.
Qed.

Lemma update_run (u : Update.t num) (w : world num) :
  findByIdAndUpdate E u w =
  match storeRejects E u with
  | Some storeError => (Rejected storeError, w)
  | None => (Fulfilled (Update.apply u (store w)), extend w [Persist u])
  end.
Proof. unfold findByIdAndUpdate. destruct (storeRejects E u); reflexivity. Qed.

(** The [catch] block, run in any world. *)
Lemma handler_run (error : string) (w : world num) :
  (_ <- findByIdAndUpdate E (toFailed error) ;;
   emit (ErrorEvent error) ;;
   reject error)%async w =
  (failResult E error, extend w (failTrace E error)).
Proof.
  unfold bind, failResult, failTrace. rewrite update_run.
  destruct (storeRejects E (toFailed error)).
  - now rewrite extend_nil.
  - rewrite emit_extend, extend_extend. reflexivity.
Qed.

(** One run of [processVideo], in any world. *)
Theorem processVideo_run (w : world num) :
  processVideo E w = (runResult E (store w), extend w (runTrace E)).
Proof.
  unfold processVideo, tryCatch.
  unfold bind at 1. rewrite update_run.
  unfold runResult, runTrace.
  destruct (storeRejects E toProcessing) as [storeError|] eqn:Hstart.
  { apply handler_run. }
  unfold bind at 1. rewrite emit_extend, extend_extend.
  unfold bind at 1. rewrite emit_extend, extend_extend.
  unfold bind at 1. rewrite getVideoMetadata_run.
  destruct (probeOutcome E) as [metadata|error|].
  - unfold bind at 1. rewrite analyzeSensitivity_run, extend_extend.
    unfold bind at 1. rewrite emit_extend, extend_extend.
    unfold bind at 1. rewrite update_run. unfold finishTrace.
    destruct (storeRejects E (toCompleted E (sensitivityVerdict E) metadata))
      as [storeError|].
    + rewrite handler_run, extend_extend. unfold startTrace.
      rewrite <- !app_assoc. reflexivity.
    + rewrite extend_extend. unfold bind. rewrite emit_extend, extend_extend.
      unfold ret, startTrace, completeTrace.
      rewrite <- !app_assoc. simpl app.
      f_equal. f_equal. unfold extend. simpl. rewrite !replay_app. reflexivity.
  - rewrite handler_run, extend_extend. reflexivity.
  - reflexivity.
Qed.

End Runs.

(** After a successful call the frame is scored, or, on a broken list,
    counted only. *)
Lemma recordFrame_cases {num} `{JsNumber num} (st : loopState) (i : nat)
    (result : apiResult num) :
  recordFrame st i result = scoreFrame st i result \/
  ((exists readable, result = ResultBrokenList readable) /\
   recordFrame st i result = countFrame st).
Proof.
  destruct result; [now left | now left | now left |].
  right. split; [eexists|]; reflexivity.
Qed.

(* ===================================================================== *)
(** * 12. Persisted updates of a run *)
(* ===================================================================== *)

Section Persistence.

Context {num : Type} `{JsNumber num}.
Variable E : env num.

Local Open Scope list_scope.
Local Open Scope Z_scope.

Lemma updates_failTrace (error : string) :
  updates (failTrace E error) =
  match storeRejects E (toFailed error) with
  | Some _ => []
  | None => [toFailed error]
  end.
Proof. unfold failTrace. destruct (storeRejects E (toFailed error)); reflexivity. Qed.

Lemma updates_finishTrace (metadata : Metadata.t num) :
  updates (finishTrace E metadata) =
  match storeRejects E (toCompleted E (sensitivityVerdict E) metadata) with
  | Some storeError => updates (failTrace E storeError)
  | None => [toCompleted E (sensitivityVerdict E) metadata]
  end.
Proof.
  unfold finishTrace. simpl.
  destruct (storeRejects E (toCompleted E (sensitivityVerdict E) metadata));
    reflexivity.
Qed.

(** The updates of a run: the start, then the completion or the failure. *)
Lemma updates_runTrace :
  updates (runTrace E) =
  match storeRejects E toProcessing with
  | Some storeError => updates (failTrace E storeError)
  | None =>
      toProcessing ::
      match probeOutcome E with
      | Fulfilled metadata => updates (finishTrace E metadata)
      | Rejected error => updates (failTrace E error)
      | Pending => []
      end
  end.
Proof.
  unfold runTrace. destruct (storeRejects E toProcessing); [reflexivity|].
  rewrite updates_app. simpl.
  destruct (probeOutcome E) as [m|e|]; simpl; auto.
  rewrite updates_app, (updates_progress_only _ (sensitivityTrace_progress E)).
  reflexivity.
Qed.

(** Every update of a run is one of the three the source writes. *)
Lemma updates_runTrace_kinds (u : Update.t num) :
  In u (updates (runTrace E)) ->
  u = toProcessing \/
  (exists metadata, u = toCompleted E (sensitivityVerdict E) metadata) \/
  (exists error, u = toFailed error).
Proof.
  rewrite updates_runTrace.
  assert (Hfail : forall e, In u (updates (failTrace E e)) ->
                            exists error, u = toFailed error).
  { intros e. rewrite updates_failTrace.
    destruct (storeRejects E (toFailed e)); intros Hin;
      [destruct Hin | destruct Hin as [Hu|[]]; now exists e]. }
  destruct (storeRejects E toProcessing); [intros Hin; right; right; eauto|].
  intros [Hu|Hin]; [now left|].
  destruct (probeOutcome E) as [m|e|]; [| right; right; eauto | destruct Hin].
  rewrite updates_finishTrace in Hin.
  destruct (storeRejects E (toCompleted E (sensitivityVerdict E) m)).
  - right; right; eauto.
  - destruct Hin as [Hu|[]]. right; left. now exists m.
Qed.

Lemma updates_prefix (tr1 tr2 : list (effect num)) (u : Update.t num) :
  In u (updates tr1) -> In u (updates (tr1 ++ tr2)).
Proof. rewrite updates_app. intros Hin. apply in_or_app. now left. Qed.

(** Replaying updates that never write a progress value other than 0 on
    a record that shows 0 keeps showing 0. *)
Lemma replay_progress_zero (tr : list (effect num)) :
  forall j : Job.t num,
  Job.processProgress j = 0 ->
  (forall u, In u (updates tr) ->
     Update.processProgress u = None \/ Update.processProgress u = Some 0) ->
  Job.processProgress (replay j tr) = 0.
Proof.
  induction tr as [|[e|u] tr IH]; intros j Hj Hall; simpl; auto.
  apply IH.
  - destruct (Hall u (or_introl eq_refl)) as [Hu|Hu];
      unfold Update.apply, Update.set; simpl; rewrite Hu; auto.
  - intros u' Hin. apply Hall. now right.
Qed.

(** Shape of a run that resolves. *)
Lemma fulfilled_run (j j' : Job.t num) :
  runResult E j = Fulfilled j' ->
  exists metadata,
    probeOutcome E = Fulfilled metadata /\
    storeRejects E toProcessing = None /\
    storeRejects E (toCompleted E (sensitivityVerdict E) metadata) = None /\
    runTrace E =
      startTrace ++ sensitivityTrace E ++
      Emit (ProgressEvent 100 Finalizing) :: completeTrace E metadata.
Proof.
  unfold runResult, runTrace, finishTrace, failResult.
  destruct (storeRejects E toProcessing) as [e0|] eqn:Hstart.
  { destruct (storeRejects E (toFailed e0)); discriminate. }
  destruct (probeOutcome E) as [m|e|]; [| | discriminate].
  - destruct (storeRejects E (toCompleted E (sensitivityVerdict E) m))
      as [e1|] eqn:Hdone.
    + destruct (storeRejects E (toFailed e1)); discriminate.
    + intros _. exists m. repeat split; assumption.
  - destruct (storeRejects E (toFailed e)); discriminate.
Qed.

(** Shape of a run that rejects: what it did before the [catch] block
    holds no update but the first, and the block either persisted and
    broadcast the failure or, its own update rejected, did nothing. *)
Lemma rejected_run (j : Job.t num) (error : string) :
  runResult E j = Rejected error ->
  exists pre,
    (forall u, In u (updates pre) -> u = toProcessing) /\
    (runTrace E = pre ++ [Persist (toFailed error); Emit (ErrorEvent error)] \/
     runTrace E = pre).
Proof.
  assert (Hhandler : forall cause pre,
            failResult E cause = Rejected error ->
            pre ++ failTrace E cause =
              pre ++ [Persist (toFailed error); Emit (ErrorEvent error)] \/
            pre ++ failTrace E cause = pre).
  { intros cause pre. unfold failResult, failTrace.
    destruct (storeRejects E (toFailed cause)); intros Hr.
    - right. apply app_nil_r.
    - left. congruence. }
  unfold runResult, runTrace, finishTrace.
  destruct (storeRejects E toProcessing) as [e0|] eqn:Hstart.
  { intros Hr. exists []. split; [intros u []|]. now apply (Hhandler e0 []). }
  destruct (probeOutcome E) as [m|e|]; [| | discriminate].
  - destruct (storeRejects E (toCompleted E (sensitivityVerdict E) m)) as [e1|];
      [|discriminate].
    intros Hr.
    exists (startTrace ++ sensitivityTrace E ++ [Emit (ProgressEvent 100 Finalizing)]).
    split.
    + intros u. rewrite !updates_app,
        (updates_progress_only _ (sensitivityTrace_progress E)).
      simpl. intros [Hu|[]]. now symmetry.
    + replace (startTrace ++ sensitivityTrace E ++
               Emit (ProgressEvent 100 Finalizing) :: failTrace E e1)
        with ((startTrace ++ sensitivityTrace E ++
               [Emit (ProgressEvent 100 Finalizing)]) ++ failTrace E e1)
        by (rewrite <- !app_assoc; reflexivity).
      now apply Hhandler.
  - intros Hr. exists startTrace. split.
    + simpl. intros u [Hu|[]]. now symmetry.
    + now apply Hhandler.
Qed.

End Persistence.

(* ===================================================================== *)
(** * 13. Properties *)
(* ===================================================================== *)

Section StoreProperties.

Context {num : Type} `{JsNumber num}.

Local Open Scope list_scope.
Local Open Scope Z_scope.

Lemma toFailed_keeps (error : string) (j : Job.t num) :
  Job.metadata (Update.apply (toFailed error) j) = Job.metadata j /\
  Job.sensitivityFlag (Update.apply (toFailed error) j) = Job.sensitivityFlag j /\
  Job.duration (Update.apply (toFailed error) j) = Job.duration j /\
  Job.processProgress (Update.apply (toFailed error) j) = Job.processProgress j /\
  Job.processedAt (Update.apply (toFailed error) j) = Job.processedAt j.
Proof. repeat split. Qed.

Lemma toProcessing_keeps (j : Job.t num) (tr : list (effect num)) :
  (forall u, In u (updates tr) -> u = toProcessing) ->
  Job.metadata (replay j tr) = Job.metadata j /\
  Job.sensitivityFlag (replay j tr) = Job.sensitivityFlag j /\
  Job.duration (replay j tr) = Job.duration j /\
  Job.processedAt (replay j tr) = Job.processedAt j.
Proof.
  revert j. induction tr as [|[e|u] tr IH]; intros j Hall; simpl.
  - repeat split.
  - apply IH. exact Hall.
  - assert (Hu : u = toProcessing) by (apply Hall; now left). subst u.
    destruct (IH (Update.apply toProcessing j)) as (Hm & Hf & Hd & Hp).
    { intros u Hin. apply Hall. now right. }
    rewrite Hm, Hf, Hd, Hp. repeat split.
Qed.

(** A persisted update is among the updates of the trace. *)
Lemma persisted_update (u : Update.t num) (tr : list (effect num)) :
  In (Persist u) tr -> In u (updates tr).
Proof.
  induction tr as [|[e|u'] tr IH]; simpl.
  - auto.
  - intros [Heq|Hin]; [discriminate | auto].
  - intros [Heq|Hin]; [left; congruence | right; auto].
Qed.

(** Shape of a run that rejects, with the reason of each case: the
    [catch] block persisted and broadcast the failure, the store having
    accepted its update; or the store rejected that update, and its error
    is the one the run rejects with. *)
Lemma rejected_run_cause (E : env num) (j : Job.t num) (error : string) :
  runResult E j = Rejected error ->
  exists pre,
    (forall u, In u (updates pre) -> u = toProcessing) /\
    ((runTrace E = pre ++ [Persist (toFailed error); Emit (ErrorEvent error)] /\
      storeRejects E (toFailed error) = None) \/
     (runTrace E = pre /\
      exists cause, storeRejects E (toFailed cause) = Some error)).
Proof.
  assert (Hhandler : forall cause pre,
            failResult E cause = Rejected error ->
            (pre ++ failTrace E cause =
               pre ++ [Persist (toFailed error); Emit (ErrorEvent error)] /\
             storeRejects E (toFailed error) = None) \/
            (pre ++ failTrace E cause = pre /\
             exists cause', storeRejects E (toFailed cause') = Some error)).
  { intros cause pre. unfold failResult, failTrace.
    destruct (storeRejects E (toFailed cause)) as [storeError|] eqn:Hstore;
      intros Hr; inversion Hr; subst.
    - right. split; [apply app_nil_r|]. now exists cause.
    - left. split; [reflexivity | exact Hstore]. }
  unfold runResult, runTrace, finishTrace.
  destruct (storeRejects E toProcessing) as [e0|] eqn:Hstart.
  { intros Hr. exists []. split; [intros u []|]. now apply (Hhandler e0 []). }
  destruct (probeOutcome E) as [m|e|]; [| | discriminate].
  - destruct (storeRejects E (toCompleted E (sensitivityVerdict E) m)) as [e1|];
      [|discriminate].
    intros Hr.
    exists (startTrace ++ sensitivityTrace E ++ [Emit (ProgressEvent 100 Finalizing)]).
    split.
    + intros u. rewrite !updates_app,
        (updates_progress_only _ (sensitivityTrace_progress E)).
      simpl. intros [Hu|[]]. now symmetry.
    + replace (startTrace ++ sensitivityTrace E ++
               Emit (ProgressEvent 100 Finalizing) :: failTrace E e1)
        with ((startTrace ++ sensitivityTrace E ++
               [Emit (ProgressEvent 100 Finalizing)]) ++ failTrace E e1)
        by (rewrite <- !app_assoc; reflexivity).
      now apply Hhandler.
  - intros Hr. exists startTrace. split.
    + simpl. intros u [Hu|[]]. now symmetry.
    + now apply Hhandler.
Qed.

(** C9. On a pipeline failure the persisted update sets only [status] and
    [errorMessage].  A rejected run splits into what it did before the
    [catch] block, [pre], where nothing but the transition to [processing]
    was persisted, and what the block did, [fin]: the failure update
    followed by the failure event when the store accepts that update,
    nothing when the store rejects it (the run then rejects with the
    store's error).  Whenever the failure update is persisted the record
    is [failed] with the error as its message and equals the record just
    before that update in [metadata], [sensitivityFlag], [duration],
    [processProgress] and [processedAt]; in either case nothing the run
    computed (metadata, verdict, duration) has been written to the
    record. *)
Theorem failure_persists_only_status_and_error
    (E : env num) (w w' : world num) (error : string) :
  processVideo E w = (Rejected error, w') ->
  exists pre fin : list (effect num),
    let before := replay (store w) pre in
    trace w' = trace w ++ pre ++ fin /\
    store w' = replay before fin /\
    (forall u, In u (updates pre) -> u = toProcessing) /\
    ((fin = [Persist (toFailed error); Emit (ErrorEvent error)] /\
      storeRejects E (toFailed error) = None) \/
     (fin = [] /\
      exists cause, storeRejects E (toFailed cause) = Some error)) /\
    (Update.metadata (toFailed (num := num) error) = None /\
     Update.sensitivityFlag (toFailed (num := num) error) = None /\
     Update.duration (toFailed (num := num) error) = None /\
     Update.processProgress (toFailed (num := num) error) = None /\
     Update.processedAt (toFailed (num := num) error) = None) /\
    (fin <> [] ->
     Job.status (store w') = failed /\
     Job.errorMessage (store w') = Some error) /\
    (In (Persist (toFailed error)) (pre ++ fin) ->
     fin = [Persist (toFailed error); Emit (ErrorEvent error)] /\
     store w' = Update.apply (toFailed error) before /\
     Job.status (store w') = failed /\
     Job.errorMessage (store w') = Some error) /\
    (Job.metadata (store w') = Job.metadata before /\
     Job.sensitivityFlag (store w') = Job.sensitivityFlag before /\
     Job.duration (store w') = Job.duration before /\
     Job.processProgress (store w') = Job.processProgress before /\
     Job.processedAt (store w') = Job.processedAt before) /\
    (Job.metadata (store w') = Job.metadata (store w) /\
     Job.sensitivityFlag (store w') = Job.sensitivityFlag (store w) /\
     Job.duration (store w') = Job.duration (store w)).
Proof.
  rewrite processVideo_run. intros Hrun. inversion Hrun as [[Hres Hw]].
  destruct (rejected_run_cause E (store w) error Hres) as (pre & Hpre & Htrace).
  destruct (toProcessing_keeps (store w) pre Hpre) as (Hm & Hf & Hd & _).
  assert (Hnot : ~ In (Persist (toFailed (num := num) error)) pre).
  { intros Hin. apply persisted_update in Hin. apply Hpre in Hin.
    discriminate Hin. }
  destruct Htrace as [[Htrace Hstore]|[Htrace Hcause]]; rewrite Htrace.
  - exists pre, [Persist (toFailed error); Emit (ErrorEvent error)].
    cbv zeta. unfold extend. cbn [store trace]. rewrite replay_app.
    split; [reflexivity|]. split; [reflexivity|]. split; [exact Hpre|].
    split; [left; split; [reflexivity | exact Hstore]|].
    split; [repeat split|]. split; [intros _; split; reflexivity|].
    split; [intros _; repeat split|].
    split; [repeat split|].
    simpl. rewrite Hm, Hf, Hd. repeat split.
  - exists pre, []. cbv zeta. unfold extend. cbn [store trace].
    rewrite app_nil_r.
    split; [reflexivity|]. split; [reflexivity|]. split; [exact Hpre|].
    split; [right; split; [reflexivity | exact Hcause]|].
    split; [repeat split|]. split; [intros Hne; now destruct Hne|].
    split; [intros Hin; now elim Hnot|].
    split; [repeat split|].
    simpl. rewrite Hm, Hf, Hd. repeat split.
Qed.

(** Once an update has written 0 and no later update writes anything
    else, the record shows 0. *)
Lemma replay_progress_after_zero (tr : list (effect num)) :
  forall j : Job.t num,
  (forall u, In u (updates tr) ->
     Update.processProgress u = None \/ Update.processProgress u = Some 0) ->
  (exists u, In u (updates tr) /\ Update.processProgress u = Some 0) ->
  Job.processProgress (replay j tr) = 0.
Proof.
  induction tr as [|[e|u] tr IH]; intros j Hall [u0 [Hin Hzero]]; simpl in *.
  - destruct Hin.
  - apply IH; eauto.
  - destruct (Hall u (or_introl eq_refl)) as [Hu|Hu].
    + apply IH; [intros u' Hu'; apply Hall; now right|].
      destruct Hin as [Heq|Hin]; [congruence | eauto].
    + apply replay_progress_zero.
      * unfold Update.apply, Update.set. simpl. now rewrite Hu.
      * intros u' Hu'. apply Hall. now right.
Qed.

(** C10 (amended). In a run, [processProgress] is written at most twice
    and only with 0, by the update to [processing], and with 100, by the
    update to [completed]: exactly twice when the run reaches [completed],
    once when it fails after the first update.  Every other progress value
    is broadcast, never persisted, so the store read at any point after the
    first update and before the completion update shows
    [processProgress = 0]. *)
Theorem processProgress_persisted_only_0_and_100 (E : env num) (w : world num) :
  exists tr : list (effect num),
    trace (snd (processVideo E w)) = trace w ++ tr /\
    store (snd (processVideo E w)) = replay (store w) tr /\
    writes Update.processProgress tr =
      match fst (processVideo E w) with
      | Fulfilled _ => [0; 100]
      | _ => match storeRejects E toProcessing with
             | Some _ => []
             | None => [0]
             end
      end /\
    (forall u p, In u (updates tr) -> Update.processProgress u = Some p ->
       (p = 0 /\ Update.status u = Some processing) \/
       (p = 100 /\ Update.status u = Some completed)) /\
    (forall tr1 tr2 : list (effect num),
        tr = tr1 ++ tr2 ->
        In (Persist toProcessing) tr1 ->
        (forall u, In u (updates tr1) -> Update.status u <> Some completed) ->
        Job.processProgress (replay (store w) tr1) = 0).
Proof.
  rewrite processVideo_run. exists (runTrace E). simpl fst. simpl snd.
  split; [reflexivity|]. split; [reflexivity|].
  split.
  { unfold writes, runResult, failResult.
    rewrite updates_runTrace.
    assert (Hfail : forall e,
              flat_map (fun u : Update.t num =>
                          match Update.processProgress u with
                          | Some v => [v] | None => []
                          end) (updates (failTrace E e)) = []).
    { intros e. rewrite updates_failTrace.
      destruct (storeRejects E (toFailed e)); reflexivity. }
    destruct (storeRejects E toProcessing) as [e0|].
    { rewrite Hfail. destruct (storeRejects E (toFailed e0)); reflexivity. }
    destruct (probeOutcome E) as [m|e|].
    - rewrite updates_finishTrace.
      destruct (storeRejects E (toCompleted E (sensitivityVerdict E) m)) as [e1|].
      + simpl. rewrite Hfail. destruct (storeRejects E (toFailed e1)); reflexivity.
      + reflexivity.
    - simpl. rewrite Hfail. destruct (storeRejects E (toFailed e)); reflexivity.
    - reflexivity. }
  split.
  { intros u p Hin Hp.
    destruct (updates_runTrace_kinds E u Hin) as [Hu|[[m Hu]|[e Hu]]]; subst u;
      simpl in Hp; inversion Hp; auto. }
  intros tr1 tr2 Hsplit Hstart Hnot.
  apply replay_progress_after_zero.
  - intros u Hu. pose proof (updates_prefix tr1 tr2 u Hu) as Hu'.
    rewrite <- Hsplit in Hu'.
    destruct (updates_runTrace_kinds E u Hu') as [Heq|[[m Heq]|[e Heq]]]; subst u.
    + now right.
    + exfalso. apply (Hnot _ Hu). reflexivity.
    + now left.
  - exists toProcessing. split; [|reflexivity].
    clear - Hstart. induction tr1 as [|[e|u] tr1 IH]; simpl in *.
    + destruct Hstart.
    + destruct Hstart as [Heq|Hin]; [discriminate | auto].
    + destruct Hstart as [Heq|Hin]; [left; congruence | right; auto].
Qed.

(** C8 (amended). [processedAt] is written at most once per run, by the
    update to [completed] and by no other update: a run that ends in
    [failed] leaves it as it was. *)
Theorem processedAt_written_on_completion_only (E : env num) (w : world num) :
  exists tr : list (effect num),
    trace (snd (processVideo E w)) = trace w ++ tr /\
    store (snd (processVideo E w)) = replay (store w) tr /\
    writes Update.processedAt tr =
      match fst (processVideo E w) with
      | Fulfilled _ => [now E]
      | _ => []
      end /\
    (forall u, In u (updates tr) ->
       (Update.processedAt u <> None <-> Update.status u = Some completed)) /\
    match fst (processVideo E w) with
    | Fulfilled j =>
        Job.status j = completed /\ Job.processedAt j = Some (now E)
    | Rejected error =>
        (In (Persist (toFailed error)) tr ->
         Job.status (store (snd (processVideo E w))) = failed) /\
        Job.processedAt (store (snd (processVideo E w))) = Job.processedAt (store w)
    | Pending =>
        Job.processedAt (store (snd (processVideo E w))) = Job.processedAt (store w)
    end.
Proof.
  rewrite processVideo_run. exists (runTrace E). simpl fst. simpl snd.
  split; [reflexivity|]. split; [reflexivity|].
  assert (Hkinds : forall u, In u (updates (runTrace E)) ->
            (Update.processedAt u <> None <-> Update.status u = Some completed)).
  { intros u Hin.
    destruct (updates_runTrace_kinds E u Hin) as [Hu|[[m Hu]|[e Hu]]]; subst u;
      simpl; split; congruence. }
  destruct (runResult E (store w)) as [j|error|] eqn:Hres.
  - destruct (fulfilled_run E (store w) j Hres) as (m & Hprobe & Hs0 & Hs1 & Hshape).
    split.
    { unfold writes.
      rewrite updates_runTrace, Hs0, Hprobe, updates_finishTrace, Hs1.
      reflexivity. }
    split; [exact Hkinds|].
    unfold runResult in Hres. rewrite Hs0, Hprobe, Hs1 in Hres.
    inversion Hres. rewrite Hshape. unfold startTrace, completeTrace.
    cbn [app replay]. rewrite replay_app.
    rewrite (replay_progress_only _ _ (sensitivityTrace_progress E)).
    split; reflexivity.
  - destruct (rejected_run E (store w) error Hres) as (pre & Hpre & Htrace).
    destruct (toProcessing_keeps (store w) pre Hpre) as (_ & _ & _ & Hat).
    assert (Hwpre : writes Update.processedAt pre = []).
    { unfold writes. clear Htrace Hat.
      induction (updates pre) as [|u us IH]; [reflexivity|].
      simpl. rewrite (Hpre u (or_introl eq_refl)). simpl.
      apply IH. intros u' Hin. apply Hpre. now right. }
    destruct Htrace as [Htrace|Htrace]; rewrite Htrace.
    + split.
      { unfold writes in *. rewrite updates_app, flat_map_app, Hwpre. reflexivity. }
      split; [rewrite <- Htrace; exact Hkinds|].
      unfold extend. cbn [store]. rewrite replay_app. simpl.
      split; [reflexivity | exact Hat].
    + split; [exact Hwpre|]. split; [rewrite <- Htrace; exact Hkinds|].
      unfold extend. cbn [store]. split; [|exact Hat].
      intros Hin. exfalso.
      assert (Hu : In (toFailed error) (updates pre)).
      { clear - Hin. induction pre as [|[e|u] pre IH]; simpl in *.
        - destruct Hin.
        - destruct Hin as [Heq|Hin]; [discriminate | auto].
        - destruct Hin as [Heq|Hin]; [left; congruence | right; auto]. }
      apply Hpre in Hu. discriminate Hu.
  - assert (Hshape : runTrace E = startTrace).
    { unfold runResult, failResult in Hres. unfold runTrace.
      destruct (storeRejects E toProcessing) as [e0|].
      - destruct (storeRejects E (toFailed e0)); discriminate.
      - destruct (probeOutcome E) as [m|e|].
        + destruct (storeRejects E (toCompleted E (sensitivityVerdict E) m)) as [e1|];
            [destruct (storeRejects E (toFailed e1))|]; discriminate.
        + destruct (storeRejects E (toFailed e)); discriminate.
        + apply app_nil_r. }
    rewrite Hshape. split; [reflexivity|]. split; [rewrite <- Hshape; exact Hkinds|].
    reflexivity.
Qed.

End StoreProperties.

(* --------------------------------------------------------------------- *)
(** ** 13.2 The decision policy *)
(* --------------------------------------------------------------------- *)

Section DecisionPolicy.

Context {num : Type} `{JsNumber num}.
Variable E : env num.

Local Open Scope list_scope.

(** The verdict is [safe] exactly when no frame was flagged and the
    average is below the threshold; every other verdict is [flagged]. *)
Lemma decide_flag (total : nat) (st : loopState) :
  (Verdict.sensitivityFlag (decide total st) = safe <->
   flaggedFrames st = 0%nat /\ ltb (averageOf st) (dec 5 1) = true) /\
  (Verdict.sensitivityFlag (decide total st) <> safe ->
   Verdict.sensitivityFlag (decide total st) = flagged).
Proof.
  unfold decide, isSafeOf. simpl.
  destruct (Nat.eqb_spec (flaggedFrames st) 0) as [Hz|Hnz];
    destruct (ltb (averageOf st) (dec 5 1)); simpl;
    (split; [split; [intros Hs | intros [Hf Ha]] | intros Hs]);
    try discriminate; try congruence; auto.
Qed.

(** A run of the real path that classified at least one frame returns
    the verdict decided from the loop's accumulators. *)
Lemma analyzeSensitivity_classified
    (w w1 w2 : world num) (key : string) (frames : list frame) (st : loopState) :
  truthy (apiKey E) = Some key ->
  extractFrames E 5 w = (Fulfilled frames, w1) ->
  analyzeFrames E (List.length frames) loopStart 0 frames w1 = (Fulfilled st, w2) ->
  apiSuccessCount st <> 0%nat ->
  analyzeSensitivity E w = (Fulfilled (decide (List.length frames) st), w2).
Proof.
  intros Hkey Hext Hloop Hcount.
  unfold analyzeSensitivity, tryCatch, bind. rewrite Hkey, Hext, Hloop.
  destruct (Nat.eqb_spec (apiSuccessCount st) 0); [contradiction | reflexivity].
Qed.


End DecisionPolicy.

(** C3. On the real classification path with at least one classified
    frame the verdict is [safe] if and only if no frame was flagged and
    the average score is below 0.5, and [flagged] otherwise; so an average
    of 0.4 without flagged frames gives [safe], an average of 0.7 gives
    [flagged] whatever the frames, and one flagged frame gives [flagged]
    whatever the average (0.1 included). *)
Theorem real_verdict_safe_iff_no_flag_and_low_average
    (E : env F64.t) (w w1 w2 : world F64.t) (key : string)
    (frames : list frame) (st : loopState) :
  truthy (apiKey E) = Some key ->
  extractFrames E 5 w = (Fulfilled frames, w1) ->
  analyzeFrames E (List.length frames) loopStart 0 frames w1 = (Fulfilled st, w2) ->
  apiSuccessCount st <> 0%nat ->
  exists v : Verdict.t F64.t,
    analyzeSensitivity E w = (Fulfilled v, w2) /\
    (Verdict.sensitivityFlag v = safe <->
     flaggedFrames st = 0%nat /\ ltb (averageOf st) (dec 5 1) = true) /\
    (Verdict.sensitivityFlag v <> safe -> Verdict.sensitivityFlag v = flagged) /\
    (averageOf st = dec 4 1 -> flaggedFrames st = 0%nat ->
     Verdict.sensitivityFlag v = safe) /\
    (averageOf st = dec 7 1 -> Verdict.sensitivityFlag v = flagged) /\
    ((1 <= flaggedFrames st)%nat -> Verdict.sensitivityFlag v = flagged) /\
    ((1 <= flaggedFrames st)%nat -> averageOf st = dec 1 1 ->
     Verdict.sensitivityFlag v = flagged).
Proof.
  intros Hkey Hext Hloop Hcount.
  exists (decide (List.length frames) st).
  split; [eapply analyzeSensitivity_classified; eassumption|].
  destruct (decide_flag (List.length frames) st) as [Hiff Helse].
  split; [exact Hiff|]. split; [exact Helse|].
  assert (Hflagged : (1 <= flaggedFrames st)%nat ->
            Verdict.sensitivityFlag (decide (List.length frames) st) = flagged).
  { intros Hone. apply Helse. intros Hs. apply Hiff in Hs. lia. }
  repeat split.
  - intros Havg Hnone. apply Hiff. split; [assumption|].
    rewrite Havg. reflexivity.
  - intros Havg. apply Helse. intros Hs. apply Hiff in Hs.
    destruct Hs as [_ Hlt]. rewrite Havg in Hlt. discriminate.
  - exact Hflagged.
  - intros Hone _. now apply Hflagged.
Qed.

Lemma real_verdict_witness :
  exists v : Verdict.t F64.t,
    analyzeSensitivity Sample.allCalm Sample.start =
      (Fulfilled v, snd (analyzeSensitivity Sample.allCalm Sample.start)) /\
    Verdict.sensitivityFlag v = safe.
Proof.
  destruct (real_verdict_safe_iff_no_flag_and_low_average
              Sample.allCalm Sample.start
              (snd (extractFrames Sample.allCalm 5 Sample.start))
              (snd (analyzeSensitivity Sample.allCalm Sample.start))
              "hf_key"
              [ {| path := 1; buffer := [] |}; {| path := 2; buffer := [] |};
                {| path := 3; buffer := [] |}; {| path := 4; buffer := [] |};
                {| path := 5; buffer := [] |} ]
              (loopEnd Sample.allCalm
                 [ {| path := 1; buffer := [] |}; {| path := 2; buffer := [] |};
                   {| path := 3; buffer := [] |}; {| path := 4; buffer := [] |};
                   {| path := 5; buffer := [] |} ]))
    as (v & Hrun & Hiff & _).
  - reflexivity.
  - reflexivity.
  - vm_compute. reflexivity.
  - vm_compute. discriminate.
  - exists v. split; [exact Hrun|]. apply Hiff. vm_compute. split; reflexivity.
Defined.

(* --------------------------------------------------------------------- *)
(** ** 13.3 Bounds on the confidence, over exact numbers *)
(* --------------------------------------------------------------------- *)

Section ExactBounds.

Variable E : env Q.

Local Open Scope list_scope.
Local Open Scope Q_scope.

Lemma Qmax_lower (a b : Q) : a <= QNum.max a b.
Proof.
  unfold QNum.max. destruct (Qle_bool a b) eqn:Hle.
  - now apply Qle_bool_iff.
  - apply Qle_refl.
Qed.

Lemma Qmin_spec (a b : Q) :
  QNum.min a b <= b /\ (0 <= a -> 0 <= b -> 0 <= QNum.min a b).
Proof.
  unfold QNum.min. destruct (Qle_bool a b) eqn:Hle.
  - apply Qle_bool_iff in Hle. split; auto.
  - split; [apply Qle_refl | auto].
Qed.

Lemma Qltb_true (a b : Q) : QNum.ltb a b = true -> a < b.
Proof.
  unfold QNum.ltb. intros Hlt. apply Qnot_le_lt. intros Hle.
  apply Qle_bool_iff in Hle. rewrite Hle in Hlt. discriminate.
Qed.

Lemma scoreItem_nonneg (scores : Q * Q) (item : labelScore Q) :
  0 <= fst scores -> 0 <= fst (scoreItem scores item).
Proof.
  destruct scores as [n s]. unfold scoreItem. simpl. intros Hn.
  destruct (unsafeLabel _); [|destruct (safeLabel _); [|destruct (ambiguousLabel _)]];
    simpl; auto; (apply Qle_trans with n; [assumption | apply Qmax_lower]).
Qed.

Lemma scoreEntry_nonneg (scores : Q * Q) (entry : string * entryValue Q) :
  0 <= fst scores -> 0 <= fst (scoreEntry scores entry).
Proof.
  destruct scores as [n s]. unfold scoreEntry. simpl. intros Hn.
  destruct (_ || _)%bool; [|destruct (_ || _)%bool];
    simpl; auto; (apply Qle_trans with n; [assumption | apply Qmax_lower]).
Qed.

Lemma fold_nonneg {A} (f : Q * Q -> A -> Q * Q) (l : list A) :
  (forall scores a, 0 <= fst scores -> 0 <= fst (f scores a)) ->
  forall scores, 0 <= fst scores -> 0 <= fst (fold_left f l scores).
Proof.
  intros Hf. induction l as [|a l IH]; intros scores Hs; simpl; auto.
Qed.

(** The nsfw score of a frame is never negative. *)
Lemma frameScores_nonneg (result : apiResult Q) : 0 <= fst (frameScores result).
Proof.
  unfold frameScores.
  assert (Hraw : 0 <= fst (match result with
                           | ResultList items => fold_left scoreItem items (ofZ 0, ofZ 0)
                           | ResultObject entries => fold_left scoreEntry entries (ofZ 0, ofZ 0)
                           | ResultOther => (ofZ 0, ofZ 0)
                           | ResultBrokenList _ => (ofZ 0, ofZ 0)
                           end)).
  { destruct result as [items|entries| |readable].
    - apply fold_nonneg; [apply scoreItem_nonneg | apply Qle_refl].
    - apply fold_nonneg; [apply scoreEntry_nonneg | apply Qle_refl].
    - apply Qle_refl.
    - apply Qle_refl. }
  destruct (match result with
            | ResultList _ => _ | ResultObject _ => _ | ResultOther => _
            | ResultBrokenList _ => _
            end) as [n s].
  destruct (_ && _)%bool; exact Hraw.
Qed.

Lemma afterFrames_nonneg (frames : list frame) :
  forall (st : loopState) (i : nat),
  0 <= totalNsfwScore st -> 0 <= totalNsfwScore (afterFrames E st i frames).
Proof.
  induction frames as [|f rest IH]; intros st i Hst; simpl; auto.
  apply IH. unfold afterFrame.
  destruct (apiOutcome E i (buffer f)) as [e|result]; auto.
  pose proof (frameScores_nonneg result) as Hs.
  destruct result; unfold recordFrame, scoreFrame, countFrame; simpl in *;
    try lra; exact Hst.
Qed.

Lemma loopEnd_nonneg (frames : list frame) :
  0 <= totalNsfwScore (loopEnd E frames).
Proof. apply afterFrames_nonneg. apply Qle_refl. Qed.

(** Rounding to three decimals stays within [0, 0.99]. *)
Lemma toFixed3_bounds (y : Q) :
  0 <= y -> y <= 99 # 100 -> 0 <= QNum.toFixed 3 y /\ QNum.toFixed 3 y <= 99 # 100.
Proof.
  intros H0 H1. unfold QNum.toFixed.
  rewrite (proj2 (Qle_bool_iff 0 y) H0).
  change (Z.to_pos (10 ^ Z.of_nat 3)) with 1000%positive.
  change (inject_Z (10 ^ Z.of_nat 3)) with (1000 # 1).
  assert (Hlo : (0 <= Qfloor (y * (1000 # 1) + (1 # 2)))%Z).
  { change 0%Z with (Qfloor 0). apply Qfloor_resp_le. lra. }
  assert (Hhi : (Qfloor (y * (1000 # 1) + (1 # 2)) <= 990)%Z).
  { change 990%Z with (Qfloor (990 + (1 # 2))). apply Qfloor_resp_le. lra. }
  split; unfold Qle; cbn [Qnum Qden]; lia.
Qed.

(** The real path: confidence within [0, 0.99]. *)
Lemma decide_confidence (total : nat) (st : loopState) :
  0 <= totalNsfwScore st -> apiSuccessCount st <> 0%nat ->
  0 <= Verdict.confidence (decide total st) /\
  Verdict.confidence (decide total st) <= 99 # 100.
Proof.
  intros Htotal Hcount. unfold decide. simpl.
  assert (Havg : 0 <= averageOf st).
  { unfold averageOf. simpl. unfold QNum.ofZ, Qdiv.
    apply Qmult_le_0_compat; [assumption|].
    apply Qinv_le_0_compat. unfold Qle. simpl. lia. }
  assert (Hsafe : isSafeOf st = true -> averageOf st < 5 # 10).
  { unfold isSafeOf. intros Hs. apply andb_true_iff in Hs.
    destruct Hs as [_ Hlt]. apply Qltb_true in Hlt. exact Hlt. }
  unfold confidenceOf.
  destruct (isSafeOf st); [specialize (Hsafe eq_refl) | clear Hsafe];
    generalize dependent (averageOf st); intros a Ha; intros;
    change (@min Q _) with QNum.min; change (@mul Q _) with Qmult;
    change (@sub Q _) with Qminus; change (@ofZ Q _ 1%Z) with 1;
    change (@dec Q _ 11 1) with (11 # 10); change (@dec Q _ 99 2) with (99 # 100).
  - apply toFixed3_bounds; [|apply Qmin_spec].
    apply Qmin_spec; [|lra]. apply Qmult_le_0_compat; lra.
  - apply toFixed3_bounds; [|apply Qmin_spec].
    apply Qmin_spec; [|lra]. apply Qmult_le_0_compat; lra.
Qed.

(** The mock: confidence within [0.7, 1.0). *)
Lemma mock_confidence :
  0 <= random E 1 -> random E 1 < 1 ->
  7 # 10 <= Verdict.confidence (mockVerdict E) /\
  Verdict.confidence (mockVerdict E) < 1.
Proof.
  intros H0 H1. unfold mockVerdict. simpl. unfold QNum.dec. simpl.
  split; lra.
Qed.

End ExactBounds.

(* --------------------------------------------------------------------- *)
(** ** 13.4 Bounds on the confidence, in binary64 *)
(* --------------------------------------------------------------------- *)

Section FrameCount.

Context {num : Type} `{JsNumber num}.
Variable E : env num.

Local Open Scope list_scope.

Lemma readFrames_length (files : nat -> fileState) (remaining : nat) :
  forall (i : nat) (acc frames : list frame),
  readFrames files remaining i acc = inr frames ->
  (List.length frames <= remaining + List.length acc)%nat.
Proof.
  induction remaining as [|r IH]; intros i acc frames; simpl.
  - intros Heq. inversion Heq. lia.
  - destruct (files i) as [|bytes|error]; [| |discriminate]; intros Hread.
    + apply IH in Hread. lia.
    + apply IH in Hread. rewrite length_app in Hread. simpl in Hread. lia.
Qed.

(** The real path classifies at most the five frames it asks for. *)
Lemma classified_at_most_five (frames : list frame) :
  routeOf E = Classified frames -> (List.length frames <= 5)%nat.
Proof.
  unfold routeOf, extractOutcome.
  destruct (truthy (apiKey E)); [|discriminate].
  destruct (screenshots E) as [e|e|files]; [discriminate | discriminate |].
  destruct (readFrames files 5 1 []) as [e|fs] eqn:Hread; [discriminate|].
  apply readFrames_length in Hread. simpl in Hread.
  destruct (Nat.eqb (apiSuccessCount (loopEnd E fs)) 0); [discriminate|].
  intros Heq. inversion Heq; subst. lia.
Qed.

End FrameCount.

Section Binary64Rounding.

Local Open Scope Z_scope.

Lemma digits_bounds (p : positive) :
  2 ^ (Zpos (digits2_pos p) - 1) <= Zpos p < 2 ^ Zpos (digits2_pos p).
Proof.
  induction p as [p IH|p IH|]; simpl digits2_pos.
  - rewrite Pos2Z.inj_succ.
    replace (Z.succ (Zpos (digits2_pos p)) - 1) with (Z.succ (Zpos (digits2_pos p) - 1)) by lia.
    rewrite !Z.pow_succ_r by lia. lia.
  - rewrite Pos2Z.inj_succ.
    replace (Z.succ (Zpos (digits2_pos p)) - 1) with (Z.succ (Zpos (digits2_pos p) - 1)) by lia.
    rewrite !Z.pow_succ_r by lia. lia.
  - simpl. lia.
Qed.

Lemma Zdigits2_nonneg (m : Z) : 0 <= Zdigits2 m.
Proof. destruct m; simpl; lia. Qed.

Lemma Zdigits2_bound (m : Z) : 0 <= m -> m < 2 ^ Zdigits2 m \/ m = 0.
Proof.
  destruct m as [|p|p]; intros Hm; [now right| left | lia].
  simpl. apply digits_bounds.
Qed.

Lemma pow2_xO (n : positive) : 2 ^ Zpos n~0 = 2 ^ Zpos n * 2 ^ Zpos n.
Proof. rewrite Pos2Z.inj_xO, <- Z.pow_add_r by lia. f_equal. lia. Qed.

Lemma pow2_xI (n : positive) : 2 ^ Zpos n~1 = 2 * (2 ^ Zpos n * 2 ^ Zpos n).
Proof.
  rewrite Pos2Z.inj_xI, <- Z.pow_add_r by lia.
  replace (2 * Zpos n + 1) with (Z.succ (Zpos n + Zpos n)) by lia.
  now rewrite Z.pow_succ_r by lia.
Qed.

Lemma pow2_pos (k : Z) : 0 <= k -> 0 < 2 ^ k.
Proof. intros Hk. apply Z.pow_pos_nonneg; lia. Qed.

Lemma pow2_le (a b : Z) : 0 <= a <= b -> 2 ^ a <= 2 ^ b.
Proof. intros Hab. apply Z.pow_le_mono_r; lia. Qed.

Lemma pow2_lt (a b : Z) : 0 <= a < b -> 2 ^ a < 2 ^ b.
Proof. intros Hab. apply Z.pow_lt_mono_r; lia. Qed.

Lemma pow2_split (a b : Z) : 0 <= a -> 0 <= b -> 2 ^ (a + b) = 2 ^ a * 2 ^ b.
Proof. intros Ha Hb. apply Z.pow_add_r; assumption. Qed.

Lemma Zdigits2_le_of_lt (m n : Z) : 0 < m -> 0 <= n -> m < 2 ^ n -> Zdigits2 m <= n.
Proof.
  intros Hm Hn Hlt. destruct m as [|p|p]; try lia. simpl.
  destruct (digits_bounds p) as [Hlo _].
  destruct (Z_le_gt_dec (Zpos (digits2_pos p)) n) as [|Hgt]; [assumption|].
  exfalso. assert (2 ^ n <= 2 ^ (Zpos (digits2_pos p) - 1)) by (apply pow2_le; lia).
  lia.
Qed.

Lemma Zdigits2_lower (m : Z) : 0 < m -> 2 ^ (Zdigits2 m - 1) <= m.
Proof. destruct m as [|p|p]; try lia. intros _. apply digits_bounds. Qed.

(** [shr_1] halves a non-negative mantissa and remembers the bit it drops. *)
Lemma shr_1_m (mrs : shr_record) :
  0 <= shr_m mrs -> shr_m (shr_1 mrs) = shr_m mrs / 2.
Proof.
  destruct mrs as [m r s]. cbn [shr_m]. intros Hm.
  destruct m as [|[p|p|]|p]; cbn [shr_1 shr_m]; try lia.
  - reflexivity.
  - apply Z.div_unique with 1; lia.
  - apply Z.div_unique with 0; lia.
  - reflexivity.
Qed.

Lemma shr_1_r (mrs : shr_record) :
  0 <= shr_m mrs -> shr_r (shr_1 mrs) = Z.odd (shr_m mrs).
Proof.
  destruct mrs as [m r s]. cbn [shr_m]. intros Hm.
  destruct m as [|[p|p|]|p]; cbn [shr_1 shr_r]; try lia; reflexivity.
Qed.

Lemma iter_shr_1_m (n : positive) :
  forall mrs, 0 <= shr_m mrs ->
  shr_m (iter_pos shr_1 n mrs) = shr_m mrs / 2 ^ Zpos n.
Proof.
  induction n as [n IH|n IH|]; intros mrs Hm; simpl iter_pos.
  - assert (H1 : 0 <= shr_m (shr_1 mrs)).
    { rewrite shr_1_m by assumption. apply Z.div_pos; lia. }
    assert (H2 : 0 <= shr_m (iter_pos shr_1 n (shr_1 mrs))).
    { rewrite IH by assumption. apply Z.div_pos; [assumption|]. apply pow2_pos; lia. }
    rewrite IH, IH, shr_1_m by assumption.
    pose proof (pow2_pos (Zpos n) ltac:(lia)) as Hp.
    rewrite !Z.div_div by lia.
    f_equal. rewrite pow2_xI. lia.
  - assert (H2 : 0 <= shr_m (iter_pos shr_1 n mrs)).
    { rewrite IH by assumption. apply Z.div_pos; [assumption|]. apply pow2_pos; lia. }
    rewrite IH, IH by assumption.
    pose proof (pow2_pos (Zpos n) ltac:(lia)) as Hp.
    rewrite !Z.div_div by lia.
    f_equal. rewrite pow2_xO. lia.
  - rewrite shr_1_m by assumption. reflexivity.
Qed.

(** The round bit after [n] shifts is bit [n - 1] of the mantissa. *)
Lemma iter_shr_1_r (n : positive) :
  forall mrs, 0 <= shr_m mrs ->
  shr_r (iter_pos shr_1 n mrs) = Z.odd (shr_m mrs / 2 ^ (Zpos n - 1)).
Proof.
  induction n as [n IH|n IH|]; intros mrs Hm; simpl iter_pos.
  - assert (H1 : 0 <= shr_m (shr_1 mrs)).
    { rewrite shr_1_m by assumption. apply Z.div_pos; lia. }
    assert (H2 : 0 <= shr_m (iter_pos shr_1 n (shr_1 mrs))).
    { rewrite iter_shr_1_m by assumption.
      apply Z.div_pos; [assumption|]. apply pow2_pos; lia. }
    rewrite IH by assumption. rewrite iter_shr_1_m, shr_1_m by assumption.
    pose proof (pow2_pos (Zpos n) ltac:(lia)) as Hp.
    pose proof (pow2_pos (Zpos n - 1) ltac:(lia)) as Hp'.
    rewrite !Z.div_div by lia. f_equal. f_equal.
    replace (Zpos n~1 - 1) with (1 + Zpos n + (Zpos n - 1)) by lia.
    rewrite !pow2_split by lia. change (2 ^ 1) with 2. lia.
  - assert (H2 : 0 <= shr_m (iter_pos shr_1 n mrs)).
    { rewrite iter_shr_1_m by assumption.
      apply Z.div_pos; [assumption|]. apply pow2_pos; lia. }
    rewrite IH by assumption. rewrite iter_shr_1_m by assumption.
    pose proof (pow2_pos (Zpos n) ltac:(lia)) as Hp.
    pose proof (pow2_pos (Zpos n - 1) ltac:(lia)) as Hp'.
    rewrite !Z.div_div by lia. f_equal. f_equal.
    replace (Zpos n~0 - 1) with (Zpos n + (Zpos n - 1)) by lia.
    rewrite !pow2_split by lia. lia.
  - rewrite shr_1_r by assumption. change (2 ^ (1 - 1)) with 1.
    now rewrite Z.div_1_r.
Qed.

Lemma shr_record_of_loc_m (m : Z) (l : location) : shr_m (shr_record_of_loc m l) = m.
Proof. destruct l as [|[| |]]; reflexivity. Qed.

(** A remainder below one half leaves the round bit clear. *)
Lemma round_bit_clear (m k : Z) :
  0 <= m -> 0 < k -> 2 * (m mod 2 ^ k) < 2 ^ k -> Z.odd (m / 2 ^ (k - 1)) = false.
Proof.
  intros Hm Hk Hrem.
  pose proof (pow2_pos (k - 1) ltac:(lia)) as Hp.
  assert (Hpow : 2 ^ k = 2 ^ (k - 1) * 2).
  { replace k with ((k - 1) + 1) at 1 by lia. now rewrite pow2_split by lia. }
  rewrite Hpow in Hrem. rewrite Z.rem_mul_r in Hrem by lia.
  pose proof (Z.mod_pos_bound m (2 ^ (k - 1)) Hp) as Hlow.
  destruct (Z.odd (m / 2 ^ (k - 1))) eqn:Hodd; [|reflexivity].
  exfalso. rewrite Zmod_odd, Hodd in Hrem. lia.
Qed.

(** The first component of [shr_fexp]. *)
Lemma shr_fexp_spec (m e : Z) (l : location) :
  0 <= m ->
  let k := fexp F64.prec F64.emax (Zdigits2 m + e) - e in
  (k <= 0 /\ shr_fexp F64.prec F64.emax m e l = (shr_record_of_loc m l, e)) \/
  (0 < k /\ exists mrs, shr_fexp F64.prec F64.emax m e l = (mrs, e + k) /\
            shr_m mrs = m / 2 ^ k /\ shr_r mrs = Z.odd (m / 2 ^ (k - 1))).
Proof.
  intros Hm k. unfold shr_fexp, shr. fold k.
  destruct k as [|p|p] eqn:Hk.
  - left. split; [lia | reflexivity].
  - right. split; [lia|]. eexists. split; [reflexivity|].
    rewrite iter_shr_1_m, iter_shr_1_r; rewrite shr_record_of_loc_m; auto.
  - left. split; [lia | reflexivity].
Qed.

Lemma fexp64_eq (z : Z) : fexp F64.prec F64.emax z = Z.max (z - 53) (-1074).
Proof. reflexivity. Qed.

Lemma round_nearest_even_range (q : Z) (l : location) :
  q <= round_nearest_even q l <= q + 1.
Proof.
  destruct l as [|[| |]]; simpl; try lia.
  destruct (Z.even q); lia.
Qed.

Lemma round_nearest_even_down (q : Z) (mrs : shr_record) :
  shr_r mrs = false -> round_nearest_even q (loc_of_shr_record mrs) = q.
Proof. destruct mrs as [m r [|]]; simpl; intros ->; reflexivity. Qed.

(** The second shift of [binary_round_aux]. *)
Lemma second_stage (q e1 : Z) :
  0 <= q <= 2 ^ 53 -> -1074 <= e1 ->
  exists mrs e2, shr_fexp F64.prec F64.emax q e1 loc_Exact = (mrs, e2) /\
    ((q = 0 /\ shr_m mrs = 0) \/
     (0 < q < 2 ^ 53 /\ shr_m mrs = q /\ e2 = e1) \/
     (q = 2 ^ 53 /\ shr_m mrs = 2 ^ 52 /\ e2 = e1 + 1)).
Proof.
  intros Hq He.
  destruct (shr_fexp_spec q e1 loc_Exact ltac:(lia))
    as [[Hk Heq]|[Hk [mrs [Heq [Hm _]]]]].
  - rewrite Heq. do 2 eexists. split; [reflexivity|].
    rewrite shr_record_of_loc_m.
    destruct (Z.eq_dec q 0) as [->|Hne]; [left; auto|].
    right.
    destruct (Z.eq_dec q (2 ^ 53)) as [->|Hne2].
    + exfalso. change (Zdigits2 (2 ^ 53)) with 54 in Hk.
      rewrite fexp64_eq in Hk. lia.
    + left. repeat split; lia.
  - rewrite Heq. do 2 eexists. split; [reflexivity|].
    destruct (Z.eq_dec q 0) as [->|Hne].
    { left. split; [reflexivity|]. rewrite Hm. apply Z.div_0_l.
      pose proof (pow2_pos _ (Z.lt_le_incl _ _ Hk)). lia. }
    right.
    destruct (Z.eq_dec q (2 ^ 53)) as [->|Hne2].
    + right. change (Zdigits2 (2 ^ 53)) with 54 in *.
      rewrite fexp64_eq in *.
      assert (Hone : Z.max (54 + e1 - 53) (-1074) - e1 = 1) by lia.
      rewrite Hone in *. split; [reflexivity|]. split; [|lia].
      rewrite Hm. reflexivity.
    + exfalso. assert (Hd : Zdigits2 q <= 53) by (apply Zdigits2_le_of_lt; lia).
      rewrite fexp64_eq in Hk. lia.
Qed.

(** [binary_round_aux] on a non-negative mantissa [m] at exponent [e]:
    [m] is shifted right by [k] places to [q], [q] is moved to a neighbour
    [q'] (to [q] itself when the bits shifted out are below one half, and
    when nothing is shifted out of an exact value), and [q'] is packed. *)
Lemma binary_round_aux_spec (s : bool) (m e : Z) (l : location) :
  0 <= m ->
  let k := fexp F64.prec F64.emax (Zdigits2 m + e) - e in
  let q := if 0 <? k then m / 2 ^ k else m in
  let e1 := if 0 <? k then e + k else e in
  exists q',
    q <= q' <= q + 1 /\
    (l = loc_Exact -> k <= 0 -> q' = q) /\
    (0 < k -> 2 * (m mod 2 ^ k) < 2 ^ k -> q' = q) /\
    q < 2 ^ 53 /\ 0 <= q /\ -1074 <= e1 /\
    binary_round_aux F64.prec F64.emax s m e l = rounded s q' e1.
Proof.
  intros Hm k q e1.
  assert (Hshape : exists mrs,
             shr_fexp F64.prec F64.emax m e l = (mrs, e1) /\ shr_m mrs = q /\
             (l = loc_Exact -> k <= 0 -> loc_of_shr_record mrs = loc_Exact) /\
             (0 < k -> 2 * (m mod 2 ^ k) < 2 ^ k -> shr_r mrs = false)).
  { destruct (shr_fexp_spec m e l Hm) as [[Hk Heq]|[Hk [mrs [Heq [Hmrs Hr]]]]];
      fold k in Hk.
    - exists (shr_record_of_loc m l). unfold q, e1.
      destruct (Z.ltb_spec 0 k); [lia|].
      split; [assumption|]. split; [apply shr_record_of_loc_m|].
      split; [intros -> _; reflexivity | lia].
    - exists mrs. unfold q, e1. destruct (Z.ltb_spec 0 k); [|lia].
      fold k in Heq, Hmrs, Hr. split; [assumption|]. split; [assumption|].
      split; [lia|]. intros _ Hrem. rewrite Hr.
      now apply round_bit_clear. }
  destruct Hshape as (mrs & Hfirst & Hq & Hexact & Hdown).
  assert (Hbound : q < 2 ^ 53 /\ 0 <= q /\ -1074 <= e1).
  { unfold q, e1. pose proof (Zdigits2_nonneg m) as Hd.
    assert (Hkeq : k = Z.max (Zdigits2 m + e - 53) (-1074) - e) by reflexivity.
    destruct (Z.ltb_spec 0 k) as [Hk|Hk].
    - pose proof (pow2_pos k ltac:(lia)) as Hp.
      split; [|split; [apply Z.div_pos; lia | lia]].
      apply Z.div_lt_upper_bound; [assumption|].
      destruct (Zdigits2_bound m Hm) as [Hlt| ->]; [|
        apply Z.mul_pos_pos; [assumption | apply pow2_pos; lia]].
      rewrite <- Z.pow_add_r by lia.
      assert (2 ^ Zdigits2 m <= 2 ^ (k + 53)) by (apply pow2_le; lia).
      lia.
    - destruct (Zdigits2_bound m Hm) as [Hlt| ->]; [|lia].
      assert (2 ^ Zdigits2 m <= 2 ^ 53) by (apply pow2_le; lia).
      lia. }
  destruct Hbound as (Hq53 & Hq0 & He1).
  set (q' := round_nearest_even q (loc_of_shr_record mrs)).
  exists q'.
  pose proof (round_nearest_even_range q (loc_of_shr_record mrs)) as Hrange.
  fold q' in Hrange.
  split; [assumption|]. split.
  { intros Hl Hk. unfold q'. rewrite (Hexact Hl Hk). reflexivity. }
  split.
  { intros Hk Hrem. unfold q'. apply round_nearest_even_down. now apply Hdown. }
  split; [assumption|]. split; [assumption|]. split; [assumption|].
  unfold binary_round_aux. rewrite Hfirst, Hq. fold q'.
  destruct (second_stage q' e1 ltac:(lia) He1) as (mrs2 & e2 & Hsecond & Hcases).
  rewrite Hsecond. unfold rounded.
  destruct Hcases as [[Hz Hm2]|[[Hr [Hm2 He2]]|[Hr [Hm2 He2]]]]; rewrite Hm2.
  - subst q'. rewrite Hz. reflexivity.
  - destruct (Z.eqb_spec q' 0); [lia|].
    destruct (Z.ltb_spec q' (2 ^ 53)); [|lia]. subst e2.
    destruct q' as [|p|p]; try lia. reflexivity.
  - rewrite Hr. subst e2. reflexivity.
Qed.

End Binary64Rounding.

Section Binary64Closure.

Local Open Scope Z_scope.

Lemma valid_fits (x : F64.t) :
  valid_binary F64.prec F64.emax x = true -> F64.is_nan x = false -> fits x.
Proof.
  destruct x as [s|s| |s m e]; simpl; try tauto; try discriminate.
  intros Hvalid _. unfold bounded, canonical_mantissa in Hvalid.
  apply andb_true_iff in Hvalid. destruct Hvalid as [Hcanon _].
  apply Z.eqb_eq in Hcanon. rewrite fexp64_eq in Hcanon.
  destruct (digits_bounds m) as [_ Hhi].
  assert (2 ^ Zpos (digits2_pos m) <= 2 ^ 53) by (apply pow2_le; lia).
  lia.
Qed.

Lemma rounded_shape (s : bool) (q e1 : Z) :
  0 <= q <= 2 ^ 53 ->
  fits (rounded s q e1) /\ F64.is_negative (rounded s q e1) = s.
Proof.
  intros Hq. unfold rounded.
  destruct (Z.eqb_spec q 0); [simpl; auto|].
  destruct (Z.ltb_spec q (2 ^ 53)).
  - destruct (e1 <=? 971); simpl; auto. split; [|reflexivity].
    rewrite Z2Pos.id by lia. assumption.
  - destruct (e1 + 1 <=? 971); simpl; auto. split; [reflexivity | reflexivity].
Qed.

Lemma binary_round_aux_shape (s : bool) (m e : Z) (l : location) :
  0 <= m ->
  fits (binary_round_aux F64.prec F64.emax s m e l) /\
  F64.is_negative (binary_round_aux F64.prec F64.emax s m e l) = s.
Proof.
  intros Hm.
  destruct (binary_round_aux_spec s m e l Hm)
    as (q' & Hrange & _ & _ & Hq & Hq0 & _ & ->).
  apply rounded_shape. lia.
Qed.

Lemma binary_round_shape (s : bool) (m : positive) (e : Z) :
  fits (binary_round F64.prec F64.emax s m e) /\
  F64.is_negative (binary_round F64.prec F64.emax s m e) = s.
Proof.
  unfold binary_round.
  destruct (shl_align m e _) as [mz ez].
  apply binary_round_aux_shape. lia.
Qed.

Lemma binary_normalize_nonneg (m e : Z) :
  0 <= m -> nonneg (binary_normalize F64.prec F64.emax m e false).
Proof.
  intros Hm. destruct m as [|p|p]; [split; reflexivity | | lia].
  apply binary_round_shape.
Qed.

(** Sums, products with a positive constant and quotients by a positive
    number keep a non-negative number non-negative. *)
Lemma add_nonneg (x y : F64.t) : nonneg x -> nonneg y -> nonneg (F64.add x y).
Proof.
  unfold nonneg.
  destruct x as [sx|sx| |sx mx ex]; destruct y as [sy|sy| |sy my ey];
    simpl; intros [Hx Hsx] [Hy Hsy]; subst; try tauto; try (split; [tauto|reflexivity]).
  apply binary_normalize_nonneg. simpl. lia.
Qed.

Lemma mul_shape (x : F64.t) (s : bool) (m : positive) (e : Z) :
  fits x ->
  fits (F64.mul x (S754_finite s m e)) /\
  F64.is_negative (F64.mul x (S754_finite s m e)) = xorb (F64.is_negative x) s.
Proof.
  destruct x as [sx|sx| |sx mx ex]; simpl; intros Hx; try tauto.
  apply binary_round_aux_shape. lia.
Qed.

Lemma mul_nonneg (x : F64.t) (m : positive) (e : Z) :
  nonneg x -> nonneg (F64.mul x (S754_finite false m e)).
Proof.
  intros [Hx Hs]. destruct (mul_shape x false m e Hx) as [Hfit Hneg].
  split; [assumption|]. rewrite Hneg, Hs. reflexivity.
Qed.

Lemma SFdiv_core_nonneg (mx my : positive) (ex ey : Z) :
  0 <= fst (fst (SFdiv_core_binary F64.prec F64.emax (Zpos mx) ex (Zpos my) ey)).
Proof.
  unfold SFdiv_core_binary.
  set (s := ex - ey - _).
  set (m' := match s with Z0 => _ | Zpos _ => _ | Zneg _ => _ end).
  assert (Hm' : 0 <= m').
  { unfold m'. destruct s; try lia. apply Z.shiftl_nonneg. lia. }
  pose proof (Z_div_mod m' (Zpos my) ltac:(lia)) as Hdiv.
  destruct (Z.div_eucl m' (Zpos my)) as [q r]. simpl.
  destruct Hdiv as [Heq Hr]. nia.
Qed.

Lemma div_nonneg (x : F64.t) (m : positive) (e : Z) :
  nonneg x -> nonneg (F64.div x (S754_finite false m e)).
Proof.
  unfold nonneg.
  destruct x as [sx|sx| |sx mx ex]; simpl; intros [Hx Hsx]; subst;
    try tauto; try (split; [tauto|reflexivity]).
  pose proof (SFdiv_core_nonneg mx m ex e) as Hq.
  destruct (SFdiv_core_binary F64.prec F64.emax (Zpos mx) ex (Zpos m) e)
    as [[q e'] l]. simpl in Hq.
  now apply binary_round_aux_shape.
Qed.

(** [Math.max] of a non-negative number and a number is non-negative. *)
Lemma max_nonneg (a b : F64.t) : nonneg a -> fits b -> nonneg (F64.max a b).
Proof.
  unfold nonneg, F64.max.
  destruct a as [sa|sa| |sa ma ea]; simpl; intros [Ha Hsa] Hb; subst; try tauto;
    destruct b as [[|]|[|]| |[|] mb eb]; simpl in *; try tauto;
    repeat match goal with
           | |- context [if ?c then _ else _] => destruct c eqn:?
           end; simpl in *; try tauto; try discriminate; auto.
Qed.

End Binary64Closure.

Section Binary64Comparison.

Local Open Scope Z_scope.

(** [<] on two positive finite values: by exponent, then by mantissa. *)
Lemma SFltb_positive (m m' : positive) (e e' : Z) :
  SFltb (S754_finite false m e) (S754_finite false m' e') = true <->
  e < e' \/ (e = e' /\ Zpos m < Zpos m').
Proof.
  unfold SFltb, SFcompare.
  change (Pos.compare_cont Eq m m') with (Pos.compare m m').
  destruct (Z.compare_spec e e') as [Heq|Hlt|Hgt].
  - change (Zpos m < Zpos m') with (Pos.compare m m' = Lt).
    destruct (Pos.compare m m') eqn:Hc;
      split; intros Hyp; try discriminate; try reflexivity; auto;
      destruct Hyp as [Hyp|[_ Hyp]]; try lia; discriminate.
  - split; auto.
  - split; [discriminate | lia].
Qed.


Lemma iter_xO (d m : positive) : Zpos (Pos.iter xO m d) = Zpos m * 2 ^ Zpos d.
Proof.
  induction d as [|d IH] using Pos.peano_ind.
  - simpl. lia.
  - rewrite Pos.iter_succ, Pos2Z.inj_xO, IH, Pos2Z.inj_succ, Z.pow_succ_r by lia.
    lia.
Qed.

(** [1 - a] for a non-negative [a < 0.5] is non-negative. *)
Lemma sub_one_nonneg (a : F64.t) :
  nonneg a -> F64.ltb a (F64.dec 5 1) = true -> nonneg (F64.sub (F64.ofZ 1) a).
Proof.
  change (F64.dec 5 1) with (S754_finite false 4503599627370496 (-53)).
  change (F64.ofZ 1) with (S754_finite false 4503599627370496 (-52)).
  unfold nonneg, F64.ltb.
  destruct a as [sa|sa| |sa ma ea]; simpl F64.is_negative; simpl fits;
    intros [Ha Hsa] Hlt; subst; try tauto; try discriminate.
  - split; reflexivity.
  - apply SFltb_positive in Hlt.
    change (Zpos ma < 2 ^ 53) in Ha.
    assert (Hdiff : 0 <= Zpos (fst (shl_align 4503599627370496 (-52) (Z.min (-52) ea)))
                         - Zpos (fst (shl_align ma ea (Z.min (-52) ea)))).
    { assert (Hmin : Z.min (-52) ea = ea) by lia. rewrite Hmin.
      unfold shl_align. rewrite Z.sub_diag.
      destruct (ea - -52) as [|d|d] eqn:Hd; try lia.
      cbn [fst]. rewrite iter_xO.
      assert (2 ^ 1 <= 2 ^ Zpos d) by (apply pow2_le; lia).
      change (2 ^ 1) with 2 in *. lia. }
    exact (binary_normalize_nonneg _ (Z.min (-52) ea) Hdiff).
Qed.

End Binary64Comparison.

Section RealPathBinary64.

Variable E : env F64.t.

Local Open Scope list_scope.
Local Open Scope Z_scope.

(** [parseFloat(Math.min(x, 0.99).toFixed(3))] of a non-negative [x] is
    one of 0.000, 0.001, ..., 0.990. *)
Lemma toFixed3_cap (x : F64.t) :
  nonneg x ->
  exists n, 0 <= n <= 990 /\ F64.toFixed 3 (F64.min x (F64.dec 99 2)) = F64.dec n 3.
Proof.
  change (F64.dec 99 2) with (S754_finite false 8917127262193582 (-53)).
  intros [Hfit Hsign].
  destruct x as [s|s| |s m e]; simpl in Hsign; subst; try (simpl in Hfit; tauto).
  - exists 0. split; [lia | reflexivity].
  - exists 990. split; [lia | vm_compute; reflexivity].
  - change (Zpos m < 2 ^ 53) in Hfit.
    unfold F64.min. cbn [F64.is_nan orb F64.is_negative].
    destruct (SFltb (S754_finite false m e) _) eqn:Hlt;
      [|exists 990; split; [lia|];
        destruct (SFltb _ (S754_finite false m e)); vm_compute; reflexivity].
    apply SFltb_positive in Hlt.
    unfold F64.toFixed.
    assert (Hsmall : SFltb (S754_finite false m e) (F64.ofZ (10 ^ 21)) = true).
    { change (F64.ofZ (10 ^ 21)) with (S754_finite false 7629394531250000 17).
      apply SFltb_positive. lia. }
    rewrite Hsmall.
    destruct e as [|p|p]; try lia.
    unfold F64.scaled_half_up. change (10 ^ Z.of_nat 3) with 1000.
    set (n := (2 * Zpos m * 1000 + 2 ^ Zpos p) / 2 ^ (Zpos p + 1)).
    pose proof (pow2_pos (Zpos p) ltac:(lia)) as Hp.
    assert (Hpow : 2 ^ (Zpos p + 1) = 2 * 2 ^ Zpos p).
    { rewrite pow2_split by lia. change (2 ^ 1) with 2. lia. }
    assert (Hn : 0 <= n <= 990).
    { unfold n. split; [apply Z.div_pos; lia|].
      apply Z.lt_succ_r. apply Z.div_lt_upper_bound; [lia|].
      rewrite Hpow.
      destruct Hlt as [Hlt|[Heq Hlt]].
      - assert (2 ^ 54 <= 2 ^ Zpos p) by (apply pow2_le; lia). lia.
      - assert (Hp53 : p = 53%positive) by lia. subst p. lia. }
    exists n. split; [assumption|].
    destruct n as [|n|n]; [reflexivity | reflexivity | lia].
Qed.

Lemma dec_positive_literals :
  (exists m e, F64.dec 5 1 = S754_finite false m e) /\
  (exists m e, F64.dec 11 1 = S754_finite false m e).
Proof. split; do 2 eexists; vm_compute; reflexivity. Qed.

Lemma scoreItem_nonneg64 (scores : F64.t * F64.t) (item : labelScore F64.t) :
  nonneg (fst scores) -> fits (score item) ->
  nonneg (fst (scoreItem scores item)).
Proof.
  destruct scores as [n s]. unfold scoreItem. cbn [fst]. intros Hn Hitem.
  destruct (unsafeLabel _); [|destruct (safeLabel _); [|destruct (ambiguousLabel _)]];
    cbn [fst]; auto.
  - now apply max_nonneg.
  - apply max_nonneg; [assumption|].
    destruct dec_positive_literals as [(m & e & Hhalf) _].
    change (@mul F64.t _ ?a ?b) with (F64.mul a b).
    change (@dec F64.t _ 5 1%nat) with (F64.dec 5 1). rewrite Hhalf.
    now apply mul_shape.
Qed.

Lemma scoreEntry_nonneg64 (scores : F64.t * F64.t)
    (entry : string * entryValue F64.t) :
  nonneg (fst scores) -> fits (numberOrZero (snd entry)) ->
  nonneg (fst (scoreEntry scores entry)).
Proof.
  destruct scores as [n s]. unfold scoreEntry. cbn [fst]. intros Hn Hentry.
  destruct (_ || _)%bool; [|destruct (_ || _)%bool]; cbn [fst]; auto.
  now apply max_nonneg.
Qed.

Lemma fold_nonneg64 {A} (f : F64.t * F64.t -> A -> F64.t * F64.t)
    (good : A -> Prop) (l : list A) :
  (forall scores a, nonneg (fst scores) -> good a -> nonneg (fst (f scores a))) ->
  Forall good l ->
  forall scores, nonneg (fst scores) -> nonneg (fst (fold_left f l scores)).
Proof.
  intros Hf Hl. induction Hl as [|a l Ha Hl IH]; intros scores Hs; simpl; auto.
Qed.

Lemma zero_nonneg : nonneg (F64.ofZ 0).
Proof. split; reflexivity. Qed.

(** The nsfw score of a frame is never negative. *)
Lemma frameScores_nonneg64 (result : apiResult F64.t) :
  numericResult result -> nonneg (fst (frameScores result)).
Proof.
  intros Hresult. unfold frameScores.
  assert (Hraw : nonneg (fst (match result with
                           | ResultList items => fold_left scoreItem items (ofZ 0, ofZ 0)
                           | ResultObject entries => fold_left scoreEntry entries (ofZ 0, ofZ 0)
                           | ResultOther => (ofZ 0, ofZ 0)
                           | ResultBrokenList _ => (ofZ 0, ofZ 0)
                           end))).
  { destruct result as [items|entries| |readable]; simpl in Hresult.
    - apply (fold_nonneg64 scoreItem (fun item => fits (score item)));
        [apply scoreItem_nonneg64 | assumption | apply zero_nonneg].
    - apply (fold_nonneg64 scoreEntry (fun entry => fits (numberOrZero (snd entry))));
        [apply scoreEntry_nonneg64 | assumption | apply zero_nonneg].
    - apply zero_nonneg.
    - apply zero_nonneg. }
  destruct (match result with
            | ResultList _ => _ | ResultObject _ => _ | ResultOther => _
            | ResultBrokenList _ => _
            end) as [n s].
  destruct (_ && _)%bool; exact Hraw.
Qed.

Lemma apiOutcome_numeric (i : nat) (bytes : list Byte.byte)
    (result : apiResult F64.t) :
  numericAnswers E -> apiOutcome E i bytes = inr result -> numericResult result.
Proof.
  intros Hnum. unfold apiOutcome.
  destruct (post E i bytes) as [message|status data] eqn:Hpost; [discriminate|].
  destruct (_ && _)%bool; [|discriminate].
  destruct (status =? 200); [|discriminate].
  intros Heq. inversion Heq; subst. exact (Hnum _ _ _ _ Hpost).
Qed.

(** The loop keeps the running total non-negative and counts at most one
    success per frame. *)
Lemma afterFrames_invariant (frames : list frame) :
  numericAnswers E ->
  forall (st : loopState) (i : nat),
  nonneg (totalNsfwScore st) ->
  nonneg (totalNsfwScore (afterFrames E st i frames)) /\
  (apiSuccessCount (afterFrames E st i frames)
   <= apiSuccessCount st + List.length frames)%nat.
Proof.
  intros Hnum.
  induction frames as [|f rest IH]; intros st i Hst; simpl.
  - split; [assumption | lia].
  - assert (Hstep : nonneg (totalNsfwScore (afterFrame E st i f)) /\
                    (apiSuccessCount (afterFrame E st i f) <= S (apiSuccessCount st))%nat).
    { unfold afterFrame.
      destruct (apiOutcome E i (buffer f)) as [e|result] eqn:Hout; [split; auto|].
      destruct (recordFrame_cases st i result) as [Hscored|[_ Hcounted]].
      - rewrite Hscored. unfold scoreFrame. cbn [totalNsfwScore apiSuccessCount].
        split; [|lia].
        apply add_nonneg; [assumption|].
        apply frameScores_nonneg64. eapply apiOutcome_numeric; eassumption.
      - rewrite Hcounted. unfold countFrame. cbn [totalNsfwScore apiSuccessCount].
        split; [assumption | lia]. }
    destruct Hstep as [Htotal Hcount].
    destruct (IH (afterFrame E st i f) (S i) Htotal) as [Hfinal Hbound].
    split; [assumption | lia].
Qed.

Lemma count_positive_literal (c : nat) :
  (1 <= c <= 5)%nat -> exists m e, F64.ofZ (Z.of_nat c) = S754_finite false m e.
Proof.
  intros Hc.
  destruct c as [|[|[|[|[|[|c]]]]]]; try lia; do 2 eexists; vm_compute; reflexivity.
Qed.

(** The real path: the confidence is a whole number of thousandths, at
    most 990 of them. *)
Lemma decide_confidence64 (total : nat) (st : loopState) :
  nonneg (totalNsfwScore st) -> (1 <= apiSuccessCount st <= 5)%nat ->
  exists n, 0 <= n <= 990 /\
            Verdict.confidence (decide total st) = F64.dec n 3.
Proof.
  intros Htotal Hcount. unfold decide. cbn [Verdict.confidence].
  destruct (count_positive_literal _ Hcount) as (mc & ec & Hc).
  assert (Havg : nonneg (averageOf st)).
  { unfold averageOf. change (@div F64.t _ ?a ?b) with (F64.div a b).
    change (@ofZ F64.t _ ?z) with (F64.ofZ z). rewrite Hc.
    now apply div_nonneg. }
  destruct dec_positive_literals as [_ (m & e & Hscale)].
  change (@toFixed F64.t _ ?d ?x) with (F64.toFixed d x).
  unfold confidenceOf.
  change (@min F64.t _ ?a ?b) with (F64.min a b).
  change (@mul F64.t _ ?a ?b) with (F64.mul a b).
  change (@sub F64.t _ ?a ?b) with (F64.sub a b).
  change (@dec F64.t _ ?a ?b) with (F64.dec a b).
  change (@ofZ F64.t _ ?z) with (F64.ofZ z).
  destruct (isSafeOf st) eqn:Hsafe.
  - apply toFixed3_cap. rewrite Hscale. apply mul_nonneg.
    apply sub_one_nonneg; [assumption|].
    unfold isSafeOf in Hsafe. apply andb_true_iff in Hsafe. apply Hsafe.
  - apply toFixed3_cap. rewrite Hscale. now apply mul_nonneg.
Qed.

End RealPathBinary64.

Section MockBinary64.

Local Open Scope Z_scope.

Lemma Zdigits2_gt (m n : Z) : 0 <= n -> 2 ^ n <= m -> n < Zdigits2 m.
Proof.
  intros Hn Hle.
  pose proof (pow2_pos n Hn) as Hp.
  destruct (Zdigits2_bound m ltac:(lia)) as [Hlt|Hz]; [|lia].
  destruct (Z_lt_ge_dec n (Zdigits2 m)) as [|Hge]; [assumption|].
  exfalso. pose proof (Zdigits2_nonneg m).
  assert (2 ^ Zdigits2 m <= 2 ^ n) by (apply pow2_le; lia). lia.
Qed.

Lemma rounded_finite (q e1 : Z) :
  0 < q < 2 ^ 53 -> e1 <= 971 ->
  rounded false q e1 = S754_finite false (Z.to_pos q) e1.
Proof.
  intros Hq He. unfold rounded.
  destruct (Z.eqb_spec q 0); [lia|].
  destruct (Z.ltb_spec q (2 ^ 53)); [|lia].
  destruct (Z.leb_spec e1 971); [reflexivity | lia].
Qed.

(** [r * 0.3] for a draw [0 < r < 1]: zero, or a positive value at most
    one unit in the last place below 0.3. *)
Lemma draw_times_03 (mr : positive) (er : Z) :
  Zpos mr < 2 ^ 53 ->
  er < -52 \/ (er = -52 /\ Zpos mr < 2 ^ 52) ->
  (exists s, F64.mul (S754_finite false mr er)
                     (S754_finite false 5404319552844595 (-54)) = S754_zero s) \/
  (exists mP eP,
     F64.mul (S754_finite false mr er)
             (S754_finite false 5404319552844595 (-54)) = S754_finite false mP eP /\
     eP <= -54 /\ Zpos mP <= 5404319552844594 * 2 ^ (-54 - eP)).
Proof.
  intros Hfit Hlt.
  unfold F64.mul, SFmul. cbn [xorb].
  set (M := Zpos (mr * 5404319552844595)).
  assert (HM : M = Zpos mr * 5404319552844595) by apply Pos2Z.inj_mul.
  clearbody M.
  set (j := - er).
  set (u := 2 ^ (j - 52)).
  assert (Hj : 52 <= j) by (unfold j; lia).
  assert (Hu : 1 <= u).
  { unfold u. change 1 with (2 ^ 0). apply pow2_le. lia. }
  assert (Hpowj : 2 ^ j = 4503599627370496 * u).
  { unfold u. replace j with (52 + (j - 52)) at 1 by lia.
    rewrite pow2_split by lia. reflexivity. }
  assert (Hr : 2 * Zpos mr <= 9007199254740991 * u).
  { destruct Hlt as [Hlt|[Heq Hlt]].
    - assert (2 ^ 1 <= u) by (unfold u; apply pow2_le; unfold j; lia).
      change (2 ^ 1) with 2 in *. change (2 ^ 53) with 9007199254740992 in Hfit. lia.
    - change (2 ^ 52) with 4503599627370496 in Hlt. lia. }
  change (2 ^ 53) with 9007199254740992 in Hfit.
  assert (He : er + -54 = - j - 54) by (unfold j; lia). rewrite He.
  pose proof (binary_round_aux_spec false M (- j - 54) loc_Exact ltac:(lia)) as Hspec.
  cbv zeta in Hspec.
  set (d := Zdigits2 M) in *.
  assert (Hd : d <= j + 53).
  { apply Zdigits2_le_of_lt; [lia | lia |].
    rewrite pow2_split by lia. rewrite Hpowj.
    change (2 ^ 53) with 9007199254740992. lia. }
  rewrite fexp64_eq in Hspec.
  set (e1' := Z.max (d + (- j - 54) - 53) (-1074)) in *.
  assert (He1' : e1' <= -54) by (unfold e1'; lia).
  set (k := e1' - (- j - 54)) in *.
  destruct Hspec as (q' & Hrange & Hexact & Hdown & Hq & Hq0 & _ & Heq).
  rewrite Heq. clear Heq.
  change (2 ^ 53) with 9007199254740992 in Hq.
  destruct (Z.ltb_spec 0 k) as [Hk|Hk].
  - (* some bits are shifted out *)
    replace (- j - 54 + k) with e1' by (unfold k; lia).
    destruct (Z_le_gt_dec e1' (-55)) as [Hlow|Hhigh].
    + (* the result is below 0.25 *)
      assert (Hscale : 2 ^ 1 <= 2 ^ (-54 - e1')) by (apply pow2_le; lia).
      change (2 ^ 1) with 2 in Hscale.
      destruct (Z.eq_dec q' 0) as [->|Hq'0]; [left; exists false; reflexivity|].
      right.
      destruct (Z.eq_dec q' 9007199254740992) as [->|Hq'max].
      * exists (Z.to_pos (2 ^ 52)), (e1' + 1).
        split; [|split; [lia|]].
        { unfold rounded. simpl Z.eqb. simpl Z.ltb.
          destruct (Z.leb_spec (e1' + 1) 971); [reflexivity | lia]. }
        { assert (1 <= 2 ^ (-54 - (e1' + 1))).
          { change 1 with (2 ^ 0). apply pow2_le. lia. }
          change (Zpos (Z.to_pos (2 ^ 52))) with 4503599627370496. nia. }
      * exists (Z.to_pos q'), e1'.
        split; [apply rounded_finite; [change (2 ^ 53) with 9007199254740992|]; lia|].
        split; [lia|]. rewrite Z2Pos.id by lia. nia.
    + (* the last place is 2^-54 *)
      assert (He1 : e1' = -54) by lia.
      assert (Hkj : k = j) by (unfold k; lia).
      rewrite Hkj in *. rewrite Hpowj in *.
      pose proof (Z.div_mod M (4503599627370496 * u) ltac:(lia)) as Hdm.
      pose proof (Z.mod_pos_bound M (4503599627370496 * u) ltac:(lia)) as Hrem.
      set (q := M / (4503599627370496 * u)) in *.
      set (rem := M mod (4503599627370496 * u)) in *.
      assert (Hqle : q <= 5404319552844594) by nia.
      assert (Hq' : q' <= 5404319552844594).
      { destruct (Z.eq_dec q 5404319552844594) as [Hqeq|Hqne]; [|lia].
        rewrite (Hdown ltac:(lia)); [lia|]. nia. }
      destruct (Z.eq_dec q' 0) as [->|Hq'0]; [left; exists false; reflexivity|].
      right. exists (Z.to_pos q'), e1'.
      split; [apply rounded_finite; [change (2 ^ 53) with 9007199254740992|]; lia|].
      split; [lia|]. rewrite Z2Pos.id by lia. rewrite He1.
      change (2 ^ (-54 - -54)) with 1. lia.
  - (* the product is exact *)
    rewrite (Hexact eq_refl Hk).
    right. exists (Z.to_pos M), (- j - 54).
    split; [apply rounded_finite; [change (2 ^ 53) with 9007199254740992|]; lia|].
    split; [lia|]. rewrite Z2Pos.id by lia.
    replace (-54 - (- j - 54)) with j by lia. rewrite Hpowj. lia.
Qed.

(** Adding 0.7 to such a product gives a value from 0.7 up to the largest
    number below 1. *)
Lemma plus_07 (mP : positive) (eP : Z) :
  eP <= -54 -> Zpos mP <= 5404319552844594 * 2 ^ (-54 - eP) ->
  exists m, (6305039478318694 <= Zpos m < 2 ^ 53) /\
    F64.add (S754_finite false mP eP) (S754_finite false 6305039478318694 (-53))
    = S754_finite false m (-53).
Proof.
  intros HeP HmP.
  set (d := -53 - eP).
  assert (Hd : 1 <= d) by (unfold d; lia).
  set (v := 2 ^ (d - 1)).
  assert (Hv : 1 <= v).
  { unfold v. change 1 with (2 ^ 0). apply pow2_le. lia. }
  assert (Hpowd : 2 ^ d = 2 * v).
  { unfold v. replace d with (1 + (d - 1)) at 1 by lia.
    rewrite pow2_split by lia. reflexivity. }
  replace (-54 - eP) with (d - 1) in HmP by (unfold d; lia). fold v in HmP.
  assert (Hsum : exists S : positive,
             Zpos S = Zpos mP + 6305039478318694 * (2 * v) /\
             F64.add (S754_finite false mP eP)
                     (S754_finite false 6305039478318694 (-53))
             = binary_round F64.prec F64.emax false S eP).
  { unfold F64.add, SFadd.
    assert (Hmin : Z.min eP (-53) = eP) by lia. rewrite Hmin.
    unfold shl_align. rewrite Z.sub_diag.
    destruct (eP - -53) as [|n|n] eqn:Hn; try lia.
    cbn [fst cond_Zopp].
    exists (mP + Pos.iter xO 6305039478318694 n)%positive.
    split; [|reflexivity].
    rewrite Pos2Z.inj_add, iter_xO.
    replace (Zpos n) with d by (unfold d; lia). rewrite Hpowd. reflexivity. }
  destruct Hsum as (S & HS & ->).
  assert (Hlow : 2 ^ (52 + d) <= Zpos S).
  { rewrite pow2_split, Hpowd by lia. change (2 ^ 52) with 4503599627370496. lia. }
  assert (Hhigh : Zpos S < 2 ^ (53 + d)).
  { rewrite pow2_split, Hpowd by lia. change (2 ^ 53) with 9007199254740992. lia. }
  assert (Hdigits : Zdigits2 (Zpos S) = 53 + d).
  { pose proof (Zdigits2_gt (Zpos S) (52 + d) ltac:(lia) Hlow).
    pose proof (Zdigits2_le_of_lt (Zpos S) (53 + d) ltac:(lia) ltac:(lia) Hhigh).
    lia. }
  assert (Hfexp : fexp F64.prec F64.emax (Zdigits2 (Zpos S) + eP) = -53).
  { rewrite Hdigits, fexp64_eq. unfold d. lia. }
  unfold binary_round.
  change (Zpos (digits2_pos S)) with (Zdigits2 (Zpos S)). rewrite Hfexp.
  unfold shl_align.
  destruct (-53 - eP) as [|n|n] eqn:Hn; try (unfold d in Hd; lia).
  pose proof (binary_round_aux_spec false (Zpos S) eP loc_Exact ltac:(lia)) as Hspec.
  cbv zeta in Hspec. rewrite Hfexp in Hspec.
  rewrite Hn in Hspec. fold d in Hspec.
  assert (Hpos : (0 <? d) = true) by (apply Z.ltb_lt; lia).
  rewrite Hpos, Hpowd in Hspec.
  destruct Hspec as (q' & Hrange & _ & Hdown & _ & _ & _ & ->).
  pose proof (Z.div_mod (Zpos S) (2 * v) ltac:(lia)) as Hdm.
  pose proof (Z.mod_pos_bound (Zpos S) (2 * v) ltac:(lia)) as Hrem.
  set (q := Zpos S / (2 * v)) in *.
  set (rem := Zpos S mod (2 * v)) in *.
  assert (Hqlo : 6305039478318694 <= q) by nia.
  assert (Hqhi : q <= 9007199254740991) by nia.
  assert (Hq' : q' <= 9007199254740991).
  { destruct (Z.eq_dec q 9007199254740991) as [Hqeq|Hqne]; [|lia].
    rewrite (Hdown ltac:(lia)); [lia|]. nia. }
  exists (Z.to_pos q').
  rewrite Z2Pos.id by lia. change (2 ^ 53) with 9007199254740992.
  split; [lia|].
  replace (eP + d) with (-53) by (unfold d; lia).
  apply rounded_finite; [change (2 ^ 53) with 9007199254740992|]; lia.
Qed.

End MockBinary64.

Section ConfidenceBinary64.

Variable E : env F64.t.

Local Open Scope list_scope.
Local Open Scope Z_scope.

(** [r * 0.3 + 0.7] for a draw [r]: a value [m * 2^-53] with [m] from
    the mantissa of 0.7 up to [2^53 - 1]. *)
Lemma draw_confidence (r : F64.t) :
  unitDraw r ->
  exists m, (6305039478318694 <= Zpos m < 2 ^ 53) /\
    F64.add (F64.mul r (F64.dec 3 1)) (F64.dec 7 1) = S754_finite false m (-53).
Proof.
  intros (Hvalid & Hlow & Hhigh).
  assert (H03 : F64.dec 3 1 = S754_finite false 5404319552844595 (-54))
    by (vm_compute; reflexivity).
  assert (H07 : F64.dec 7 1 = S754_finite false 6305039478318694 (-53))
    by (vm_compute; reflexivity).
  assert (H1 : F64.ofZ 1 = S754_finite false 4503599627370496 (-52))
    by (vm_compute; reflexivity).
  rewrite H03, H07. rewrite H1 in Hhigh.
  assert (Hbase : exists m, (6305039478318694 <= Zpos m < 2 ^ 53) /\
            S754_finite false 6305039478318694 (-53) = S754_finite false m (-53)).
  { exists 6305039478318694%positive. split; [|reflexivity].
    change (2 ^ 53) with 9007199254740992. lia. }
  destruct r as [s|s| |s mr er].
  - destruct s; exact Hbase.
  - destruct s; discriminate.
  - discriminate.
  - destruct s; [discriminate|].
    pose proof (valid_fits _ Hvalid eq_refl) as Hfit. change (Zpos mr < 2 ^ 53) in Hfit.
    apply SFltb_positive in Hhigh.
    destruct (draw_times_03 mr er Hfit Hhigh) as [[s ->]|(mP & eP & -> & HeP & HmP)].
    + destruct s; exact Hbase.
    + now apply plus_07.
Qed.

Lemma SFleb_same_exponent (m m' : positive) (e : Z) :
  Zpos m <= Zpos m' ->
  SFleb (S754_finite false m e) (S754_finite false m' e) = true.
Proof.
  intros Hle. unfold SFleb, SFcompare. rewrite Z.compare_refl.
  change (Pos.compare_cont Eq m m') with (Pos.compare m m').
  change (Zpos m <= Zpos m') with (Pos.compare m m' <> Gt) in Hle.
  destruct (Pos.compare m m'); try reflexivity. now elim Hle.
Qed.

(** The mock: the confidence lies in [[0.7, 1.0)]. *)
Lemma mock_confidence64 :
  unitDraw (random E 1) ->
  F64.leb (dec 7 1) (Verdict.confidence (mockVerdict E)) = true /\
  ltb (Verdict.confidence (mockVerdict E)) (ofZ 1) = true.
Proof.
  intros Hdraw. unfold mockVerdict. cbn [Verdict.confidence].
  destruct (draw_confidence _ Hdraw) as (m & Hm & Heq).
  change (@add F64.t _ ?a ?b) with (F64.add a b).
  change (@mul F64.t _ ?a ?b) with (F64.mul a b).
  change (@dec F64.t _ ?a ?b) with (F64.dec a b).
  change (@ltb F64.t _ ?a ?b) with (SFltb a b).
  change (@ofZ F64.t _ ?a) with (F64.ofZ a).
  rewrite Heq.
  assert (H07 : F64.dec 7 1 = S754_finite false 6305039478318694 (-53))
    by (vm_compute; reflexivity).
  assert (H1 : F64.ofZ 1 = S754_finite false 4503599627370496 (-52))
    by (vm_compute; reflexivity).
  rewrite H07, H1. split.
  - apply SFleb_same_exponent. lia.
  - apply SFltb_positive. lia.
Qed.

(** Every whole number of thousandths up to 990 lies in [[0, 0.99]]. *)
Lemma thousandths_bounds (n : Z) :
  0 <= n <= 990 ->
  F64.leb (F64.ofZ 0) (F64.dec n 3) = true /\
  F64.leb (F64.dec n 3) (F64.dec 99 2) = true.
Proof.
  intros Hn.
  assert (Hall : forallb (fun k => F64.leb (F64.ofZ 0) (F64.dec (Z.of_nat k) 3) &&
                                   F64.leb (F64.dec (Z.of_nat k) 3) (F64.dec 99 2))
                         (List.seq 0 991) = true)
    by (vm_compute; reflexivity).
  rewrite forallb_forall in Hall.
  specialize (Hall (Z.to_nat n)).
  rewrite Z2Nat.id in Hall by lia.
  apply andb_true_iff. apply Hall. apply in_seq. lia.
Qed.

Lemma loopEnd_invariant (frames : list frame) :
  numericAnswers E ->
  nonneg (totalNsfwScore (loopEnd E frames)) /\
  (apiSuccessCount (loopEnd E frames) <= List.length frames)%nat.
Proof.
  intros Hnum. unfold loopEnd.
  assert (Hstart : nonneg (totalNsfwScore (loopStart (num := F64.t))))
    by (split; reflexivity).
  destruct (afterFrames_invariant E frames Hnum loopStart 0 Hstart)
    as [Htotal Hcount].
  split; [assumption | exact Hcount].
Qed.

(** The real path: the confidence is a whole number of thousandths within
    [[0, 0.99]]. *)
Lemma classified_confidence64 (frames : list frame) :
  numericAnswers E -> routeOf E = Classified frames ->
  exists n, 0 <= n <= 990 /\
    Verdict.confidence (decide (List.length frames) (loopEnd E frames)) = dec n 3 /\
    F64.leb (ofZ 0)
      (Verdict.confidence (decide (List.length frames) (loopEnd E frames))) = true /\
    F64.leb (Verdict.confidence (decide (List.length frames) (loopEnd E frames)))
      (dec 99 2) = true.
Proof.
  intros Hnum Hroute.
  pose proof (classified_at_most_five E frames Hroute) as Hfive.
  destruct (loopEnd_invariant frames Hnum) as [Htotal Hcount].
  assert (Hsome : apiSuccessCount (loopEnd E frames) <> 0%nat).
  { unfold routeOf in Hroute.
    destruct (truthy (apiKey E)); [|discriminate].
    destruct (extractOutcome E 5) as [e|fs]; [discriminate|].
    destruct (Nat.eqb_spec (apiSuccessCount (loopEnd E fs)) 0);
      [discriminate|]. inversion Hroute; subst. assumption. }
  destruct (decide_confidence64 (List.length frames) (loopEnd E frames) Htotal
              ltac:(lia)) as (n & Hn & Heq).
  exists n. split; [assumption|]. split; [exact Heq|].
  rewrite Heq. now apply thousandths_bounds.
Qed.

End ConfidenceBinary64.

(** C1 (amended). In binary64, with [Math.random()] drawing from
    [[0, 1)] and the classifier's scores being numbers: the confidence of
    a verdict of the real classification path (the one that carries
    [details]) is a whole number of thousandths within [[0, 0.99]]; the
    confidence of a verdict of the mock classifier, called directly or as
    the fallback, lies in [[0.7, 1.0)], so it can exceed 0.99. *)
Theorem confidence_within_bounds_real_and_mock
    (E : env F64.t) (w w' : world F64.t) (v : Verdict.t F64.t) :
  unitDraw (random E 1) -> numericAnswers E ->
  (analyzeSensitivityMock E w = (Fulfilled v, w') ->
   F64.leb (dec 7 1) (Verdict.confidence v) = true /\
   ltb (Verdict.confidence v) (ofZ 1) = true) /\
  (analyzeSensitivity E w = (Fulfilled v, w') ->
   (Verdict.details v = None <-> v = mockVerdict E) /\
   (Verdict.details v <> None ->
    (exists n, (0 <= n <= 990)%Z /\ Verdict.confidence v = dec n 3) /\
    F64.leb (ofZ 0) (Verdict.confidence v) = true /\
    F64.leb (Verdict.confidence v) (dec 99 2) = true) /\
   (Verdict.details v = None ->
    F64.leb (dec 7 1) (Verdict.confidence v) = true /\
    ltb (Verdict.confidence v) (ofZ 1) = true)).
Proof.
  intros Hdraw Hnum. split.
  - rewrite mock_run. intros Hrun. inversion Hrun; subst.
    now apply mock_confidence64.
  - rewrite analyzeSensitivity_run. intros Hrun. inversion Hrun; subst. clear Hrun.
    unfold sensitivityVerdict.
    destruct (routeOf E) as [|error|frames|frames] eqn:Hroute;
      try (split; [split; [reflexivity | reflexivity ]
                  | split; [intros Hd; exfalso; apply Hd; reflexivity
                           | intros _; now apply mock_confidence64]]).
    split; [split; intros Hd; [discriminate Hd|] | split].
    + exfalso. unfold mockVerdict in Hd.
      apply (f_equal Verdict.details) in Hd. discriminate Hd.
    + intros _.
      destruct (classified_confidence64 E frames Hnum Hroute)
        as (n & Hn & Heq & Hlo & Hhi).
      split; [exists n; split; assumption | split; assumption].
    + intros Hd. discriminate Hd.
Qed.

Lemma confidence_within_bounds_witness :
  F64.leb (ofZ 0) (Verdict.confidence (sensitivityVerdict Sample.allCalm)) = true /\
  F64.leb (Verdict.confidence (sensitivityVerdict Sample.allCalm)) (dec 99 2) = true.
Proof.
  destruct (confidence_within_bounds_real_and_mock
              Sample.allCalm Sample.start
              (snd (analyzeSensitivity Sample.allCalm Sample.start))
              (sensitivityVerdict Sample.allCalm)) as [_ Hreal].
  - repeat split; vm_compute; reflexivity.
  - intros i bytes status data Hpost. inversion Hpost; subst.
    repeat constructor; vm_compute; reflexivity.
  - destruct Hreal as (_ & Hbounds & _); [vm_compute; reflexivity|].
    apply Hbounds. vm_compute. discriminate.
Defined.

(** The scores have to be numbers: an item whose [score] is missing makes
    [Math.max] return NaN, and NaN is then the confidence of a [flagged]
    verdict. *)
Lemma missing_score_gives_nan_confidence :
  let answer : httpOutcome F64.t :=
    HttpResponse 200 (ResultList [{| label := Some "nsfw"; score := S754_nan |}]) in
  let E : env F64.t :=
    Sample.make (Some "hf_key") (inr (Sample.report (Some "30000/1001")))
      Sample.fiveFrames (fun _ => answer) (dec 5 1) (dec 5 1) in
  Verdict.confidence (sensitivityVerdict E) = S754_nan /\
  Verdict.sensitivityFlag (sensitivityVerdict E) = flagged /\
  Verdict.details (sensitivityVerdict E) <> None.
Proof.
  intros answer E. split; [|split].
  - vm_compute. reflexivity.
  - vm_compute. reflexivity.
  - vm_compute. discriminate.
Qed.

(** C1, as stated, fails on the mock: with [Math.random()] returning
    0.999 the mock's confidence is 0.9997 > 0.99. *)
Lemma mock_confidence_exceeds_bound :
  exists (v : Verdict.t F64.t) (w' : world F64.t),
    analyzeSensitivity Sample.noKey Sample.start = (Fulfilled v, w') /\
    analyzeSensitivityMock Sample.noKey Sample.start = (Fulfilled v, w') /\
    ltb (dec 99 2) (Verdict.confidence v) = true /\
    In (Emit (CompleteEvent
                (completionPayload v
                   {| Metadata.duration := dec 125 1;
                      Metadata.width := Some 1920%Z;
                      Metadata.height := Some 1080%Z;
                      Metadata.fps := div (ofZ 30000) (ofZ 1001);
                      Metadata.bitrate := Some 800000%Z;
                      Metadata.codec := Some "h264" |})))
       (trace (snd (processVideo Sample.noKey Sample.start))).
Proof.
  exists (mockVerdict Sample.noKey),
         (snd (analyzeSensitivityMock Sample.noKey Sample.start)).
  split; [reflexivity|]. split; [reflexivity|]. split; [reflexivity|].
  vm_compute. repeat (try (left; reflexivity); right).
Qed.

(** In binary64 the mock's confidence at the two extreme draws of
    [Math.random()], 0 and the largest number below 1, is 0.7 and
    0.9999999999999999: within [[0.7, 1.0)] as over the exact numbers. *)
Lemma mock_confidence_at_extreme_draws :
  let conf (r : F64.t) := F64.add (F64.mul r (dec 3 1)) (dec 7 1) in
  conf (ofZ 0) = dec 7 1 /\
  conf (S754_finite false 9007199254740991 (-53)) =
    S754_finite false 9007199254740991 (-53) /\
  ltb (S754_finite false 9007199254740991 (-53)) (ofZ 1 : F64.t) = true.
Proof. repeat split; vm_compute; reflexivity. Qed.

(* --------------------------------------------------------------------- *)
(** ** 13.5 The fallback to the mock *)
(* --------------------------------------------------------------------- *)




(* --------------------------------------------------------------------- *)
(** ** 13.6 Progress and terminal events *)
(* --------------------------------------------------------------------- *)

Section ProgressOrder.

Context {num : Type} `{JsNumber num}.
Variable E : env num.

Local Open Scope list_scope.
Local Open Scope Z_scope.

Lemma progressValues_app (tr1 tr2 : list (effect num)) :
  progressValues (tr1 ++ tr2) = progressValues tr1 ++ progressValues tr2.
Proof.
  induction tr1 as [|[[p st|c|e]|u] tr1 IH]; simpl; auto. now rewrite IH.
Qed.

Lemma terminalEvents_app (tr1 tr2 : list (effect num)) :
  terminalEvents (tr1 ++ tr2) = terminalEvents tr1 ++ terminalEvents tr2.
Proof. apply filter_app. Qed.

Lemma terminalEvents_failTrace (error : string) :
  terminalEvents (failTrace E error) =
  match storeRejects E (toFailed error) with
  | Some _ => []
  | None => [Emit (ErrorEvent error)]
  end.
Proof. unfold failTrace. destruct (storeRejects E (toFailed error)); reflexivity. Qed.

(** The terminal events of a run: the completion when the completion
    update is accepted, the failure when the [catch] block's update is
    accepted, never both. *)
Lemma terminalEvents_runTrace :
  terminalEvents (runTrace E) =
  match storeRejects E toProcessing with
  | Some storeError => terminalEvents (failTrace E storeError)
  | None =>
      match probeOutcome E with
      | Fulfilled metadata =>
          match storeRejects E (toCompleted E (sensitivityVerdict E) metadata) with
          | Some storeError => terminalEvents (failTrace E storeError)
          | None =>
              [Emit (CompleteEvent
                       (completionPayload (sensitivityVerdict E) metadata))]
          end
      | Rejected error => terminalEvents (failTrace E error)
      | Pending => []
      end
  end.
Proof.
  unfold runTrace. destruct (storeRejects E toProcessing); [reflexivity|].
  rewrite terminalEvents_app.
  destruct (probeOutcome E) as [m|e|]; simpl; auto.
  rewrite terminalEvents_app,
    (terminal_progress_only _ (sensitivityTrace_progress E)).
  unfold finishTrace. simpl.
  destruct (storeRejects E (toCompleted E (sensitivityVerdict E) m)); reflexivity.
Qed.

(** With a store that accepts the updates, a settled run broadcasts
    exactly one terminal event. *)
Lemma one_terminal_event :
  (forall u, storeRejects E u = None) ->
  terminalEvents (runTrace E) =
  match probeOutcome E with
  | Fulfilled metadata =>
      [Emit (CompleteEvent (completionPayload (sensitivityVerdict E) metadata))]
  | Rejected error => [Emit (ErrorEvent error)]
  | Pending => []
  end.
Proof.
  intros Hstore. rewrite terminalEvents_runTrace, Hstore.
  destruct (probeOutcome E) as [m|e|]; rewrite ?terminalEvents_failTrace, ?Hstore;
    reflexivity.
Qed.

Lemma nondecreasing_ends (a b : Z) (between rest : list Z) :
  nondecreasing (a :: between ++ b :: rest) = true -> a <= b.
Proof.
  revert a. induction between as [|p between IH]; intros a; simpl.
  - intros Hs. apply andb_true_iff in Hs. destruct Hs as [Hab _].
    now apply Z.leb_le.
  - intros Hs. apply andb_true_iff in Hs. destruct Hs as [Hap Hrest].
    apply Z.leb_le in Hap. specialize (IH p Hrest). lia.
Qed.

(** Whenever the mock runs inside [processVideo], the progress sequence
    goes back from 20 (or more) to 10. *)
Lemma mock_route_regresses (metadata : Metadata.t num) :
  storeRejects E toProcessing = None ->
  probeOutcome E = Fulfilled metadata ->
  (forall frames, routeOf E <> Classified frames) ->
  nondecreasing (progressValues (runTrace E)) = false.
Proof.
  intros Hstore Hprobe Hroute.
  destruct (nondecreasing (progressValues (runTrace E))) eqn:Hs; [|reflexivity].
  exfalso. unfold runTrace in Hs. rewrite Hstore, Hprobe in Hs.
  assert (Hmock : exists before, sensitivityTrace E = before ++ mockTrace).
  { unfold sensitivityTrace. destruct (routeOf E) as [|e|fs|fs].
    - now exists [].
    - now exists (extractTrace E 5).
    - exists (extractTrace E 5 ++ framesTrace fs). now rewrite app_assoc.
    - now destruct (Hroute fs). }
  destruct Hmock as [before Hmock]. rewrite Hmock in Hs.
  assert (Hvalues : exists rest,
    progressValues (startTrace ++ (before ++ mockTrace) ++ finishTrace E metadata) =
    0 :: 20 :: progressValues before ++ 10 :: rest).
  { exists ([20; 30; 40; 50; 60; 70; 80; 90; 100] ++
            progressValues (finishTrace E metadata)).
    rewrite !progressValues_app. simpl. rewrite <- app_assoc. reflexivity. }
  destruct Hvalues as [rest Hvalues]. rewrite Hvalues in Hs.
  change (nondecreasing (0 :: 20 :: ?l)) with
    ((0 <=? 20) && nondecreasing (20 :: l)) in Hs.
  apply andb_true_iff in Hs. destruct Hs as [_ Hs].
  apply nondecreasing_ends in Hs. lia.
Qed.

End ProgressOrder.

(** C2, evaluated on the path the claim names: five frames extracted,
    every classification fails, the mock takes over.  The loop has
    broadcast 42 to 90 when the mock starts again at 10; the run still ends
    with exactly one terminal event, the completion. *)
Theorem progress_regresses_when_mock_follows_frame_loop :
  progressValues (trace (snd (processVideo (num := F64.t)
                                 Sample.allCallsFail Sample.start))) =
    [0; 20; 25; 42; 54; 66; 78; 90;
     10; 20; 30; 40; 50; 60; 70; 80; 90; 100; 100]%Z /\
  nondecreasing
    (progressValues (trace (snd (processVideo (num := F64.t)
                                   Sample.allCallsFail Sample.start)))) = false /\
  progressValues (trace (snd (processVideo (num := F64.t)
                                 Sample.noKey Sample.start))) =
    [0; 20; 10; 20; 30; 40; 50; 60; 70; 80; 90; 100; 100]%Z /\
  List.length
    (terminalEvents (trace (snd (processVideo (num := F64.t)
                                   Sample.allCallsFail Sample.start)))) = 1%nat.
Proof. repeat split; vm_compute; reflexivity. Qed.

(** When the store rejects the failure update as well, the run rejects
    without any terminal event. *)
Lemma store_down_no_terminal_event :
  fst (processVideo (num := F64.t) Sample.storeDown Sample.start) =
    Rejected "MongoNetworkError" /\
  trace (snd (processVideo (num := F64.t) Sample.storeDown Sample.start)) = [].
Proof. split; vm_compute; reflexivity. Qed.

(* --------------------------------------------------------------------- *)
(** ** 13.7 Normalisation of a flat mapping *)
(* --------------------------------------------------------------------- *)

(** The flat-mapping branch leaves the scores untouched on every label of
    [listOnlyLabels]. *)
Lemma scoreEntry_skips_listOnlyLabels {num} `{JsNumber num}
    (scores : num * num) (l : string) (v : entryValue num) :
  In l listOnlyLabels -> scoreEntry scores (l, v) = scores.
Proof.
  intros Hin. destruct scores as [n s].
  repeat (destruct Hin as [Hl|Hin]; [subst l; reflexivity|]).
  destruct Hin.
Qed.

(** C7, evaluated: the same label and score, [porn: 0.9], is scored 0.9
    when it arrives in a list of pairs and 0 when it arrives in a flat
    mapping, where the frame then gets the assume-safe default; with
    every frame answered so, the list form is [flagged] and the flat form
    [safe].  The same holds for the ambiguous label [bikini]. *)
Theorem flat_mapping_ignores_most_of_the_vocabulary :
  let porn := (dec 9 1 : F64.t) in
  frameScores (ResultList [{| label := Some "porn"; score := porn |}]) =
    (dec 9 1, ofZ 0) /\
  frameScores (ResultObject [("porn", NumberValue porn)]) =
    (ofZ 0, dec 95 2) /\
  frameScores (ResultList [{| label := Some "bikini"; score := porn |}]) =
    (mul (dec 9 1) (dec 5 1), ofZ 0) /\
  frameScores (ResultObject [("bikini", NumberValue porn)]) =
    (ofZ 0, dec 95 2) /\
  Verdict.sensitivityFlag
    (sensitivityVerdict
       (Sample.make (Some "hf_key") (inr (Sample.report (Some "30000/1001")))
          Sample.fiveFrames
          (fun _ => HttpResponse 200
                      (ResultList [{| label := Some "porn"; score := porn |}]))
          (dec 5 1) (dec 5 1))) = flagged /\
  Verdict.sensitivityFlag
    (sensitivityVerdict
       (Sample.make (Some "hf_key") (inr (Sample.report (Some "30000/1001")))
          Sample.fiveFrames
          (fun _ => HttpResponse 200 (ResultObject [("porn", NumberValue porn)]))
          (dec 5 1) (dec 5 1))) = safe.
Proof. repeat split; vm_compute; reflexivity. Qed.

(* --------------------------------------------------------------------- *)
(** ** 13.8 A single classified frame *)
(* --------------------------------------------------------------------- *)

Section SingleFrame.

Context {num : Type} `{JsNumber num}.
Variable E : env num.

Local Open Scope list_scope.

(** Frames whose calls all fail leave the accumulators as they are. *)
Lemma afterFrames_all_fail (frames : list frame) :
  forall (st : loopState) (i : nat),
  (forall k f, nth_error frames k = Some f ->
     exists error, apiOutcome E (i + k) (buffer f) = inl error) ->
  afterFrames E st i frames = st.
Proof.
  induction frames as [|f rest IH]; intros st i Hfail; simpl; auto.
  unfold afterFrame.
  destruct (Hfail 0%nat f eq_refl) as [error Herr].
  rewrite Nat.add_0_r in Herr. rewrite Herr.
  apply IH. intros k f' Hk.
  destruct (Hfail (S k) f' Hk) as [error' Herr'].
  exists error'. replace (S i + k)%nat with (i + S k)%nat by lia. exact Herr'.
Qed.

(** With exactly one successful call, the loop ends in the state recorded
    for that frame alone. *)
Lemma loopEnd_single (before after : list frame) (f : frame)
    (result : apiResult num) :
  apiOutcome E (List.length before) (buffer f) = inr result ->
  (forall k f', nth_error (before ++ f :: after) k = Some f' ->
     k <> List.length before ->
     exists error, apiOutcome E k (buffer f') = inl error) ->
  loopEnd E (before ++ f :: after) =
  recordFrame loopStart (List.length before) result.
Proof.
  intros Hhit Hmiss. unfold loopEnd.
  assert (Hsplit : forall st i l1 l2,
            afterFrames E st i (l1 ++ l2) =
            afterFrames E (afterFrames E st i l1) (i + List.length l1) l2).
  { intros st i l1. revert st i.
    induction l1 as [|x l1 IH]; intros st i l2; simpl.
    - now rewrite Nat.add_0_r.
    - rewrite IH. f_equal. lia. }
  rewrite Hsplit. simpl.
  rewrite (afterFrames_all_fail before).
  - unfold afterFrame at 1. rewrite Hhit.
    apply afterFrames_all_fail. intros k f' Hk.
    apply (Hmiss (S (List.length before + k))); [|lia].
    rewrite nth_error_app2 by lia.
    replace (S (List.length before + k) - List.length before)%nat
      with (S k) by lia.
    exact Hk.
  - intros k f' Hk. simpl.
    assert (Hlt : (k < List.length before)%nat).
    { apply nth_error_Some. congruence. }
    apply (Hmiss k); [|lia]. now rewrite nth_error_app1.
Qed.

End SingleFrame.



(* --------------------------------------------------------------------- *)
(** ** 13.9 The frame rate *)
(* --------------------------------------------------------------------- *)

Section FrameRate.

Local Open Scope string_scope.

Lemma decimalDigits_allDigits (s : string) :
  forall acc v, decimalDigits acc s = Some v -> allDigits s = true.
Proof.
  induction s as [|c s IH]; intros acc v; simpl; auto.
  destruct (digitValue c) as [d|]; [apply IH | discriminate].
Qed.

Lemma decimalLiteral_allDigits (s : string) (n : Z) :
  decimalLiteral s = Some n -> allDigits s = true /\ s <> EmptyString.
Proof.
  destruct s as [|c s]; simpl; [discriminate|].
  destruct (digitValue c) as [d|] eqn:Hc; [|discriminate].
  intros Hlit. split; [|discriminate].
  destruct d as [|p|p].
  - destruct s; [reflexivity | discriminate].
  - eapply decimalDigits_allDigits; eassumption.
  - eapply decimalDigits_allDigits; eassumption.
Qed.

Lemma digit_is_not_slash (c : ascii) (d : Z) :
  digitValue c = Some d -> Ascii.eqb c "/" = false.
Proof.
  intros Hd. destruct (Ascii.eqb_spec c "/") as [Heq|]; [|reflexivity].
  subst c. discriminate Hd.
Qed.

Lemma splitSlash_digits (a b : string) :
  allDigits a = true -> splitSlash (a ++ String "/" b) = Some (a, b).
Proof.
  induction a as [|c a IH]; simpl; [reflexivity|].
  destruct (digitValue c) as [d|] eqn:Hc; [|discriminate].
  intros Ha. rewrite (digit_is_not_slash c d Hc), (IH Ha). reflexivity.
Qed.

Lemma decimalDigits_slash (a b : string) :
  forall acc, allDigits a = true -> decimalDigits acc (a ++ String "/" b) = None.
Proof.
  induction a as [|c a IH]; intros acc; simpl; [reflexivity|].
  destruct (digitValue c) as [d|]; [apply IH | discriminate].
Qed.

Lemma decimalLiteral_slash (a b : string) (n : Z) :
  decimalLiteral a = Some n -> decimalLiteral (a ++ String "/" b) = None.
Proof.
  destruct a as [|c a]; simpl; [discriminate|].
  destruct (digitValue c) as [d|] eqn:Hc; [|discriminate].
  destruct d as [|p|p].
  - destruct a; [reflexivity | discriminate].
  - intros Hlit. apply decimalDigits_slash.
    eapply decimalDigits_allDigits; eassumption.
  - intros Hlit. apply decimalDigits_slash.
    eapply decimalDigits_allDigits; eassumption.
Qed.

Context {num : Type} `{JsNumber num}.

(** [eval] of two decimal literals around a slash is their quotient. *)
Lemma jsEval_quotient (host : string -> completion num) (a b : string) (n d : Z) :
  decimalLiteral a = Some n -> decimalLiteral b = Some d ->
  jsEval host (a ++ "/" ++ b) = Normal (div (ofZ n) (ofZ d)).
Proof.
  intros Ha Hb. unfold jsEval. simpl append.
  rewrite (decimalLiteral_slash a b n Ha).
  destruct (decimalLiteral_allDigits a n Ha) as [Hdigits _].
  rewrite (splitSlash_digits a b Hdigits), Ha, Hb. reflexivity.
Qed.

Lemma orElse_literal (a b : string) (n : Z) :
  decimalLiteral a = Some n -> orElse (Some (a ++ "/" ++ b)) "0" = a ++ "/" ++ b.
Proof.
  intros Ha. destruct a as [|c a]; [discriminate | reflexivity].
Qed.

Lemma orElse_absent (s : option string) : truthy s = None -> orElse s "0" = "0".
Proof. unfold orElse. now intros ->. Qed.

(** C4 (amended). The frame rate is the numeric quotient of the reported
    ["numerator/denominator"] text, so ["30000/1001"] gives 30000/1001; when
    the field is absent (no video stream, no field, or an empty text) it is
    0 and the probe resolves all the same.  Nothing is said of a text that
    is present but not such a quotient. *)
Theorem fps_is_quotient_and_zero_when_absent
    (E : env num) (w : world num) (report : probeData num) :
  ffprobe E = inr report ->
  (forall (a b : string) (n d : Z),
      optBind (List.find isVideo (streams report)) r_frame_rate
        = Some (a ++ "/" ++ b) ->
      decimalLiteral a = Some n -> decimalLiteral b = Some d ->
      exists m, getVideoMetadata E w = (Fulfilled m, w) /\
                Metadata.fps m = div (ofZ n) (ofZ d)) /\
  (truthy (optBind (List.find isVideo (streams report)) r_frame_rate) = None ->
   exists m, getVideoMetadata E w = (Fulfilled m, w) /\ Metadata.fps m = ofZ 0).
Proof.
  intros Hprobe. unfold getVideoMetadata. rewrite Hprobe. split.
  - intros a b n d Hrate Ha Hb.
    rewrite Hrate, (orElse_literal a b n Ha), (jsEval_quotient _ a b n d Ha Hb).
    eexists. split; reflexivity.
  - intros Habsent. rewrite (orElse_absent _ Habsent).
    eexists. split; reflexivity.
Qed.

End FrameRate.

Lemma fps_witness :
  exists m : Metadata.t F64.t,
    getVideoMetadata Sample.noKey Sample.start = (Fulfilled m, Sample.start) /\
    Metadata.fps m = div (ofZ 30000) (ofZ 1001) /\
    ltb (dec 2997 2) (Metadata.fps m) = true /\
    ltb (Metadata.fps m) (dec 29971 3) = true.
Proof.
  destruct (fps_is_quotient_and_zero_when_absent (num := F64.t)
              Sample.noKey Sample.start (Sample.report (Some "30000/1001")))
    as [Hquotient _].
  - reflexivity.
  - destruct (Hquotient "30000" "1001" 30000%Z 1001%Z) as (m & Hrun & Hfps);
      try reflexivity.
    exists m. split; [exact Hrun|]. split; [exact Hfps|].
    rewrite Hfps. split; vm_compute; reflexivity.
Defined.

(** C4, as stated, fails on a malformed field: the text ["0/0"], which
    ffprobe reports for a stream without a frame rate, evaluates to NaN,
    not to 0; and on a text that is not a program, such as ["30000/"],
    [eval] throws inside the callback and the probe never settles. *)
Lemma malformed_rate_is_not_defaulted :
  (exists (m : Metadata.t F64.t) (w' : world F64.t),
      getVideoMetadata
        (Sample.make None (inr (Sample.report (Some "0/0"))) Sample.fiveFrames
           Sample.unreachable (dec 5 1) (dec 5 1))
        Sample.start = (Fulfilled m, w') /\
      Metadata.fps m = S754_nan /\
      eqb (Metadata.fps m) (ofZ 0) = false) /\
  fst (getVideoMetadata (num := F64.t)
         (Sample.make None (inr (Sample.report (Some "30000/"))) Sample.fiveFrames
            Sample.unreachable (dec 5 1) (dec 5 1))
         Sample.start) = Pending.
Proof.
  split; [|reflexivity].
  eexists. eexists. split; [reflexivity|]. split; reflexivity.
Qed.

(* --------------------------------------------------------------------- *)
(** ** 13.10 Concrete runs of the store properties *)
(* --------------------------------------------------------------------- *)

(** C8, as stated, fails on the transition to [failed]: when ffprobe
    fails the job is persisted as [failed] and no update of the run has
    written [processedAt]. *)
Lemma failed_transition_leaves_processedAt_unset :
  fst (processVideo (num := F64.t) Sample.probeFails Sample.start) =
    Rejected "ffprobe exited with code 1" /\
  Job.status (store (snd (processVideo (num := F64.t)
                            Sample.probeFails Sample.start))) = failed /\
  Job.processedAt (store (snd (processVideo (num := F64.t)
                                 Sample.probeFails Sample.start))) = None /\
  writes Update.processedAt
    (trace (snd (processVideo (num := F64.t)
                   Sample.probeFails Sample.start))) = [].
Proof. repeat split; vm_compute; reflexivity. Qed.

Lemma failure_persists_witness :
  Job.status (store (snd (processVideo (num := F64.t)
                            Sample.probeFails Sample.start))) = failed /\
  Job.errorMessage (store (snd (processVideo (num := F64.t)
                                  Sample.probeFails Sample.start))) =
    Some "ffprobe exited with code 1" /\
  Job.metadata (store (snd (processVideo (num := F64.t)
                              Sample.probeFails Sample.start))) = None /\
  Job.sensitivityFlag (store (snd (processVideo (num := F64.t)
                                     Sample.probeFails Sample.start))) = unrated /\
  Job.processProgress (store (snd (processVideo (num := F64.t)
                                     Sample.probeFails Sample.start))) = 0%Z.
Proof.
  destruct (failure_persists_only_status_and_error (num := F64.t)
              Sample.probeFails Sample.start
              (snd (processVideo Sample.probeFails Sample.start))
              "ffprobe exited with code 1")
    as (pre & fin & Htrace & _ & Hpre & Hfin & _ & _ & Hfailed & Hbefore &
        (Hmeta & Hflag & _)).
  - reflexivity.
  - assert (Hin : In (Persist (toFailed (num := F64.t)
                                 "ffprobe exited with code 1")) (pre ++ fin)).
    { change (pre ++ fin)%list
        with (trace (Sample.start (num := F64.t)) ++ pre ++ fin)%list.
      rewrite <- Htrace. vm_compute. right. right. right. left. reflexivity. }
    destruct (Hfailed Hin) as (_ & Hstore & Hstatus & Hmessage).
    split; [exact Hstatus|]. split; [exact Hmessage|].
    split; [exact Hmeta|]. split; [exact Hflag|].
    destruct Hbefore as (_ & _ & _ & Hprogress & _).
    rewrite Hprogress.
    assert (Hzero : forall tr : list (effect F64.t),
              (forall u, In u (updates tr) -> u = toProcessing) ->
              forall j, Job.processProgress j = 0%Z ->
              Job.processProgress (replay j tr) = 0%Z).
    { induction tr as [|[e|u] tr IH]; intros Hall j Hj; simpl.
      - exact Hj.
      - now apply IH.
      - apply IH; [intros u' Hu'; apply Hall; now right|].
        rewrite (Hall u (or_introl eq_refl)). reflexivity. }
    apply (Hzero pre Hpre). reflexivity.
Defined.

(** C10, as stated, fails on a failing run: when ffprobe fails
    [processProgress] has been written once, with 0. *)
Lemma failed_run_writes_processProgress_once :
  fst (processVideo (num := F64.t) Sample.probeFails Sample.start) =
    Rejected "ffprobe exited with code 1" /\
  writes Update.processProgress
    (trace (snd (processVideo (num := F64.t)
                   Sample.probeFails Sample.start))) = [0%Z] /\
  List.length
    (writes Update.processProgress
       (trace (snd (processVideo (num := F64.t)
                      Sample.probeFails Sample.start)))) <> 2%nat.
Proof. repeat split; vm_compute; try reflexivity. discriminate. Qed.

(* --------------------------------------------------------------------- *)
(** ** 13.11 The real path broadcasts in order *)
(* --------------------------------------------------------------------- *)

Section RealPathOrder.

Variable E : env Q.

Local Open Scope list_scope.
Local Open Scope Z_scope.

Lemma frameProgress_exact (i total : nat) :
  frameProgress (num := Q) i total =
  Qfloor (inject_Z 30 +
          inject_Z (Z.of_nat (i + 1)) / inject_Z (Z.of_nat total) * inject_Z 60 +
          (1 # 2)).
Proof. reflexivity. Qed.

Lemma share_bounds (i total : nat) :
  (i < total)%nat ->
  (0 <= inject_Z (Z.of_nat (i + 1)) / inject_Z (Z.of_nat total))%Q /\
  (inject_Z (Z.of_nat (i + 1)) / inject_Z (Z.of_nat total) <= 1)%Q.
Proof.
  intros Hlt.
  assert (Hpos : (0 < inject_Z (Z.of_nat total))%Q).
  { change 0%Q with (inject_Z 0). rewrite <- Zlt_Qlt. lia. }
  split.
  - apply Qle_shift_div_l; [assumption|]. rewrite Qmult_0_l.
    change 0%Q with (inject_Z 0). rewrite <- Zle_Qle. lia.
  - apply Qle_shift_div_r; [assumption|]. rewrite Qmult_1_l.
    rewrite <- Zle_Qle. lia.
Qed.

Lemma share_monotone (i j total : nat) :
  (i <= j)%nat -> (0 < total)%nat ->
  (inject_Z (Z.of_nat (i + 1)) / inject_Z (Z.of_nat total) <=
   inject_Z (Z.of_nat (j + 1)) / inject_Z (Z.of_nat total))%Q.
Proof.
  intros Hle Hpos. unfold Qdiv.
  apply Qmult_le_compat_r.
  - rewrite <- Zle_Qle. lia.
  - apply Qinv_le_0_compat. change 0%Q with (inject_Z 0).
    rewrite <- Zle_Qle. lia.
Qed.

(** Every broadcast of the loop lies between 30 and 90. *)
Lemma frameProgress_bounds (i total : nat) :
  (i < total)%nat ->
  30 <= frameProgress (num := Q) i total /\ frameProgress (num := Q) i total <= 90.
Proof.
  intros Hlt. rewrite frameProgress_exact.
  destruct (share_bounds i total Hlt) as [Hlo Hhi].
  set (share := (inject_Z (Z.of_nat (i + 1)) / inject_Z (Z.of_nat total))%Q) in *.
  clearbody share.
  change (inject_Z 30) with (30 # 1)%Q. change (inject_Z 60) with (60 # 1)%Q.
  split.
  - apply Z.le_trans with (Qfloor (30 # 1)); [vm_compute; discriminate|].
    apply Qfloor_resp_le. lra.
  - apply Z.le_trans with (Qfloor ((90 # 1) + (1 # 2))); [|vm_compute; discriminate].
    apply Qfloor_resp_le. lra.
Qed.

Lemma frameProgress_monotone (i j total : nat) :
  (i <= j)%nat -> (0 < total)%nat ->
  frameProgress (num := Q) i total <= frameProgress (num := Q) j total.
Proof.
  intros Hle Hpos. rewrite !frameProgress_exact.
  pose proof (share_monotone i j total Hle Hpos) as Hshare.
  apply Qfloor_resp_le.
  change (inject_Z 60) with (60 # 1)%Q.
  set (a := (inject_Z (Z.of_nat (i + 1)) / inject_Z (Z.of_nat total))%Q) in *.
  set (b := (inject_Z (Z.of_nat (j + 1)) / inject_Z (Z.of_nat total))%Q) in *.
  clearbody a b. lra.
Qed.

Lemma progressValues_loopTrace (total i count : nat) :
  progressValues (loopTrace (num := Q) total i count) =
  List.map (fun k => frameProgress (num := Q) k total) (List.seq i count).
Proof.
  unfold loopTrace. revert i.
  induction count as [|c IH]; intros i; simpl; [reflexivity|].
  now rewrite IH.
Qed.

Lemma nondecreasing_loop (total count : nat) :
  forall (i : nat) (lo : Z),
  (i + count <= total)%nat ->
  lo <= 100 ->
  (forall k, (i <= k < total)%nat -> lo <= frameProgress (num := Q) k total) ->
  nondecreasing
    (lo :: List.map (fun k => frameProgress (num := Q) k total) (List.seq i count)
        ++ [100]) = true.
Proof.
  induction count as [|c IH]; intros i lo Hfit Hlo Hnext.
  - simpl. apply Z.leb_le in Hlo. now rewrite Hlo.
  - cbn [List.seq List.map app].
    change (nondecreasing (lo :: ?x :: ?l)) with
      ((lo <=? x) && nondecreasing (x :: l)).
    apply andb_true_iff. split.
    + apply Z.leb_le. apply Hnext. lia.
    + assert (Hi : (i < total)%nat) by lia.
      destruct (frameProgress_bounds i total Hi) as [_ Hup].
      apply IH; [lia | lia |].
      intros k Hk. apply frameProgress_monotone; lia.
Qed.

(** On the real path with a classified frame, the progress values of the
    whole run never decrease. *)
Lemma classified_route_nondecreasing
    (metadata : Metadata.t Q) (frames : list frame) :
  probeOutcome E = Fulfilled metadata ->
  routeOf E = Classified frames ->
  nondecreasing (progressValues (runTrace E)) = true.
Proof.
  intros Hprobe Hroute.
  assert (Hshots : extractTrace E 5 =
                   [Emit (ProgressEvent 25 (ExtractingFrames 5))]).
  { unfold routeOf, extractOutcome in Hroute. unfold extractTrace.
    destruct (truthy (apiKey E)); [|discriminate].
    destruct (screenshots E); [discriminate | discriminate | reflexivity]. }
  assert (Hfail : forall e, progressValues (failTrace E e) = []).
  { intros e. unfold failTrace. destruct (storeRejects E (toFailed e)); reflexivity. }
  assert (Hfinish : progressValues (finishTrace E metadata) = [100]).
  { unfold finishTrace, completeTrace. simpl.
    destruct (storeRejects E (toCompleted E (sensitivityVerdict E) metadata));
      [now rewrite Hfail | reflexivity]. }
  unfold runTrace.
  destruct (storeRejects E toProcessing) as [e0|]; [now rewrite Hfail|].
  unfold sensitivityTrace, framesTrace.
  rewrite Hprobe, Hroute, Hshots. unfold startTrace.
  rewrite !progressValues_app, progressValues_loopTrace, Hfinish.
  cbn [progressValues app].
  change (nondecreasing (0 :: 20 :: 25 :: ?l)) with
    ((0 <=? 20) && ((20 <=? 25) && nondecreasing (25 :: l))).
  cbn [Z.leb Z.compare Pos.compare Pos.compare_cont andb].
  apply (nondecreasing_loop (List.length frames) (List.length frames) 0%nat 25);
    [lia | lia |].
  intros k Hk.
  assert (Hlt : (k < List.length frames)%nat) by lia.
  destruct (frameProgress_bounds k (List.length frames) Hlt) as [Hlow _]. lia.
Qed.

End RealPathOrder.

(** In binary64 as well: at most five frames are read back, and for every
    such count the broadcasts of the loop are in order. *)
Section RealPathOrderBinary64.

Variable E : env F64.t.

Local Open Scope list_scope.
Local Open Scope Z_scope.

Lemma loop_progress_binary64 (n : nat) :
  (n <= 5)%nat ->
  nondecreasing
    (0 :: 20 :: 25 :: progressValues (loopTrace (num := F64.t) n 0 n) ++ [100])
  = true.
Proof.
  intros Hn.
  destruct n as [|[|[|[|[|[|n]]]]]]; try lia; vm_compute; reflexivity.
Qed.

Lemma classified_route_nondecreasing_binary64
    (metadata : Metadata.t F64.t) (frames : list frame) :
  probeOutcome E = Fulfilled metadata ->
  routeOf E = Classified frames ->
  nondecreasing (progressValues (runTrace E)) = true.
Proof.
  intros Hprobe Hroute.
  pose proof (classified_at_most_five E frames Hroute) as Hfive.
  assert (Hshots : extractTrace E 5 =
                   [Emit (ProgressEvent 25 (ExtractingFrames 5))]).
  { unfold routeOf, extractOutcome in Hroute. unfold extractTrace.
    destruct (truthy (apiKey E)); [|discriminate].
    destruct (screenshots E); [discriminate | discriminate | reflexivity]. }
  assert (Hfail : forall e, progressValues (failTrace E e) = []).
  { intros e. unfold failTrace. destruct (storeRejects E (toFailed e)); reflexivity. }
  assert (Hfinish : progressValues (finishTrace E metadata) = [100]).
  { unfold finishTrace, completeTrace. simpl.
    destruct (storeRejects E (toCompleted E (sensitivityVerdict E) metadata));
      [now rewrite Hfail | reflexivity]. }
  unfold runTrace.
  destruct (storeRejects E toProcessing) as [e0|]; [now rewrite Hfail|].
  unfold sensitivityTrace, framesTrace.
  rewrite Hprobe, Hroute, Hshots. unfold startTrace.
  rewrite !progressValues_app, Hfinish.
  cbn [progressValues app].
  now apply loop_progress_binary64.
Qed.

End RealPathOrderBinary64.

(* ===================================================================== *)
(** * 14. Further properties of the video processor *)
(* ===================================================================== *)

(* --------------------------------------------------------------------- *)
(** ** 14.1 The frame sampler *)
(* --------------------------------------------------------------------- *)

Section FrameSampler.

Context {num : Type} `{JsNumber num}.
Variable E : env num.

Local Open Scope list_scope.

(** The read-back loop returns the frames it was given followed by one
    frame per file present, in index order, each with the bytes read. *)
Lemma readFrames_spec (files : nat -> fileState) (remaining : nat) :
  forall (i : nat) (acc frames : list frame),
  readFrames files remaining i acc = inr frames ->
  exists added,
    frames = acc ++ added /\
    List.map path added =
      List.filter (fun k => present (files k)) (List.seq i remaining) /\
    Forall (fun f => files (path f) = Readable (buffer f)) added.
Proof.
  induction remaining as [|r IH]; intros i acc frames; simpl.
  - intros Heq. inversion Heq; subst. exists []. now rewrite app_nil_r.
  - destruct (files i) as [|bytes|error] eqn:Hfile; simpl; [| |discriminate].
    + apply IH.
    + intros Hread. destruct (IH _ _ _ Hread) as (added & -> & Hpaths & Hbytes).
      exists ({| path := i; buffer := bytes |} :: added).
      rewrite <- app_assoc. split; [reflexivity|]. split.
      * simpl. now rewrite Hpaths.
      * constructor; assumption.
Qed.

(** The loop fails on the first file that is present and cannot be
    read. *)
Lemma readFrames_error (files : nat -> fileState) (remaining : nat) :
  forall (i : nat) (acc : list frame) (error : string),
  readFrames files remaining i acc = inl error <->
  exists k, (i <= k < i + remaining)%nat /\ files k = Unreadable error /\
            forall k', (i <= k' < k)%nat -> forall e, files k' <> Unreadable e.
Proof.
  induction remaining as [|r IH]; intros i acc error; simpl.
  - split; [discriminate | intros (k & Hk & _); lia].
  - destruct (files i) as [|bytes|e0] eqn:Hfile.
    + rewrite IH. split; intros (k & Hk & Hbad & Hfirst).
      * exists k. split; [lia|]. split; [assumption|].
        intros k' Hk' e. destruct (Nat.eq_dec k' i) as [->|Hne];
          [rewrite Hfile; discriminate | apply Hfirst; lia].
      * exists k. assert (k <> i) by (intros ->; congruence).
        split; [lia|]. split; [assumption|]. intros k' Hk'. apply Hfirst. lia.
    + rewrite IH. split; intros (k & Hk & Hbad & Hfirst).
      * exists k. split; [lia|]. split; [assumption|].
        intros k' Hk' e. destruct (Nat.eq_dec k' i) as [->|Hne];
          [rewrite Hfile; discriminate | apply Hfirst; lia].
      * exists k. assert (k <> i) by (intros ->; congruence).
        split; [lia|]. split; [assumption|]. intros k' Hk'. apply Hfirst. lia.
    + split.
      * intros Heq. inversion Heq; subst. exists i.
        split; [lia|]. split; [assumption|]. intros k' Hk'. lia.
      * intros (k & Hk & Hbad & Hfirst).
        destruct (Nat.eq_dec k i) as [->|Hne]; [congruence|].
        exfalso. apply (Hfirst i ltac:(lia) e0). assumption.
Qed.

(** X1. When [extractFrames] resolves, its frames are exactly the files
    [frame-1.jpg] ... [frame-n.jpg] that are present, in index order and
    with the bytes read from them: a missing file is skipped without an
    error, so fewer than [n] frames (even none) can come back; one
    progress event, 25, has been broadcast and nothing persisted. *)
Theorem extracted_frames_are_the_files_present
    (n : nat) (w w' : world num) (frames : list frame) :
  extractFrames E n w = (Fulfilled frames, w') ->
  exists files,
    screenshots E = ScreenshotsEnd files /\
    List.map path frames =
      List.filter (fun k => present (files k)) (List.seq 1 n) /\
    (forall f, In f frames -> files (path f) = Readable (buffer f)) /\
    (List.length frames <= n)%nat /\
    w' = extend w [Emit (ProgressEvent 25 (ExtractingFrames n))].
Proof.
  rewrite extractFrames_run. unfold extractOutcome, extractTrace.
  destruct (screenshots E) as [e|e|files]; [discriminate | discriminate |].
  destruct (readFrames files n 1 []) as [e|fs] eqn:Hread; [discriminate|].
  intros Heq. inversion Heq; subst. clear Heq.
  destruct (readFrames_spec _ _ _ _ _ Hread) as (added & -> & Hpaths & Hbytes).
  simpl app. exists files. split; [reflexivity|]. split; [exact Hpaths|].
  split; [apply Forall_forall; exact Hbytes|]. split; [|reflexivity].
  rewrite <- (length_map path), Hpaths.
  etransitivity; [apply filter_length_le|]. now rewrite length_seq.
Qed.

(** X2. [extractFrames] rejects in three cases only: the frame directory
    cannot be made (nothing is broadcast), the screenshot tool reports an
    error, or a file that is present cannot be read; in the last case the
    error is that of the first such file and the frames read before it are
    dropped. *)
Theorem extraction_rejects_on_the_first_failure
    (n : nat) (w w' : world num) (error : string) :
  extractFrames E n w = (Rejected error, w') <->
  (screenshots E = MkdirThrows error /\ w' = w) \/
  (screenshots E = ScreenshotsError error /\
   w' = extend w [Emit (ProgressEvent 25 (ExtractingFrames n))]) \/
  (exists files k,
     screenshots E = ScreenshotsEnd files /\
     (1 <= k <= n)%nat /\ files k = Unreadable error /\
     (forall k', (1 <= k' < k)%nat -> forall e, files k' <> Unreadable e) /\
     w' = extend w [Emit (ProgressEvent 25 (ExtractingFrames n))]).
Proof.
  rewrite extractFrames_run. unfold extractOutcome, extractTrace.
  destruct (screenshots E) as [e|e|files].
  - rewrite extend_nil. split.
    + intros Heq. inversion Heq; subst. left. split; reflexivity.
    + intros [[Heq ->]|[[Heq _]|(files & k & Heq & _)]];
        try discriminate. inversion Heq; subst. reflexivity.
  - split.
    + intros Heq. inversion Heq; subst. right. left. split; reflexivity.
    + intros [[Heq _]|[[Heq ->]|(files & k & Heq & _)]];
        try discriminate. inversion Heq; subst. reflexivity.
  - destruct (readFrames files n 1 []) as [e|fs] eqn:Hread.
    + split.
      * intros Heq. inversion Heq; subst. right. right.
        apply readFrames_error in Hread.
        destruct Hread as (k & Hk & Hbad & Hfirst).
        exists files, k. repeat split; try assumption; lia.
      * intros [[Heq _]|[[Heq _]|(files' & k & Heq & Hk & Hbad & Hfirst & ->)]];
          try discriminate. inversion Heq; subst files'.
        assert (Herr : readFrames files n 1 [] = inl error).
        { apply readFrames_error. exists k. repeat split; try assumption; lia. }
        congruence.
    + split; [discriminate|].
      intros [[Heq _]|[[Heq _]|(files' & k & Heq & Hk & Hbad & Hfirst & _)]];
        try discriminate. inversion Heq; subst files'.
      assert (Herr : readFrames files n 1 [] = inl error).
      { apply readFrames_error. exists k. repeat split; try assumption; lia. }
      congruence.
Qed.

End FrameSampler.

Lemma extracted_frames_witness :
  exists files,
    screenshots (Sample.allCalm (num := F64.t)) = ScreenshotsEnd files /\
    List.map path
      [ {| path := 1; buffer := [] |}; {| path := 2; buffer := [] |};
        {| path := 3; buffer := [] |}; {| path := 4; buffer := [] |};
        {| path := 5; buffer := [] |} ] =
      List.filter (fun k => present (files k)) (List.seq 1 5).
Proof.
  destruct (extracted_frames_are_the_files_present
              (Sample.allCalm (num := F64.t)) 5 Sample.start
              (snd (extractFrames Sample.allCalm 5 Sample.start))
              [ {| path := 1; buffer := [] |}; {| path := 2; buffer := [] |};
                {| path := 3; buffer := [] |}; {| path := 4; buffer := [] |};
                {| path := 5; buffer := [] |} ])
    as (files & Hshots & Hpaths & _).
  - reflexivity.
  - exists files. split; assumption.
Defined.

(* --------------------------------------------------------------------- *)
(** ** 14.2 The classifier call and the frame loop *)
(* --------------------------------------------------------------------- *)

Section ClassifierCall.

Context {num : Type} `{JsNumber num}.
Variable E : env num.

Local Open Scope list_scope.

Lemma prefix_append (p s : string) : String.prefix p (p ++ s)%string = true.
Proof.
  induction p as [|c p IH]; simpl.
  - destruct s; reflexivity.
  - destruct (ascii_dec c c) as [_|Hne]; [exact IH | now elim Hne].
Qed.

(** X3. [callHuggingFaceAPI] resolves exactly when the service answers
    with status 200, and then with the body of the answer; every other
    outcome (a network error, a status outside 2xx, a 2xx status other
    than 200) rejects with a message that starts with
    [Hugging Face API failed: ].  The call never stays pending, broadcasts
    nothing and persists nothing. *)
Theorem classifier_call_resolves_only_on_200
    (i : nat) (imageBuffer : list Byte.byte) (w : world num) :
  (forall data w',
     callHuggingFaceAPI E i imageBuffer w = (Fulfilled data, w') <->
     post E i imageBuffer = HttpResponse 200 data /\ w' = w) /\
  (forall message w',
     callHuggingFaceAPI E i imageBuffer w = (Rejected message, w') ->
     w' = w /\
     String.prefix "Hugging Face API failed: " message = true /\
     forall data, post E i imageBuffer <> HttpResponse 200 data) /\
  (forall w', callHuggingFaceAPI E i imageBuffer w <> (Pending, w')).
Proof.
  unfold callHuggingFaceAPI.
  destruct (post E i imageBuffer) as [m|status data] eqn:Hpost.
  - split; [|split].
    + intros d w'. split; [discriminate | intros [Heq _]; discriminate].
    + intros message w' Heq. inversion Heq; subst.
      split; [reflexivity|]. split; [exact (prefix_append "Hugging Face API failed: " m) | discriminate].
    + discriminate.
  - destruct (Z.eqb_spec status 200) as [->|Hne].
    + simpl. split; [|split].
      * intros d w'. split.
        -- intros Heq. inversion Heq; subst. split; reflexivity.
        -- intros [Heq ->]. inversion Heq; subst. reflexivity.
      * discriminate.
      * discriminate.
    + assert (Hother : forall d, HttpResponse status data <> HttpResponse 200 d).
      { intros d Heq. inversion Heq. contradiction. }
      destruct ((200 <=? status)%Z && (status <? 300)%Z)%bool.
      * split; [|split].
        -- intros d w'. split; [discriminate|].
           intros [Heq _]. now elim (Hother d).
        -- intros message w' Heq. inversion Heq; subst.
           split; [reflexivity|]. split; [reflexivity | exact Hother].
        -- discriminate.
      * split; [|split].
        -- intros d w'. split; [discriminate|].
           intros [Heq _]. now elim (Hother d).
        -- intros message w' Heq. inversion Heq; subst.
           split; [reflexivity|]. split; [reflexivity | exact Hother].
        -- discriminate.
Qed.

Lemma afterFrames_app (l1 l2 : list frame) :
  forall (st : loopState) (i : nat),
  afterFrames E st i (l1 ++ l2) =
  afterFrames E (afterFrames E st i l1) (i + List.length l1) l2.
Proof.
  induction l1 as [|x l1 IH]; intros st i; simpl.
  - now rewrite Nat.add_0_r.
  - rewrite IH. f_equal. lia.
Qed.

Lemma afterFrame_count (st : loopState) (i : nat) (f : frame) :
  apiSuccessCount (afterFrame E st i f) =
  (apiSuccessCount st + (if answered E i f then 1 else 0))%nat.
Proof.
  unfold afterFrame, answered.
  destruct (apiOutcome E i (buffer f)) as [e|result]; [simpl; lia|].
  destruct result; simpl; lia.
Qed.

Lemma afterFrames_count (frames : list frame) :
  forall (st : loopState) (i : nat),
  apiSuccessCount (afterFrames E st i frames) =
  (apiSuccessCount st + countAnswered E i frames)%nat.
Proof.
  induction frames as [|f rest IH]; intros st i; simpl; [lia|].
  rewrite IH, afterFrame_count. lia.
Qed.

(** X4. The frame loop never rejects and never stays pending, whatever
    the classifier does: a failed call is skipped.  It broadcasts one
    progress event per frame, in frame order, persists nothing, and counts
    as successes exactly the frames answered with status 200. *)
Theorem frame_loop_skips_failed_calls
    (total : nat) (frames : list frame) (st : loopState) (i : nat)
    (w : world num) :
  exists st' w',
    analyzeFrames E total st i frames w = (Fulfilled st', w') /\
    trace w' =
      trace w ++
      List.map (fun k => Emit (ProgressEvent (frameProgress k total)
                                             (AnalyzingFrame (k + 1) total)))
               (List.seq i (List.length frames)) /\
    store w' = store w /\
    apiSuccessCount st' =
      (apiSuccessCount st + countAnswered E i frames)%nat /\
    (countAnswered E i frames <= List.length frames)%nat.
Proof.
  exists (afterFrames E st i frames),
         (extend w (loopTrace total i (List.length frames))).
  split; [apply analyzeFrames_run|].
  split; [reflexivity|].
  split.
  { unfold extend. cbn [store].
    apply replay_progress_only, loopTrace_progress. }
  split; [apply afterFrames_count|].
  clear. revert i. induction frames as [|f rest IH]; intros i; simpl; [lia|].
  specialize (IH (S i)). destruct (answered E i f); lia.
Qed.

Lemma increasingFrom_snoc (l : list nat) :
  forall (low a : nat),
  increasingFrom low l -> Forall (fun k => (k < a)%nat) l -> (low < a)%nat ->
  increasingFrom low (l ++ [a]).
Proof.
  induction l as [|x l IH]; intros low a Hinc Hall Hlow; simpl.
  - split; [assumption | exact I].
  - destruct Hinc as [Hx Hrest]. inversion Hall; subst.
    split; [assumption|]. apply IH; assumption.
Qed.

Lemma afterFrame_agree (st : loopState) (i : nat) (f : frame) :
  accumulatorsAgree i st -> accumulatorsAgree (S i) (afterFrame E st i f).
Proof.
  intros (numbers & Hmap & Hinc & Hbound & Hlen & Hcount).
  assert (Hweak : Forall (fun k => (k <= S i)%nat) numbers).
  { eapply Forall_impl; [|exact Hbound]. simpl. intros; lia. }
  unfold afterFrame.
  destruct (apiOutcome E i (buffer f)) as [e|result].
  { exists numbers. repeat split; try assumption; lia. }
  destruct (recordFrame_cases st i result) as [Hscored|[_ Hcounted]].
  2:{ rewrite Hcounted. unfold countFrame, accumulatorsAgree.
      cbn [detectedIssues flaggedFrames apiSuccessCount].
      exists numbers. repeat split; try assumption; lia. }
  rewrite Hscored.
  unfold scoreFrame, accumulatorsAgree. cbv zeta.
  destruct (gtb (fst (frameScores result)) (dec 6 1));
    cbn [detectedIssues flaggedFrames apiSuccessCount].
  - exists (numbers ++ [i + 1]%nat). split; [|split; [|split; [|split]]].
    + rewrite !map_app, Hmap. reflexivity.
    + apply increasingFrom_snoc; [assumption | | lia].
      eapply Forall_impl; [|exact Hbound]. simpl. intros; lia.
    + apply Forall_app. split; [assumption|]. constructor; [lia | constructor].
    + rewrite length_app. simpl. lia.
    + lia.
  - exists numbers. repeat split; try assumption; lia.
Qed.

Lemma afterFrames_agree (frames : list frame) :
  forall (st : loopState) (i : nat),
  accumulatorsAgree i st ->
  accumulatorsAgree (i + List.length frames) (afterFrames E st i frames).
Proof.
  induction frames as [|f rest IH]; intros st i Hst; simpl.
  - now rewrite Nat.add_0_r.
  - replace (i + S (List.length rest))%nat with (S i + List.length rest)%nat by lia.
    apply IH. now apply afterFrame_agree.
Qed.

Lemma loopEnd_agree (frames : list frame) :
  accumulatorsAgree (List.length frames) (loopEnd E frames).
Proof.
  apply (afterFrames_agree frames loopStart 0).
  exists []. simpl. repeat split; auto.
Qed.

Lemma real_verdict_shape (w w' : world num) (v : Verdict.t num)
    (d : Details.t num) :
  analyzeSensitivity E w = (Fulfilled v, w') ->
  Verdict.details v = Some d ->
  exists frames,
    routeOf E = Classified frames /\
    v = decide (List.length frames) (loopEnd E frames) /\
    (List.length frames <= 5)%nat /\
    apiSuccessCount (loopEnd E frames) <> 0%nat.
Proof.
  rewrite analyzeSensitivity_run. intros Hrun Hd. inversion Hrun; subst.
  clear Hrun. unfold sensitivityVerdict in *.
  destruct (routeOf E) as [|error|frames|frames] eqn:Hroute;
    try discriminate Hd.
  exists frames. split; [reflexivity|]. split; [reflexivity|].
  split; [now apply (classified_at_most_five E)|].
  unfold routeOf in Hroute.
  destruct (truthy (apiKey E)); [|discriminate].
  destruct (extractOutcome E 5) as [e|fs]; [discriminate|].
  destruct (Nat.eqb_spec (apiSuccessCount (loopEnd E fs)) 0); [discriminate|].
  inversion Hroute; subst. assumption.
Qed.

(** X5. The details of a verdict of the real path agree with one another:
    between one and five frames were analysed, at least one and at most
    all of them successfully, no more frames are flagged than succeeded,
    a [safe] verdict has no flagged frame and lists no issue, and a
    [flagged] verdict lists exactly one issue per flagged frame (none when
    only the average crossed the threshold). *)
Theorem real_verdict_details_agree
    (w w' : world num) (v : Verdict.t num) (d : Details.t num) :
  analyzeSensitivity E w = (Fulfilled v, w') ->
  Verdict.details v = Some d ->
  (1 <= Details.successfulAnalyses d <= Details.totalFramesAnalyzed d)%nat /\
  (Details.totalFramesAnalyzed d <= 5)%nat /\
  (Details.flaggedFrames d <= Details.successfulAnalyses d)%nat /\
  (Verdict.sensitivityFlag v = safe ->
   Details.flaggedFrames d = 0%nat /\ Verdict.detectedIssues v = []) /\
  (Verdict.sensitivityFlag v = flagged ->
   List.length (Verdict.detectedIssues v) = Details.flaggedFrames d).
Proof.
  intros Hrun Hd.
  destruct (real_verdict_shape w w' v d Hrun Hd)
    as (frames & Hroute & -> & Hfive & Hsome).
  destruct (loopEnd_agree frames)
    as (numbers & Hmap & Hinc & Hbound & Hlen & Hcount).
  unfold decide in Hd. cbn [Verdict.details] in Hd. inversion Hd; subst d.
  clear Hd. unfold decide.
  cbn [Details.successfulAnalyses Details.totalFramesAnalyzed
       Details.flaggedFrames Verdict.sensitivityFlag Verdict.detectedIssues].
  split; [lia|]. split; [assumption|]. split; [lia|].
  unfold isSafeOf.
  destruct (Nat.eqb_spec (flaggedFrames (loopEnd E frames)) 0) as [Hzero|Hpos];
    cbn [andb].
  - destruct (ltb (averageOf (loopEnd E frames)) (dec 5 1)).
    + split; [intros _; split; [assumption | reflexivity] | discriminate].
    + split; [discriminate|]. intros _.
      rewrite <- Hlen, <- (length_map Some numbers), <- Hmap.
      now rewrite length_map.
  - split; [discriminate|]. intros _.
    rewrite <- Hlen, <- (length_map Some numbers), <- Hmap.
    now rewrite length_map.
Qed.

(** X6. Every issue a verdict of the real path lists names a frame; the
    frame numbers increase strictly (no frame is listed twice) and lie
    between 1 and the number of frames analysed. *)
Theorem issues_name_frames_in_order
    (w w' : world num) (v : Verdict.t num) (d : Details.t num) :
  analyzeSensitivity E w = (Fulfilled v, w') ->
  Verdict.details v = Some d ->
  exists numbers,
    List.map issueFrame (Verdict.detectedIssues v) = List.map Some numbers /\
    increasingFrom 0 numbers /\
    Forall (fun k => (1 <= k <= Details.totalFramesAnalyzed d)%nat) numbers.
Proof.
  intros Hrun Hd.
  destruct (real_verdict_shape w w' v d Hrun Hd)
    as (frames & Hroute & -> & Hfive & Hsome).
  destruct (loopEnd_agree frames)
    as (numbers & Hmap & Hinc & Hbound & Hlen & Hcount).
  unfold decide in Hd. cbn [Verdict.details] in Hd. inversion Hd; subst d.
  clear Hd. unfold decide.
  cbn [Details.totalFramesAnalyzed Verdict.detectedIssues].
  destruct (isSafeOf (loopEnd E frames)).
  - exists []. repeat split; constructor.
  - exists numbers. split; [assumption|]. split; [assumption|].
    assert (Hpos : forall l low, increasingFrom low l ->
                                 Forall (fun k => (low < k)%nat) l).
    { induction l as [|a l IH]; intros low Hl; constructor.
      - apply Hl.
      - destruct Hl as [Ha Hl]. eapply Forall_impl; [|apply (IH a Hl)].
        simpl. intros; lia. }
    specialize (Hpos numbers 0%nat Hinc).
    rewrite Forall_forall in *. intros k Hk.
    specialize (Hpos k Hk). specialize (Hbound k Hk). simpl in *. lia.
Qed.

End ClassifierCall.

Lemma real_verdict_details_witness :
  exists d,
    Verdict.details (sensitivityVerdict (Sample.oneHit (num := F64.t))) = Some d /\
    (1 <= Details.successfulAnalyses d <= Details.totalFramesAnalyzed d)%nat /\
    (Details.flaggedFrames d <= Details.successfulAnalyses d)%nat.
Proof.
  assert (Hd : exists d,
             Verdict.details (sensitivityVerdict (Sample.oneHit (num := F64.t)))
             = Some d) by (eexists; vm_compute; reflexivity).
  destruct Hd as [d Hd]. exists d. split; [exact Hd|].
  destruct (real_verdict_details_agree Sample.oneHit Sample.start
              (extend Sample.start (sensitivityTrace Sample.oneHit))
              (sensitivityVerdict Sample.oneHit) d)
    as (Hcount & _ & Hflagged & _).
  - apply analyzeSensitivity_run.
  - exact Hd.
  - split; assumption.
Defined.

Lemma issues_in_order_witness :
  exists numbers,
    List.map issueFrame
      (Verdict.detectedIssues (sensitivityVerdict (Sample.oneHit (num := F64.t))))
    = List.map Some numbers /\
    increasingFrom 0 numbers.
Proof.
  assert (Hd : exists d,
             Verdict.details (sensitivityVerdict (Sample.oneHit (num := F64.t)))
             = Some d) by (eexists; vm_compute; reflexivity).
  destruct Hd as [d Hd].
  destruct (issues_name_frames_in_order Sample.oneHit Sample.start
              (extend Sample.start (sensitivityTrace Sample.oneHit))
              (sensitivityVerdict Sample.oneHit) d)
    as (numbers & Hmap & Hinc & _).
  - apply analyzeSensitivity_run.
  - exact Hd.
  - exists numbers. split; assumption.
Defined.

(* --------------------------------------------------------------------- *)
(** ** 14.3 Answers outside the vocabulary *)
(* --------------------------------------------------------------------- *)

Section OutsideVocabulary.

Variable E : env F64.t.

Local Open Scope list_scope.

Lemma scoreItem_unrecognised (scores : F64.t * F64.t) (item : labelScore F64.t) :
  recognisedLabel (toLowerCase (orElse (label item) EmptyString)) = false ->
  scoreItem scores item = scores.
Proof.
  unfold recognisedLabel, scoreItem. destruct scores as [n s].
  intros Hno. apply orb_false_iff in Hno. destruct Hno as [Hno Hambiguous].
  apply orb_false_iff in Hno. destruct Hno as [Hunsafe Hsafe].
  now rewrite Hunsafe, Hsafe, Hambiguous.
Qed.

Lemma scoreEntry_unrecognised (scores : F64.t * F64.t)
    (entry : string * entryValue F64.t) :
  recognisedKey (toLowerCase (fst entry)) = false ->
  scoreEntry scores entry = scores.
Proof.
  unfold recognisedKey, scoreEntry. destruct scores as [n s].
  intros Hno. apply orb_false_iff in Hno. destruct Hno as [Hunsafe Hsafe].
  now rewrite Hunsafe, Hsafe.
Qed.

(** The scores found in an answer outside the vocabulary, before the
    default is applied. *)
Lemma foundScores_unrecognised (result : apiResult F64.t) :
  unrecognised result ->
  match result with
  | ResultList items => fold_left scoreItem items (ofZ 0, ofZ 0)
  | ResultObject entries => fold_left scoreEntry entries (ofZ 0, ofZ 0)
  | ResultOther => (ofZ 0, ofZ 0)
  | ResultBrokenList _ => (ofZ 0, ofZ 0)
  end = (ofZ 0, ofZ 0).
Proof.
  intros Hno.
  destruct result as [items|entries| |readable]; simpl in Hno;
    [| |reflexivity|reflexivity].
  - induction Hno as [|item items Hitem Hitems IH]; [reflexivity|].
    cbn [fold_left]. now rewrite scoreItem_unrecognised.
  - induction Hno as [|entry entries Hentry Hentries IH]; [reflexivity|].
    cbn [fold_left]. now rewrite scoreEntry_unrecognised.
Qed.

(** X7. An answer that carries no label of the vocabulary (an empty list,
    a list or a mapping of unknown labels, a body that is neither) scores
    as harmless: [nsfwScore] 0 and the assumed [normalScore] 0.95. *)
Theorem unrecognised_answer_scores_as_harmless (result : apiResult F64.t) :
  unrecognised result -> frameScores result = (ofZ 0, dec 95 2).
Proof.
  intros Hno. unfold frameScores.
  rewrite (foundScores_unrecognised result Hno). reflexivity.
Qed.

Lemma unrecognised_answer_witness :
  frameScores (ResultList [ {| label := Some "tabby cat"; score := dec 97 2 |};
                            {| label := None; score := dec 3 2 |} ])
  = (ofZ 0 : F64.t, dec 95 2 : F64.t).
Proof.
  apply unrecognised_answer_scores_as_harmless.
  repeat constructor.
Defined.

(** The answers of the service all lie outside the vocabulary. *)
Lemma afterFrames_unrecognised (frames : list frame) :
  (forall i bytes status data,
     post E i bytes = HttpResponse status data -> unrecognised data) ->
  forall (st : loopState) (i : nat),
  totalNsfwScore st = ofZ 0 -> flaggedFrames st = 0%nat ->
  totalNsfwScore (afterFrames E st i frames) = ofZ 0 /\
  flaggedFrames (afterFrames E st i frames) = 0%nat.
Proof.
  intros Hno.
  induction frames as [|f rest IH]; intros st i Htotal Hflagged; simpl; auto.
  apply IH.
  - unfold afterFrame.
    destruct (apiOutcome E i (buffer f)) as [e|result] eqn:Hout; [assumption|].
    assert (Hun : unrecognised result).
    { unfold apiOutcome in Hout.
      destruct (post E i (buffer f)) as [m|status data] eqn:Hpost; [discriminate|].
      destruct (_ && _)%bool; [|discriminate].
      destruct (status =? 200)%Z; [|discriminate].
      inversion Hout; subst. exact (Hno _ _ _ _ Hpost). }
    destruct (recordFrame_cases st i result) as [Hscored|[[readable ->] _]];
      [|destruct Hun].
    rewrite Hscored. unfold scoreFrame. cbv zeta. cbn [totalNsfwScore].
    assert (Hscores : frameScores result = (ofZ 0, dec 95 2)).
    { unfold frameScores. now rewrite (foundScores_unrecognised result Hun). }
    rewrite Hscores, Htotal.
    reflexivity.
  - unfold afterFrame.
    destruct (apiOutcome E i (buffer f)) as [e|result] eqn:Hout; [assumption|].
    assert (Hun : unrecognised result).
    { unfold apiOutcome in Hout.
      destruct (post E i (buffer f)) as [m|status data] eqn:Hpost; [discriminate|].
      destruct (_ && _)%bool; [|discriminate].
      destruct (status =? 200)%Z; [|discriminate].
      inversion Hout; subst. exact (Hno _ _ _ _ Hpost). }
    destruct (recordFrame_cases st i result) as [Hscored|[[readable ->] _]];
      [|destruct Hun].
    rewrite Hscored. unfold scoreFrame. cbv zeta. cbn [flaggedFrames].
    assert (Hscores : frameScores result = (ofZ 0, dec 95 2)).
    { unfold frameScores. now rewrite (foundScores_unrecognised result Hun). }
    rewrite Hscores, Hflagged.
    reflexivity.
Qed.

(** X8. The pipeline fails open: when every answer of the service lies
    outside the vocabulary and at least one frame is answered, the real
    path declares the video [safe] with confidence 0.99, lists no issue and
    reports an average score of 0. *)
Theorem unrecognised_answers_give_safe_at_099
    (w w' : world F64.t) (v : Verdict.t F64.t) (d : Details.t F64.t) :
  (forall i bytes status data,
     post E i bytes = HttpResponse status data -> unrecognised data) ->
  analyzeSensitivity E w = (Fulfilled v, w') ->
  Verdict.details v = Some d ->
  Verdict.sensitivityFlag v = safe /\
  Verdict.confidence v = dec 99 2 /\
  Verdict.detectedIssues v = [] /\
  Details.flaggedFrames d = 0%nat /\
  Details.averageNsfwScore d = ofZ 0.
Proof.
  intros Hno Hrun Hd.
  destruct (real_verdict_shape E w w' v d Hrun Hd)
    as (frames & Hroute & -> & Hfive & Hsome).
  assert (Hstart : totalNsfwScore (loopStart (num := F64.t)) = ofZ 0)
    by reflexivity.
  destruct (afterFrames_unrecognised frames Hno loopStart 0 Hstart eq_refl)
    as [Htotal Hflagged].
  fold (loopEnd E frames) in Htotal, Hflagged.
  destruct (loopEnd_agree E frames)
    as (numbers & _ & _ & _ & _ & Hcount).
  unfold decide in Hd. cbn [Verdict.details] in Hd. inversion Hd; subst d.
  clear Hd. unfold decide, confidenceOf, isSafeOf, averageOf.
  cbn [Verdict.sensitivityFlag Verdict.confidence Verdict.detectedIssues
       Details.flaggedFrames Details.averageNsfwScore].
  rewrite Htotal, Hflagged.
  assert (Hc : (1 <= apiSuccessCount (loopEnd E frames) <= 5)%nat) by lia.
  destruct (apiSuccessCount (loopEnd E frames)) as [|[|[|[|[|[|c]]]]]];
    try lia; repeat split; vm_compute; reflexivity.
Qed.

End OutsideVocabulary.

Lemma unrecognised_answers_witness :
  Verdict.sensitivityFlag
    (sensitivityVerdict (SampleAnswers.generalModel (num := F64.t))) = safe /\
  Verdict.confidence
    (sensitivityVerdict (SampleAnswers.generalModel (num := F64.t))) = dec 99 2.
Proof.
  assert (Hd : exists d,
             Verdict.details
               (sensitivityVerdict (SampleAnswers.generalModel (num := F64.t)))
             = Some d) by (eexists; vm_compute; reflexivity).
  destruct Hd as [d Hd].
  destruct (unrecognised_answers_give_safe_at_099 SampleAnswers.generalModel
              Sample.start
              (extend Sample.start (sensitivityTrace SampleAnswers.generalModel))
              (sensitivityVerdict SampleAnswers.generalModel) d)
    as (Hflag & Hconfidence & _).
  - intros i bytes status data Hpost. inversion Hpost; subst.
    repeat constructor.
  - apply analyzeSensitivity_run.
  - exact Hd.
  - split; assumption.
Defined.

(* --------------------------------------------------------------------- *)
(** ** 14.4 One clearly unsafe frame *)
(* --------------------------------------------------------------------- *)

Section Binary64Order.

Local Open Scope Z_scope.

Ltac compare_cases :=
  repeat match goal with
         | H : context [Z.compare ?x ?y] |- _ => destruct (Z.compare_spec x y)
         | |- context [Z.compare ?x ?y] => destruct (Z.compare_spec x y)
         | H : context [Pos.compare ?x ?y] |- _ => destruct (Pos.compare_spec x y)
         | |- context [Pos.compare ?x ?y] => destruct (Pos.compare_spec x y)
         end.

Lemma SFcompare_refl (x : spec_float) :
  F64.is_nan x = false -> SFcompare x x = Some Eq.
Proof.
  destruct x as [[|]|[|]| |[|] m e]; simpl; try reflexivity; try discriminate;
    intros _; rewrite Z.compare_refl;
    change (Pos.compare_cont Eq m m) with (Pos.compare m m);
    now rewrite Pos.compare_refl.
Qed.

Lemma SFcompare_swap (x y : spec_float) :
  SFcompare y x = option_map CompOpp (SFcompare x y).
Proof.
  destruct x as [[|]|[|]| |[|] m e]; destruct y as [[|]|[|]| |[|] m' e'];
    simpl; try reflexivity;
    change (Pos.compare_cont Eq m m') with (Pos.compare m m');
    change (Pos.compare_cont Eq m' m) with (Pos.compare m' m);
    rewrite (Z.compare_antisym e e'), (Pos.compare_antisym m m');
    destruct (Z.compare e e'); simpl; try reflexivity;
    destruct (Pos.compare m m'); reflexivity.
Qed.

Lemma SFleb_trans (a b c : spec_float) :
  SFleb a b = true -> SFleb b c = true -> SFleb a c = true.
Proof.
  unfold SFleb, SFcompare.
  destruct a as [[|]|[|]| |[|] ma ea]; destruct b as [[|]|[|]| |[|] mb eb];
    destruct c as [[|]|[|]| |[|] mc ec];
    try reflexivity; try discriminate;
    change (Pos.compare_cont Eq ?x ?y) with (Pos.compare x y);
    intros Hab Hbc; compare_cases; subst;
    simpl in *; try reflexivity; try discriminate; try lia.
Qed.

Lemma SFltb_leb_trans (a b c : spec_float) :
  SFltb a b = true -> SFleb b c = true -> SFltb a c = true.
Proof.
  unfold SFleb, SFltb, SFcompare.
  destruct a as [[|]|[|]| |[|] ma ea]; destruct b as [[|]|[|]| |[|] mb eb];
    destruct c as [[|]|[|]| |[|] mc ec];
    try reflexivity; try discriminate;
    change (Pos.compare_cont Eq ?x ?y) with (Pos.compare x y);
    intros Hab Hbc; compare_cases; subst;
    simpl in *; try reflexivity; try discriminate; try lia.
Qed.

(** [Math.max] of two numbers is one of them and at least both. *)
Lemma max_upper (a b : F64.t) :
  F64.is_nan a = false -> F64.is_nan b = false ->
  F64.leb a (F64.max a b) = true /\ F64.leb b (F64.max a b) = true.
Proof.
  intros Ha Hb. unfold F64.max, F64.leb. rewrite Ha, Hb. cbn [orb].
  pose proof (SFcompare_refl a Ha) as Haa.
  pose proof (SFcompare_refl b Hb) as Hbb.
  pose proof (SFcompare_swap a b) as Hswap.
  destruct (SFcompare a b) as [[| |]|] eqn:Hab; cbn [option_map CompOpp] in Hswap.
  - assert (Hlt : SFltb a b = false) by (unfold SFltb; now rewrite Hab).
    assert (Hgt : SFltb b a = false) by (unfold SFltb; now rewrite Hswap).
    rewrite Hlt, Hgt. unfold SFleb.
    destruct (F64.is_negative a); rewrite ?Haa, ?Hbb, ?Hab, ?Hswap; auto.
  - assert (Hlt : SFltb a b = true) by (unfold SFltb; now rewrite Hab).
    rewrite Hlt. unfold SFleb. rewrite Hab, Hbb. auto.
  - assert (Hlt : SFltb a b = false) by (unfold SFltb; now rewrite Hab).
    assert (Hgt : SFltb b a = true) by (unfold SFltb; now rewrite Hswap).
    rewrite Hlt, Hgt. unfold SFleb. rewrite Haa, Hswap. auto.
  - exfalso.
    destruct a as [[|]|[|]| |[|] ma ea]; destruct b as [[|]|[|]| |[|] mb eb];
      simpl in *; discriminate.
Qed.

Lemma fits_not_nan (x : F64.t) : fits x -> F64.is_nan x = false.
Proof. destruct x; simpl; tauto. Qed.

End Binary64Order.

Section UnsafeFrame.

Variable E : env F64.t.

Local Open Scope list_scope.

Lemma scoreItem_grows (scores : F64.t * F64.t) (item : labelScore F64.t) :
  nonneg (fst scores) -> fits (score item) ->
  F64.leb (fst scores) (fst (scoreItem scores item)) = true.
Proof.
  destruct scores as [n s]. unfold scoreItem. cbn [fst]. intros Hn Hitem.
  assert (Hnan : F64.is_nan n = false) by (apply fits_not_nan, Hn).
  assert (Hrefl : F64.leb n n = true)
    by (unfold F64.leb, SFleb; now rewrite SFcompare_refl).
  destruct (unsafeLabel _); [|destruct (safeLabel _); [|destruct (ambiguousLabel _)]];
    cbn [fst]; auto.
  - apply max_upper; [assumption | now apply fits_not_nan].
  - apply max_upper; [assumption|]. apply fits_not_nan.
    destruct dec_positive_literals as [(m & e & Hhalf) _].
    change (@mul F64.t _ ?a ?b) with (F64.mul a b).
    change (@dec F64.t _ 5 1%nat) with (F64.dec 5 1). rewrite Hhalf.
    now apply mul_shape.
Qed.

Lemma fold_scoreItem_grows (items : list (labelScore F64.t)) :
  Forall (fun item => fits (score item)) items ->
  forall (scores : F64.t * F64.t) (x : F64.t),
  nonneg (fst scores) -> F64.leb x (fst scores) = true ->
  F64.leb x (fst (fold_left scoreItem items scores)) = true.
Proof.
  intros Hitems.
  induction Hitems as [|item items Hitem Hitems IH]; intros scores x Hs Hx;
    cbn [fold_left]; auto.
  apply IH.
  - now apply scoreItem_nonneg64.
  - apply SFleb_trans with (fst scores); [assumption|].
    now apply scoreItem_grows.
Qed.

(** The score found for the unsafe labels of a list is at least that of
    each item that carries one. *)
Lemma found_score_above_unsafe_item
    (items : list (labelScore F64.t)) (item : labelScore F64.t) :
  numericResult (ResultList items) ->
  In item items ->
  unsafeLabel (toLowerCase (orElse (label item) EmptyString)) = true ->
  F64.leb (score item) (fst (fold_left scoreItem items (ofZ 0, ofZ 0))) = true.
Proof.
  intros Hnum Hin Hunsafe. simpl in Hnum.
  destruct (in_split _ _ Hin) as (l1 & l2 & ->).
  apply Forall_app in Hnum. destruct Hnum as [H1 H2].
  inversion H2 as [|? ? Hitem Hrest]; subst.
  rewrite fold_left_app. cbn [fold_left].
  assert (Hbefore : nonneg (fst (fold_left scoreItem l1 (ofZ 0, ofZ 0)))).
  { apply (fold_nonneg64 scoreItem (fun it => fits (score it)));
      [apply scoreItem_nonneg64 | assumption | apply zero_nonneg]. }
  apply fold_scoreItem_grows; [assumption | |].
  - now apply scoreItem_nonneg64.
  - destruct (fold_left scoreItem l1 (ofZ 0, ofZ 0)) as [n s].
    unfold scoreItem. rewrite Hunsafe. cbn [fst] in *.
    apply max_upper; apply fits_not_nan; [apply Hbefore | assumption].
Qed.



(** The loop only adds to the flagged frames, the successes and the
    issues. *)
Lemma afterFrames_keeps (frames : list frame) :
  forall (st : loopState) (i : nat),
  (flaggedFrames st <= flaggedFrames (afterFrames E st i frames))%nat /\
  (apiSuccessCount st <= apiSuccessCount (afterFrames E st i frames))%nat /\
  (forall x, In x (detectedIssues st) ->
             In x (detectedIssues (afterFrames E st i frames))).
Proof.
  induction frames as [|f rest IH]; intros st i; simpl.
  - repeat split; auto.
  - destruct (IH (afterFrame E st i f) (S i)) as (Hflag & Hcount & Hissues).
    assert (Hstep : (flaggedFrames st <= flaggedFrames (afterFrame E st i f))%nat /\
                    (apiSuccessCount st <= apiSuccessCount (afterFrame E st i f))%nat /\
                    (forall x, In x (detectedIssues st) ->
                               In x (detectedIssues (afterFrame E st i f)))).
    { unfold afterFrame.
      destruct (apiOutcome E i (buffer f)) as [e|result]; [repeat split; auto|].
      destruct (recordFrame_cases st i result) as [Hscored|[_ Hcounted]].
      - rewrite Hscored. unfold scoreFrame. cbv zeta.
        destruct (gtb (fst (frameScores result)) (dec 6 1));
          cbn [flaggedFrames apiSuccessCount detectedIssues];
          repeat split; auto; intros x Hx; apply in_or_app; now left.
      - rewrite Hcounted. unfold countFrame.
        cbn [flaggedFrames apiSuccessCount detectedIssues].
        repeat split; auto. }
    destruct Hstep as (Hflag' & Hcount' & Hissues').
    repeat split; [lia | lia | auto].
Qed.

(** X10. One clearly unsafe frame flags the video, provided its answer
    can be read to the end: when the scores are numbers and the answer for
    some extracted frame is a list every element of which the loop can
    read (a [ResultList]: labels that are strings or falsy) and which
    lists an item with an unsafe label and a score above 0.6, the verdict
    of [analyzeSensitivity] is a real one, it is [flagged], and its issues
    name that frame.  A list with an element that cannot be read (a
    [ResultBrokenList]) is not covered: its frame is counted and not
    scored, see X30. *)
Theorem one_unsafe_frame_flags_the_video
    (w w1 w' : world F64.t) (v : Verdict.t F64.t) (key : string)
    (frames : list frame) (k : nat) (f : frame)
    (items : list (labelScore F64.t)) (item : labelScore F64.t) :
  numericAnswers E ->
  truthy (apiKey E) = Some key ->
  extractFrames E 5 w = (Fulfilled frames, w1) ->
  nth_error frames k = Some f ->
  post E k (buffer f) = HttpResponse 200 (ResultList items) ->
  In item items ->
  unsafeLabel (toLowerCase (orElse (label item) EmptyString)) = true ->
  ltb (dec 6 1) (score item) = true ->
  analyzeSensitivity E w = (Fulfilled v, w') ->
  Verdict.sensitivityFlag v = flagged /\
  Verdict.details v <> None /\
  In (FrameIssue (k + 1)
        (mul (fst (frameScores (ResultList items))) (ofZ 100)))
     (Verdict.detectedIssues v).
Proof.
  intros Hnum Hkey Hextract Hnth Hpost Hin Hunsafe Hhigh Hrun.
  rewrite extractFrames_run in Hextract.
  destruct (extractOutcome E 5) as [e|fs] eqn:Hout; [discriminate|].
  inversion Hextract; subst fs. clear Hextract.
  assert (Hanswer : apiOutcome E k (buffer f) = inr (ResultList items)).
  { unfold apiOutcome. rewrite Hpost. reflexivity. }
  assert (Hflag : gtb (fst (frameScores (ResultList items))) (dec 6 1) = true).
  { unfold gtb. change (@ltb F64.t _ ?a ?b) with (SFltb a b).
    apply SFltb_leb_trans with (score item); [exact Hhigh|].
    pose proof (found_score_above_unsafe_item items item
                  (Hnum _ _ _ _ Hpost) Hin Hunsafe) as Hraw.
    unfold frameScores.
    destruct (fold_left scoreItem items (ofZ 0, ofZ 0)) as [n s].
    destruct (_ && _)%bool; exact Hraw. }
  destruct (nth_error_split _ _ Hnth) as (l1 & l2 & -> & Hlen).
  assert (Hend : (1 <= flaggedFrames (loopEnd E (l1 ++ f :: l2)))%nat /\
                 (1 <= apiSuccessCount (loopEnd E (l1 ++ f :: l2)))%nat /\
                 In (FrameIssue (k + 1)
                       (mul (fst (frameScores (ResultList items))) (ofZ 100)))
                    (detectedIssues (loopEnd E (l1 ++ f :: l2)))).
  { unfold loopEnd. rewrite afterFrames_app. simpl. rewrite Hlen.
    set (st1 := afterFrames E loopStart 0 l1).
    destruct (afterFrames_keeps l2 (afterFrame E st1 k f) (S k))
      as (Hf & Hc & Hi).
    assert (Hstep : afterFrame E st1 k f =
                    recordFrame st1 k (ResultList items)).
    { unfold afterFrame. now rewrite Hanswer. }
    rewrite Hstep in *. unfold recordFrame, scoreFrame in *. cbv zeta in *.
    rewrite Hflag in *. cbn [flaggedFrames apiSuccessCount detectedIssues] in *.
    split; [lia|]. split; [lia|].
    apply Hi. apply in_or_app. right. left. reflexivity. }
  destruct Hend as (Hflagged & Hcount & Hissue).
  rewrite analyzeSensitivity_run in Hrun. inversion Hrun; subst v. clear Hrun.
  unfold sensitivityVerdict, routeOf. rewrite Hkey, Hout.
  destruct (Nat.eqb_spec (apiSuccessCount (loopEnd E (l1 ++ f :: l2))) 0);
    [lia|].
  unfold decide, isSafeOf.
  cbn [Verdict.sensitivityFlag Verdict.details Verdict.detectedIssues].
  destruct (Nat.eqb_spec (flaggedFrames (loopEnd E (l1 ++ f :: l2))) 0);
    [lia|].
  cbn [andb]. split; [reflexivity|]. split; [discriminate | exact Hissue].
Qed.

End UnsafeFrame.

Lemma one_unsafe_frame_witness :
  Verdict.sensitivityFlag (sensitivityVerdict (Sample.oneHit (num := F64.t)))
  = flagged.
Proof.
  destruct (one_unsafe_frame_flags_the_video Sample.oneHit
              Sample.start
              (snd (extractFrames Sample.oneHit 5 Sample.start))
              (extend Sample.start (sensitivityTrace Sample.oneHit))
              (sensitivityVerdict Sample.oneHit) "hf_key"
              [ {| path := 1; buffer := [] |}; {| path := 2; buffer := [] |};
                {| path := 3; buffer := [] |}; {| path := 4; buffer := [] |};
                {| path := 5; buffer := [] |} ]
              2 {| path := 3; buffer := [] |}
              [{| label := Some "normal"; score := dec 2 1 |};
               {| label := Some "nsfw"; score := dec 8 1 |}]
              {| label := Some "nsfw"; score := dec 8 1 |})
    as (Hflag & _).
  - intros i bytes status data Hpost. unfold Sample.oneHit, Sample.make in Hpost.
    cbn [post] in Hpost.
    destruct (Nat.eqb i 2); [|discriminate].
    inversion Hpost; subst. repeat constructor; vm_compute; reflexivity.
  - reflexivity.
  - reflexivity.
  - reflexivity.
  - reflexivity.
  - right. left. reflexivity.
  - reflexivity.
  - vm_compute. reflexivity.
  - apply analyzeSensitivity_run.
  - exact Hflag.
Defined.

(** X30. A list with an element that cannot be read is counted as
    analysed but never scored, whatever stands before that element: when
    the only answered frame is answered by such a list (even one whose
    first item is unsafe at 0.9), the verdict is a real one, [safe] with
    confidence 0.99, with one successful analysis, no flagged frame, no
    issue and an average of 0. *)
Theorem broken_list_is_counted_but_not_scored
    (E : env F64.t) (w w1 : world F64.t) (key : string)
    (before after : list frame) (f : frame)
    (readable : list (labelScore F64.t)) :
  truthy (apiKey E) = Some key ->
  extractFrames E 5 w = (Fulfilled (before ++ f :: after)%list, w1) ->
  fst (callHuggingFaceAPI E (List.length before) (buffer f) w1) =
    Fulfilled (ResultBrokenList readable) ->
  (forall k f', nth_error (before ++ f :: after)%list k = Some f' ->
     k <> List.length before ->
     exists error, fst (callHuggingFaceAPI E k (buffer f') w1) = Rejected error) ->
  exists (v : Verdict.t F64.t) (d : Details.t F64.t),
    fst (analyzeSensitivity E w) = Fulfilled v /\
    Verdict.details v = Some d /\
    Verdict.sensitivityFlag v = safe /\
    Verdict.confidence v = dec 99 2 /\
    Verdict.detectedIssues v = [] /\
    Details.successfulAnalyses d = 1%nat /\
    Details.flaggedFrames d = 0%nat /\
    Details.averageNsfwScore d = ofZ 0.
Proof.
  intros Hkey Hext Hhit Hmiss.
  assert (Hout : extractOutcome E 5 = inr (before ++ f :: after)%list).
  { rewrite extractFrames_run in Hext.
    destruct (extractOutcome E 5); inversion Hext; reflexivity. }
  assert (Hend : loopEnd E (before ++ f :: after) = countFrame loopStart).
  { rewrite (loopEnd_single E before after f (ResultBrokenList readable)).
    - reflexivity.
    - rewrite callHuggingFaceAPI_run in Hhit. simpl in Hhit.
      destruct (apiOutcome E (List.length before) (buffer f)); congruence.
    - intros k f' Hk Hne. destruct (Hmiss k f' Hk Hne) as [error Herr].
      rewrite callHuggingFaceAPI_run in Herr. simpl in Herr.
      destruct (apiOutcome E k (buffer f')) as [e|r]; [now exists e | discriminate]. }
  assert (Hroute : routeOf E = Classified (before ++ f :: after)).
  { unfold routeOf. rewrite Hkey, Hout, Hend. reflexivity. }
  rewrite analyzeSensitivity_run.
  unfold sensitivityVerdict. rewrite Hroute, Hend.
  eexists. eexists. cbn [fst].
  split; [reflexivity|].
  split; [unfold decide; cbn [Verdict.details]; reflexivity|].
  split; [vm_compute; reflexivity|].
  split; [vm_compute; reflexivity|].
  split; [vm_compute; reflexivity|].
  split; [reflexivity|].
  split; [reflexivity|].
  vm_compute. reflexivity.
Qed.

Lemma broken_list_witness :
  Verdict.sensitivityFlag (sensitivityVerdict (SampleAnswers.brokenAnswer (num := F64.t)))
  = safe /\
  Verdict.confidence (sensitivityVerdict (SampleAnswers.brokenAnswer (num := F64.t)))
  = dec 99 2.
Proof.
  destruct (broken_list_is_counted_but_not_scored SampleAnswers.brokenAnswer
              Sample.start
              (snd (extractFrames SampleAnswers.brokenAnswer 5 Sample.start))
              "hf_key" []
              [ {| path := 2; buffer := [] |}; {| path := 3; buffer := [] |};
                {| path := 4; buffer := [] |}; {| path := 5; buffer := [] |} ]
              {| path := 1; buffer := [] |}
              [{| label := Some "nsfw"; score := dec 9 1 |}])
    as (v & d & Hrun & _ & Hflag & Hconfidence & _).
  - reflexivity.
  - reflexivity.
  - reflexivity.
  - intros k f' Hk Hne. cbn [List.length] in Hne.
    destruct k as [|k]; [now elim Hne|].
    eexists. reflexivity.
  - rewrite analyzeSensitivity_run in Hrun. cbn [fst] in Hrun.
    inversion Hrun; subst v. split; assumption.
Defined.

(* --------------------------------------------------------------------- *)
(** ** 14.5 Outcomes of a run *)
(* --------------------------------------------------------------------- *)

Section RunOutcomes.

Context {num : Type} `{JsNumber num}.
Variable E : env num.

Local Open Scope list_scope.
Local Open Scope Z_scope.

(** X11. A run fails only for ffprobe or for the store: when
    [processVideo] rejects, the error is the one ffprobe reported or one
    the store rejected an update with.  No failure of the frame
    extraction or of the classifier ever fails the job. *)
Theorem run_rejects_only_for_probe_or_store
    (w w' : world num) (error : string) :
  processVideo E w = (Rejected error, w') ->
  ffprobe E = inl error \/ exists u, storeRejects E u = Some error.
Proof.
  rewrite processVideo_run. intros Hrun. inversion Hrun as [[Hresult Hworld]].
  clear Hrun Hworld. unfold runResult, failResult, probeOutcome in Hresult.
  assert (Hhandler : forall cause,
            match storeRejects E (toFailed cause) with
            | Some storeError => Rejected storeError
            | None => Rejected cause
            end = (Rejected error : settled (Job.t num)) ->
            cause = error \/ exists u, storeRejects E u = Some error).
  { intros cause.
    destruct (storeRejects E (toFailed cause)) as [e|] eqn:Hfail; intros Heq;
      inversion Heq; subst; [right; eauto | now left]. }
  destruct (storeRejects E toProcessing) as [e0|] eqn:Hstart.
  { destruct (Hhandler e0 Hresult) as [->|Hstore]; [right; eauto | now right]. }
  destruct (ffprobe E) as [err|metadata] eqn:Hprobe.
  - destruct (Hhandler err Hresult) as [->|Hstore]; [now left | now right].
  - destruct (jsEval _ _); [|discriminate].
    match type of Hresult with
    | context [storeRejects E ?u] =>
        destruct (storeRejects E u) as [e1|] eqn:Hdone; [|discriminate]
    end.
    destruct (Hhandler e1 Hresult) as [->|Hstore]; [right; eauto | now right].
Qed.

(** X12. When [processVideo] resolves, the record it resolves with is the
    persisted one; it is [completed] at progress 100, stamped with the
    time of completion, carries the probed metadata and its duration and
    keeps the error message it had; its flag is [safe] or [flagged] and is
    the flag of the completion event, which is the last thing the run
    does and the only terminal event. *)
Theorem completed_record_matches_completion_event
    (w w' : world num) (j : Job.t num) :
  processVideo E w = (Fulfilled j, w') ->
  exists metadata tr payload,
    fst (getVideoMetadata E w) = Fulfilled metadata /\
    store w' = j /\
    Job.status j = completed /\
    Job.processProgress j = 100 /\
    Job.processedAt j = Some (now E) /\
    Job.metadata j = Some metadata /\
    Job.duration j = Metadata.duration metadata /\
    Job.errorMessage j = Job.errorMessage (store w) /\
    (Job.sensitivityFlag j = safe \/ Job.sensitivityFlag j = flagged) /\
    trace w' = trace w ++ tr ++ [Emit (CompleteEvent payload)] /\
    terminalEvents tr = [] /\
    Completion.sensitivityFlag payload = Job.sensitivityFlag j /\
    Completion.duration payload = Job.duration j.
Proof.
  rewrite processVideo_run. intros Hrun. inversion Hrun as [[Hresult Hworld]].
  clear Hrun.
  destruct (fulfilled_run E (store w) j Hresult)
    as (metadata & Hprobe & Hstart & Hdone & Htrace).
  unfold runResult in Hresult. rewrite Hstart, Hprobe, Hdone in Hresult.
  inversion Hresult as [Hj]. clear Hresult.
  assert (Hfinal : replay (store w) (runTrace E) =
            Update.apply (toCompleted E (sensitivityVerdict E) metadata)
              (Update.apply toProcessing (store w))).
  { rewrite Htrace. unfold startTrace, completeTrace.
    rewrite !replay_app. simpl.
    rewrite (replay_progress_only _ _ (sensitivityTrace_progress E)).
    reflexivity. }
  exists metadata,
    (startTrace ++ sensitivityTrace E ++
     [Emit (ProgressEvent 100 Finalizing);
      Persist (toCompleted E (sensitivityVerdict E) metadata)]),
    (completionPayload (sensitivityVerdict E) metadata).
  rewrite getVideoMetadata_run. cbn [fst].
  split; [exact Hprobe|].
  subst w'. unfold extend. cbn [store trace]. rewrite !Hfinal.
  split; [reflexivity|]. split; [reflexivity|]. split; [reflexivity|].
  split; [reflexivity|]. split; [reflexivity|]. split; [reflexivity|].
  split; [reflexivity|]. split.
  { cbn. unfold sensitivityVerdict, decide, mockVerdict.
    destruct (routeOf E); cbn [Verdict.sensitivityFlag];
      match goal with |- context [if ?c then safe else flagged] => destruct c end;
      auto. }
  split.
  { rewrite Htrace. unfold completeTrace. rewrite <- !app_assoc. reflexivity. }
  split.
  { rewrite !terminalEvents_app.
    rewrite (terminal_progress_only _ (sensitivityTrace_progress E)).
    reflexivity. }
  split; reflexivity.
Qed.

(** X13. A failure event tells the truth about the store: whenever a run
    broadcasts a failure event, the run rejects with the event's error,
    the record is persisted as [failed] with that error as its message,
    the event is the last thing the run does and no completion event was
    broadcast. *)
Theorem failure_event_matches_failed_record
    (w : world num) (appended : list (effect num)) (error : string) :
  trace (snd (processVideo E w)) = trace w ++ appended ->
  In (Emit (ErrorEvent error)) appended ->
  exists tr,
    appended = tr ++ [Persist (toFailed error); Emit (ErrorEvent error)] /\
    terminalEvents tr = [] /\
    fst (processVideo E w) = Rejected error /\
    Job.status (store (snd (processVideo E w))) = failed /\
    Job.errorMessage (store (snd (processVideo E w))) = Some error.
Proof.
  rewrite processVideo_run. cbn [snd fst]. unfold extend at 1. cbn [trace].
  intros Happ Hin. apply app_inv_head in Happ. subst appended.
  assert (Hshape : exists tr cause,
             runTrace E = tr ++ failTrace E cause /\
             terminalEvents tr = [] /\
             runResult E (store w) = failResult E cause).
  { unfold runTrace, runResult in *.
    destruct (storeRejects E toProcessing) as [e0|].
    { exists [], e0. repeat split. }
    destruct (probeOutcome E) as [m|e|].
    - unfold finishTrace in *.
      destruct (storeRejects E (toCompleted E (sensitivityVerdict E) m)) as [e1|].
      + exists (startTrace ++ sensitivityTrace E ++
                [Emit (ProgressEvent 100 Finalizing)]), e1.
        split; [now rewrite <- !app_assoc|]. split; [|reflexivity].
        rewrite !terminalEvents_app.
        rewrite (terminal_progress_only _ (sensitivityTrace_progress E)).
        reflexivity.
      + exfalso.
        apply in_app_or in Hin. destruct Hin as [Hin|Hin].
        { simpl in Hin. intuition discriminate. }
        apply in_app_or in Hin. destruct Hin as [Hin|Hin].
        { pose proof (sensitivityTrace_progress E) as Hp.
          rewrite forallb_forall in Hp. specialize (Hp _ Hin). discriminate. }
        simpl in Hin. intuition discriminate.
    - exists startTrace, e. repeat split.
    - exfalso. simpl in Hin. intuition discriminate. }
  destruct Hshape as (tr & cause & Htrace & Hterminal & Hresult).
  assert (Hcause : storeRejects E (toFailed cause) = None /\ cause = error).
  { rewrite Htrace in Hin. apply in_app_or in Hin. destruct Hin as [Hin|Hin].
    - exfalso.
      assert (Hmem : In (Emit (ErrorEvent error)) (terminalEvents tr)).
      { unfold terminalEvents. apply filter_In. split; [assumption | reflexivity]. }
      rewrite Hterminal in Hmem. destruct Hmem.
    - unfold failTrace in Hin.
      destruct (storeRejects E (toFailed cause)); [destruct Hin|].
      split; [reflexivity|].
      simpl in Hin. destruct Hin as [Hin|[Hin|[]]]; [discriminate|].
      now inversion Hin. }
  destruct Hcause as [Haccepted ->].
  assert (Hfail : failTrace E error =
                  [Persist (toFailed error); Emit (ErrorEvent error)]).
  { unfold failTrace. now rewrite Haccepted. }
  exists tr. rewrite Htrace, Hresult, Hfail.
  unfold failResult. rewrite Haccepted.
  split; [reflexivity|]. split; [assumption|]. split; [reflexivity|].
  unfold extend. cbn [store]. rewrite replay_app. split; reflexivity.
Qed.

(** X14. A frame-rate text that is not a program stalls the job: when
    the evaluation of the text throws, [processVideo] never settles, the
    record stays [processing] at progress 0, the broadcasts stop at 20 and
    neither a completion nor a failure event is ever sent. *)
Theorem unparsable_frame_rate_stalls_the_job
    (w : world num) (report : probeData num) (thrown : string) :
  storeRejects E toProcessing = None ->
  ffprobe E = inr report ->
  jsEval (hostEval E) (frameRateText report) = Throw thrown ->
  exists w',
    processVideo E w = (Pending, w') /\
    trace w' = trace w ++
      [Persist toProcessing;
       Emit (ProgressEvent 0 StartingProcessing);
       Emit (ProgressEvent 20 ExtractingMetadata)] /\
    Job.status (store w') = processing /\
    Job.processProgress (store w') = 0.
Proof.
  intros Hstart Hprobe Hthrow.
  assert (Hout : probeOutcome E = Pending).
  { unfold probeOutcome. now rewrite Hprobe, Hthrow. }
  exists (extend w startTrace).
  rewrite processVideo_run. unfold runResult, runTrace.
  rewrite Hstart, Hout. repeat split.
Qed.

End RunOutcomes.

Lemma run_rejects_witness :
  ffprobe (Sample.probeFails (num := F64.t)) = inl "ffprobe exited with code 1" \/
  exists u, storeRejects (Sample.probeFails (num := F64.t)) u
            = Some "ffprobe exited with code 1".
Proof.
  apply (run_rejects_only_for_probe_or_store Sample.probeFails Sample.start
           (snd (processVideo Sample.probeFails Sample.start))).
  vm_compute. reflexivity.
Defined.

Lemma completed_record_witness :
  Job.status (store (snd (processVideo (num := F64.t)
                            Sample.allCalm Sample.start))) = completed.
Proof.
  destruct (completed_record_matches_completion_event
              (Sample.allCalm (num := F64.t)) Sample.start
              (snd (processVideo Sample.allCalm Sample.start))
              (store (snd (processVideo Sample.allCalm Sample.start))))
    as (metadata & tr & payload & _ & Hstore & Hstatus & _).
  - vm_compute. reflexivity.
  - exact Hstatus.
Defined.

Lemma failure_event_witness :
  Job.errorMessage (store (snd (processVideo (num := F64.t)
                                  Sample.probeFails Sample.start)))
  = Some "ffprobe exited with code 1".
Proof.
  destruct (failure_event_matches_failed_record
              (Sample.probeFails (num := F64.t)) Sample.start
              (trace (snd (processVideo Sample.probeFails Sample.start)))
              "ffprobe exited with code 1")
    as (tr & _ & _ & _ & _ & Hmessage).
  - reflexivity.
  - vm_compute. right. right. right. right. left. reflexivity.
  - exact Hmessage.
Defined.

Lemma unparsable_frame_rate_witness :
  fst (processVideo (SampleAnswers.brokenRate (num := F64.t)) Sample.start)
  = Pending.
Proof.
  destruct (unparsable_frame_rate_stalls_the_job
              (SampleAnswers.brokenRate (num := F64.t)) Sample.start
              (Sample.report (Some "30000/")) "SyntaxError")
    as (w' & Hrun & _).
  - reflexivity.
  - reflexivity.
  - reflexivity.
  - now rewrite Hrun.
Defined.

(* --------------------------------------------------------------------- *)
(** ** 14.6 The broadcast progress, in binary64 *)
(* --------------------------------------------------------------------- *)

Section BroadcastProgress.

Variable E : env F64.t.

Local Open Scope list_scope.
Local Open Scope Z_scope.

Lemma withinPercent_app (l1 l2 : list Z) :
  withinPercent (l1 ++ l2) = (withinPercent l1 && withinPercent l2)%bool.
Proof. apply forallb_app. Qed.

Lemma loop_progress_within (n : nat) :
  (n <= 5)%nat ->
  withinPercent (progressValues (loopTrace (num := F64.t) n 0 n)) = true.
Proof.
  intros Hn.
  destruct n as [|[|[|[|[|[|n]]]]]]; try lia; vm_compute; reflexivity.
Qed.

Lemma extracted_at_most_five (frames : list frame) :
  extractOutcome E 5 = inr frames -> (List.length frames <= 5)%nat.
Proof.
  unfold extractOutcome.
  destruct (screenshots E) as [e|e|files]; [discriminate | discriminate |].
  intros Hread. apply readFrames_length in Hread. simpl in Hread. lia.
Qed.

Lemma sensitivityTrace_within :
  withinPercent (progressValues (sensitivityTrace E)) = true.
Proof.
  assert (Hshots : withinPercent (progressValues (extractTrace E 5)) = true).
  { unfold extractTrace. destruct (screenshots E); reflexivity. }
  unfold sensitivityTrace, routeOf.
  destruct (truthy (apiKey E)); [|reflexivity].
  destruct (extractOutcome E 5) as [e|frames] eqn:Hout.
  - rewrite progressValues_app, withinPercent_app, Hshots. reflexivity.
  - pose proof (extracted_at_most_five frames Hout) as Hfive.
    destruct (Nat.eqb (apiSuccessCount (loopEnd E frames)) 0);
      rewrite ?progressValues_app, ?withinPercent_app, Hshots;
      unfold framesTrace; rewrite (loop_progress_within _ Hfive); reflexivity.
Qed.

(** X15. Every progress value a run broadcasts is an integer between 0
    and 100, on every path. *)
Theorem broadcast_progress_stays_within_percent (w : world F64.t) :
  exists tr,
    snd (processVideo E w) = extend w tr /\
    withinPercent (progressValues tr) = true.
Proof.
  exists (runTrace E). rewrite processVideo_run. split; [reflexivity|].
  assert (Hfail : forall e, progressValues (failTrace E e) = []).
  { intros e. unfold failTrace. destruct (storeRejects E (toFailed e)); reflexivity. }
  unfold runTrace.
  destruct (storeRejects E toProcessing); [now rewrite Hfail|].
  rewrite progressValues_app, withinPercent_app. cbn [startTrace andb].
  destruct (probeOutcome E) as [m|e|].
  - rewrite progressValues_app, !withinPercent_app, sensitivityTrace_within.
    unfold finishTrace, completeTrace.
    destruct (storeRejects E (toCompleted E (sensitivityVerdict E) m));
      simpl; rewrite ?Hfail; reflexivity.
  - simpl. now rewrite Hfail.
  - reflexivity.
Qed.

(** X16. A run whose verdict is a real one never goes back in progress:
    when [analyzeSensitivity] returns a verdict with details, the progress
    values the run broadcasts are non-decreasing. *)
Theorem real_verdict_run_never_regresses
    (w w1 : world F64.t) (v : Verdict.t F64.t) (d : Details.t F64.t) :
  analyzeSensitivity E w = (Fulfilled v, w1) ->
  Verdict.details v = Some d ->
  exists tr,
    snd (processVideo E w) = extend w tr /\
    nondecreasing (progressValues tr) = true.
Proof.
  intros Hrun Hd.
  destruct (real_verdict_shape E w w1 v d Hrun Hd)
    as (frames & Hroute & _ & _ & _).
  exists (runTrace E). rewrite processVideo_run. split; [reflexivity|].
  assert (Hfail : forall e, progressValues (failTrace E e) = []).
  { intros e. unfold failTrace. destruct (storeRejects E (toFailed e)); reflexivity. }
  destruct (probeOutcome E) as [m|e|] eqn:Hprobe.
  - now apply (classified_route_nondecreasing_binary64 E m frames).
  - unfold runTrace. rewrite Hprobe.
    destruct (storeRejects E toProcessing); [now rewrite Hfail|].
    rewrite progressValues_app, Hfail. reflexivity.
  - unfold runTrace. rewrite Hprobe.
    destruct (storeRejects E toProcessing); [now rewrite Hfail|].
    reflexivity.
Qed.

End BroadcastProgress.

Lemma real_verdict_run_witness :
  nondecreasing
    (progressValues (trace (snd (processVideo (num := F64.t)
                                   Sample.allCalm Sample.start)))) = true.
Proof.
  assert (Hd : exists d,
             Verdict.details (sensitivityVerdict (Sample.allCalm (num := F64.t)))
             = Some d) by (eexists; vm_compute; reflexivity).
  destruct Hd as [d Hd].
  destruct (real_verdict_run_never_regresses Sample.allCalm Sample.start
              (extend Sample.start (sensitivityTrace Sample.allCalm))
              (sensitivityVerdict Sample.allCalm) d)
    as (tr & Hworld & Hordered).
  - apply analyzeSensitivity_run.
  - exact Hd.
  - rewrite Hworld. exact Hordered.
Defined.

(* --------------------------------------------------------------------- *)
(** ** 14.7 The constructor and the credentials check *)
(* --------------------------------------------------------------------- *)

(** X17. The placeholder key of the sample configuration counts as no
    key for the constructor but as a key for [analyzeSensitivity]: the
    constructor builds no client and warns of a fallback, yet the frames
    are extracted and sent to the service, and as soon as one extracted
    frame is answered with status 200 the verdict is a real one, not the
    mock's. *)
Theorem placeholder_key_still_takes_the_real_route {num} `{JsNumber num}
    (E : env num) (w w1 w' : world num) (frames : list frame) (k : nat)
    (f : frame) (data : apiResult num) (v : Verdict.t num) :
  apiKey E = Some placeholderKey ->
  extractFrames E 5 w = (Fulfilled frames, w1) ->
  nth_error frames k = Some f ->
  post E k (buffer f) = HttpResponse 200 data ->
  analyzeSensitivity E w = (Fulfilled v, w') ->
  constructorClient (apiKey E) = None /\
  exists d,
    Verdict.details v = Some d /\
    (1 <= Details.successfulAnalyses d)%nat.
Proof.
  intros Hkey Hextract Hnth Hpost Hrun.
  split; [unfold constructorClient; rewrite Hkey; reflexivity|].
  rewrite extractFrames_run in Hextract.
  destruct (extractOutcome E 5) as [e|fs] eqn:Hout; [discriminate|].
  inversion Hextract; subst fs. clear Hextract.
  assert (Hcount : (1 <= apiSuccessCount (loopEnd E frames))%nat).
  { destruct (nth_error_split _ _ Hnth) as (l1 & l2 & -> & Hlen).
    unfold loopEnd. rewrite afterFrames_app, afterFrames_count.
    cbn [countAnswered]. unfold answered, apiOutcome. rewrite Hlen.
    cbn [Nat.add]. rewrite Hpost. cbn. lia. }
  rewrite analyzeSensitivity_run in Hrun. inversion Hrun; subst v. clear Hrun.
  unfold sensitivityVerdict, routeOf. rewrite Hkey, Hout.
  change (truthy (Some placeholderKey)) with (Some placeholderKey).
  cbv beta iota.
  destruct (Nat.eqb_spec (apiSuccessCount (loopEnd E frames)) 0); [lia|].
  eexists. split; [reflexivity|]. exact Hcount.
Qed.

Lemma placeholder_key_witness :
  constructorClient (apiKey (SampleAnswers.placeholder (num := F64.t))) = None /\
  exists d,
    Verdict.details (sensitivityVerdict (SampleAnswers.placeholder (num := F64.t)))
    = Some d /\
    (1 <= Details.successfulAnalyses d)%nat.
Proof.
  apply (placeholder_key_still_takes_the_real_route
           SampleAnswers.placeholder Sample.start
           (snd (extractFrames SampleAnswers.placeholder 5 Sample.start))
           (extend Sample.start (sensitivityTrace SampleAnswers.placeholder))
           [ {| path := 1; buffer := [] |}; {| path := 2; buffer := [] |};
             {| path := 3; buffer := [] |}; {| path := 4; buffer := [] |};
             {| path := 5; buffer := [] |} ]
           0 {| path := 1; buffer := [] |}
           (ResultList [{| label := Some "normal"; score := dec 9 1 |};
                        {| label := Some "nsfw"; score := dec 1 1 |}])).
  - reflexivity.
  - reflexivity.
  - reflexivity.
  - reflexivity.
  - apply analyzeSensitivity_run.
Defined.

(* ===================================================================== *)
(** * 15. Properties of the HTTP layer *)
(* ===================================================================== *)

(* --------------------------------------------------------------------- *)
(** ** 15.1 Authentication *)
(* --------------------------------------------------------------------- *)

Section Authentication.

Variable S : Http.server.

Local Open Scope list_scope.

Lemma authenticate_next (req req' : Http.request) :
  Http.authenticate S req = Http.Next req' <->
  exists u, admits S req u /\ req' = Http.withUser req u.
Proof.
  unfold Http.authenticate, admits.
  destruct (Http.tokenOf req) as [token|].
  - destruct (Http.jwtVerify S token) as [id|e] eqn:Hverify.
    + destruct (Http.findUser S id) as [[u|]|e] eqn:Hfind.
      * destruct (Http.isActive u) eqn:Hactive.
        -- split.
           ++ intros Heq. inversion Heq; subst. exists u. split; [|reflexivity].
              exists token, id. repeat split; assumption.
           ++ intros (u' & (t & i & Ht & Hv & Hf & Ha) & ->).
              inversion Ht; subst t. rewrite Hverify in Hv. inversion Hv; subst i.
              rewrite Hfind in Hf. inversion Hf; subst u'. reflexivity.
        -- split; [discriminate|].
           intros (u' & (t & i & Ht & Hv & Hf & Ha) & ->).
           inversion Ht; subst t. rewrite Hverify in Hv. inversion Hv; subst i.
           rewrite Hfind in Hf. inversion Hf; subst u'. congruence.
      * split; [discriminate|].
        intros (u' & (t & i & Ht & Hv & Hf & Ha) & ->).
        inversion Ht; subst t. rewrite Hverify in Hv. inversion Hv; subst i.
        rewrite Hfind in Hf. discriminate.
      * split; [discriminate|].
        intros (u' & (t & i & Ht & Hv & Hf & Ha) & ->).
        inversion Ht; subst t. rewrite Hverify in Hv. inversion Hv; subst i.
        rewrite Hfind in Hf. discriminate.
    + split; [discriminate|].
      intros (u' & (t & i & Ht & Hv & Hf & Ha) & ->).
      inversion Ht; subst t. rewrite Hverify in Hv. discriminate.
  - split; [discriminate|].
    intros (u' & (t & i & Ht & _) & _). discriminate.
Qed.

(** What [authenticate] answers when it does not continue. *)
Lemma authenticate_answers (req : Http.request) (r : Http.response) :
  Http.authenticate S req = Http.Respond r ->
  (exists text, r = Http.Json 401 (Http.Error text)) \/
  r = Http.Json 500 (Http.Error "Authentication failed.").
Proof.
  assert (Hfailure : forall e r',
            Http.authenticationFailure e = r' ->
            (exists text, r' = Http.Json 401 (Http.Error text)) \/
            r' = Http.Json 500 (Http.Error "Authentication failed.")).
  { intros e r' <-. unfold Http.authenticationFailure.
    destruct (String.eqb _ _); [left; eauto|].
    destruct (String.eqb _ _); [left; eauto | now right]. }
  unfold Http.authenticate.
  destruct (Http.tokenOf req) as [token|].
  - destruct (Http.jwtVerify S token) as [id|e].
    + destruct (Http.findUser S id) as [[u|]|e].
      * destruct (Http.isActive u); [discriminate|].
        intros Heq. inversion Heq; subst. left. eauto.
      * intros Heq. inversion Heq; subst. left. eauto.
      * intros Heq. inversion Heq; subst. now apply (Hfailure e).
    + intros Heq. inversion Heq; subst. now apply (Hfailure e).
  - intros Heq. inversion Heq; subst. left. eauto.
Qed.

Lemma authenticate_passes_no_error (req : Http.request) (e : Http.thrown) :
  Http.authenticate S req <> Http.Fail e.
Proof.
  unfold Http.authenticate, Http.authenticationFailure.
  destruct (Http.tokenOf req) as [token|]; [|discriminate].
  destruct (Http.jwtVerify S token) as [id|e']; [|discriminate].
  destruct (Http.findUser S id) as [[u|]|e']; try discriminate.
  destruct (Http.isActive u); discriminate.
Qed.

(** X18. [authenticate] lets a request through only for an active user:
    it continues exactly when the token verifies to the identifier of a
    user the store knows and who is active, and then with that user
    attached and nothing else changed.  Otherwise it answers 401, or 500
    when an error other than the two of the JWT library was thrown; it
    never passes an error on. *)
Theorem authenticate_admits_only_active_users (req : Http.request) :
  (forall req',
     Http.authenticate S req = Http.Next req' <->
     exists u, admits S req u /\ req' = Http.withUser req u) /\
  (forall r,
     Http.authenticate S req = Http.Respond r ->
     (exists text, r = Http.Json 401 (Http.Error text)) \/
     r = Http.Json 500 (Http.Error "Authentication failed.")) /\
  (forall e, Http.authenticate S req <> Http.Fail e).
Proof.
  split; [intros req'; apply authenticate_next|].
  split; [intros r; apply authenticate_answers|].
  intros e; apply authenticate_passes_no_error.
Qed.

Lemma splitOn_word (word : string) :
  blankFree word = true -> Http.splitOn " " word = [word].
Proof.
  induction word as [|c word IH]; simpl; [reflexivity|].
  intros Hfree. apply andb_true_iff in Hfree. destruct Hfree as [Hc Hword].
  apply negb_true_iff in Hc. rewrite Hc, (IH Hword). reflexivity.
Qed.

Lemma splitOn_first (word rest : string) :
  blankFree word = true ->
  Http.splitOn " " (word ++ String " " rest)%string =
  word :: Http.splitOn " " rest.
Proof.
  induction word as [|c word IH]; simpl; [reflexivity|].
  intros Hfree. apply andb_true_iff in Hfree. destruct Hfree as [Hc Hword].
  apply negb_true_iff in Hc. rewrite Hc, (IH Hword). reflexivity.
Qed.

(** X19. The token is the second word of the [Authorization] header,
    whatever the first word is: the scheme is not checked, further words
    are ignored, and the [token] of the query string is not looked at once
    the header carries a token.  Without a header, or with a header of a
    single word, the token of the query string is taken. *)
Theorem token_is_the_second_word_of_the_header
    (req : Http.request) (scheme token : string) :
  blankFree scheme = true -> blankFree token = true -> token <> EmptyString ->
  (forall more,
     Http.authorization req = Some (scheme ++ String " " token)%string \/
     Http.authorization req =
       Some (scheme ++ String " " (token ++ String " " more))%string ->
     Http.tokenOf req = Some token) /\
  (Http.authorization req = None \/ Http.authorization req = Some scheme ->
   Http.tokenOf req = truthy (Http.queryToken req)).
Proof.
  intros Hscheme Htoken Hsome.
  assert (Htruthy : truthy (Some token) = Some token).
  { destruct token; [now elim Hsome | reflexivity]. }
  split.
  - intros more [Hheader|Hheader]; unfold Http.tokenOf; rewrite Hheader.
    + rewrite (splitOn_first _ _ Hscheme), (splitOn_word _ Htoken).
      cbn [nth_error]. now rewrite Htruthy.
    + rewrite (splitOn_first _ _ Hscheme), (splitOn_first _ _ Htoken).
      cbn [nth_error]. now rewrite Htruthy.
  - intros [Hheader|Hheader]; unfold Http.tokenOf; rewrite Hheader.
    + reflexivity.
    + rewrite (splitOn_word _ Hscheme). reflexivity.
Qed.

End Authentication.

Lemma token_witness :
  Http.tokenOf (SampleHttp.request None None) = Some "good".
Proof.
  destruct (token_is_the_second_word_of_the_header
              (SampleHttp.request None None) "Bearer" "good")
    as [Hheader _].
  - reflexivity.
  - reflexivity.
  - discriminate.
  - apply (Hheader EmptyString). left. reflexivity.
Defined.

(* --------------------------------------------------------------------- *)
(** ** 15.2 The routes that change a video *)
(* --------------------------------------------------------------------- *)

Section ChangingRoutes.

Variable S : Http.server.

Local Open Scope list_scope.

(** The two middleware in front of the changing routes. *)
Lemma editors_and_admins_pass (req : Http.request) (rest : Http.request -> Http.reply)
    (r : Http.response) (acts : list Http.action) :
  Http.guarded S (Http.authenticate S req) (fun req1 =>
    Http.guarded S (Http.requireRole ["editor"; "admin"] req1) rest) = (r, acts) ->
  acts <> [] ->
  exists u,
    admits S req u /\
    (Http.role u = "editor" \/ Http.role u = "admin") /\
    rest (Http.withUser req u) = (r, acts).
Proof.
  intros Hrun Hacts.
  destruct (Http.authenticate S req) as [req1|r1|e] eqn:Hauth; simpl in Hrun;
    [| inversion Hrun; subst; now elim Hacts
     | inversion Hrun; subst; now elim Hacts].
  apply authenticate_next in Hauth. destruct Hauth as (u & Hadmits & ->).
  unfold Http.requireRole in Hrun. cbn [Http.withUser Http.reqUser] in Hrun.
  unfold Http.includesRole in Hrun. cbn [existsb] in Hrun.
  destruct (String.eqb_spec (Http.role u) "editor") as [Heditor|Hne1].
  - exists u. split; [assumption|]. split; [now left | exact Hrun].
  - destruct (String.eqb_spec (Http.role u) "admin") as [Hadmin|Hne2].
    + exists u. split; [assumption|]. split; [now right | exact Hrun].
    + simpl in Hrun. inversion Hrun; subst. now elim Hacts.
Qed.

Lemma allowed_to_change (u : Http.user) (v : Http.video) :
  Http.role u = "editor" \/ Http.role u = "admin" ->
  Http.notOwnerNorAdmin u v = false -> mayChange u v.
Proof.
  unfold Http.notOwnerNorAdmin, mayChange. intros Hrole Hcheck.
  apply andb_false_iff in Hcheck.
  destruct Hcheck as [Hadmin|Howner].
  - apply negb_false_iff, String.eqb_eq in Hadmin. now left.
  - apply negb_false_iff, String.eqb_eq in Howner.
    destruct Hrole as [Heditor|Hadmin]; [right; split; assumption | now left].
Qed.

(** X20. Through [PUT /:id] the title of a video is changed only for an
    administrator or for the editor who owns the video: whenever the
    route saves a title, the caller's token verifies to an active user
    with that standing, the video exists, the title of the body is not
    empty, what is saved is that title trimmed, and the answer is the 200
    of a successful update. *)
Theorem title_changes_only_for_owner_or_admin
    (req : Http.request) (r : Http.response) (acts : list Http.action)
    (id newTitle : string) :
  Http.updateRoute S req = (r, acts) ->
  In (Http.SetTitle id newTitle) acts ->
  exists u v given,
    admits S req u /\
    Http.findVideo S (Http.paramId req) = Http.Returns (Some v) /\
    mayChange u v /\
    truthy (Http.bodyTitle req) = Some given /\
    newTitle = Http.trim given /\
    id = Http.videoId v /\
    acts = [Http.SetTitle id newTitle] /\
    r = Http.Json 200
          (Http.Updated id newTitle (Http.status v) (Http.sensitivityFlag v)).
Proof.
  unfold Http.updateRoute. intros Hrun Hin.
  destruct (editors_and_admins_pass req _ r acts Hrun) as (u & Hadmits & Hrole & Hrest).
  { intros ->. destruct Hin. }
  clear Hrun. unfold Http.updateVideo in Hrest.
  cbn [Http.withUser Http.bodyTitle Http.paramId Http.reqUser] in Hrest.
  destruct (truthy (Http.bodyTitle req)) as [given|] eqn:Htitle;
    [|inversion Hrest; subst; destruct Hin].
  destruct (Http.findVideo S (Http.paramId req)) as [[v|]|e] eqn:Hfind;
    try (inversion Hrest; subst; destruct Hin).
  destruct (String.eqb (Http.role u) "viewer");
    [inversion Hrest; subst; destruct Hin|].
  destruct (Http.notOwnerNorAdmin u v) eqn:Hcheck;
    [inversion Hrest; subst; destruct Hin|].
  match type of Hrest with
  | context [Http.saveVideo S ?d] =>
      destruct (Http.saveVideo S d); [inversion Hrest; subst; destruct Hin|]
  end.
  inversion Hrest; subst. clear Hrest.
  destruct Hin as [Heq|[]]. inversion Heq; subst.
  exists u, v, given. cbn [Http.videoId Http.title Http.status Http.sensitivityFlag].
  repeat split; try assumption; try reflexivity.
  now apply allowed_to_change.
Qed.

(** X21. What the delete route does to the disk and the store it does
    only for an administrator or for the editor who owns the video: every
    action of [DELETE /:id] is the removal of that video's file or of its
    record, the file first, and the record is removed only after the file
    is gone or was not there. *)
Theorem video_is_removed_only_for_owner_or_admin
    (req : Http.request) (r : Http.response) (acts : list Http.action) :
  Http.deleteRoute S req = (r, acts) ->
  acts <> [] ->
  exists u v,
    admits S req u /\
    Http.findVideo S (Http.paramId req) = Http.Returns (Some v) /\
    mayChange u v /\
    ((Http.existsSync S (Http.videoPath v) = true /\
      acts = [Http.Unlink (Http.videoPath v) true; Http.Remove (Http.paramId req)] /\
      r = Http.Json 200 (Http.Deleted (Http.paramId req))) \/
     (Http.existsSync S (Http.videoPath v) = false /\
      acts = [Http.Remove (Http.paramId req)] /\
      r = Http.Json 200 (Http.Deleted (Http.paramId req))) \/
     (Http.existsSync S (Http.videoPath v) = true /\
      acts = [Http.Unlink (Http.videoPath v) true] /\
      exists e, Http.deleteVideoRecord S (Http.paramId req) = Some e /\
        r = Http.Json 500
              (Http.ErrorDetails "Failed to delete video" (Http.message e))) \/
     (Http.existsSync S (Http.videoPath v) = true /\
      acts = [Http.Unlink (Http.videoPath v) false] /\
      exists e, Http.unlinkSync S 0 (Http.videoPath v) = Some e /\
        r = Http.Json 500
              (Http.ErrorDetails "Failed to delete video" (Http.message e)))).
Proof.
  unfold Http.deleteRoute. intros Hrun Hacts.
  destruct (editors_and_admins_pass req _ r acts Hrun Hacts)
    as (u & Hadmits & Hrole & Hrest).
  clear Hrun. unfold Http.deleteVideo in Hrest.
  cbn [Http.withUser Http.paramId Http.reqUser] in Hrest.
  destruct (Http.findVideo S (Http.paramId req)) as [[v|]|e] eqn:Hfind;
    try (inversion Hrest; subst; now elim Hacts).
  destruct (String.eqb (Http.role u) "viewer");
    [inversion Hrest; subst; now elim Hacts|].
  destruct (Http.notOwnerNorAdmin u v) eqn:Hcheck;
    [inversion Hrest; subst; now elim Hacts|].
  exists u, v. split; [assumption|]. split; [reflexivity|].
  split; [now apply allowed_to_change|].
  destruct (Http.existsSync S (Http.videoPath v)).
  - destruct (Http.unlinkSync S 0 (Http.videoPath v)) as [e|] eqn:Hunlink.
    + right. right. right. inversion Hrest; subst.
      split; [reflexivity|]. split; [reflexivity|]. exists e. split; reflexivity.
    + destruct (Http.deleteVideoRecord S (Http.paramId req)) as [e|] eqn:Hdelete.
      * right. right. left. inversion Hrest; subst.
        split; [reflexivity|]. split; [reflexivity|]. exists e. split; reflexivity.
      * left. inversion Hrest; subst. repeat split.
  - destruct (Http.deleteVideoRecord S (Http.paramId req)) as [e|] eqn:Hdelete.
    + inversion Hrest; subst. now elim Hacts.
    + right. left. inversion Hrest; subst. repeat split.
Qed.

(** X22. The handlers' own check of the viewer role never answers on
    these routes: [requireRole] has turned a viewer away before, with the
    message that lists the roles required. *)
Theorem viewer_check_of_the_handlers_is_never_reached (req : Http.request) :
  fst (Http.updateRoute S req) <>
    Http.Json 403 (Http.Error "Viewers cannot edit videos") /\
  fst (Http.deleteRoute S req) <>
    Http.Json 403 (Http.Error "Viewers cannot delete videos") /\
  (forall u, admits S req u -> Http.role u = "viewer" ->
     Http.updateRoute S req =
       (Http.Json 403 (Http.RoleDenied ["editor"; "admin"] "viewer"), []) /\
     Http.deleteRoute S req =
       (Http.Json 403 (Http.RoleDenied ["editor"; "admin"] "viewer"), [])).
Proof.
  assert (Hauth : forall (rest : Http.request -> Http.reply) text,
            (forall u, Http.role u <> "viewer" ->
                       fst (rest (Http.withUser req u))
                       <> Http.Json 403 (Http.Error text)) ->
            fst (Http.guarded S (Http.authenticate S req) (fun req1 =>
                   Http.guarded S (Http.requireRole ["editor"; "admin"] req1) rest))
            <> Http.Json 403 (Http.Error text)).
  { intros rest text Hrest.
    destruct (Http.authenticate S req) as [req1|r1|e] eqn:Hstep; cbn [Http.guarded fst].
    - apply authenticate_next in Hstep. destruct Hstep as (u & _ & ->).
      unfold Http.requireRole, Http.includesRole.
      cbn [Http.withUser Http.reqUser existsb].
      destruct (String.eqb_spec (Http.role u) "editor") as [Heditor|Hne1].
      + cbn [orb Http.guarded]. apply Hrest. rewrite Heditor. discriminate.
      + destruct (String.eqb_spec (Http.role u) "admin") as [Hadmin|Hne2].
        * cbn [orb Http.guarded]. apply Hrest. rewrite Hadmin. discriminate.
        * cbn [orb Http.guarded fst]. discriminate.
    - destruct (authenticate_answers S req r1 Hstep) as [[t ->]| ->]; discriminate.
    - unfold Http.errorHandler. destruct (Http.multerCode e) as [code|];
        [destruct (String.eqb code _)|]; discriminate. }
  split; [|split].
  - unfold Http.updateRoute. apply Hauth.
    intros u Hrole. unfold Http.updateVideo.
    cbn [Http.withUser Http.bodyTitle Http.paramId Http.reqUser].
    destruct (truthy (Http.bodyTitle req)); [|discriminate].
    destruct (Http.findVideo S (Http.paramId req)) as [[v|]|e]; try discriminate.
    destruct (String.eqb_spec (Http.role u) "viewer"); [contradiction|].
    destruct (Http.notOwnerNorAdmin u v); [discriminate|].
    match goal with
    | |- context [Http.saveVideo S ?d] => destruct (Http.saveVideo S d)
    end; discriminate.
  - unfold Http.deleteRoute. apply Hauth.
    intros u Hrole. unfold Http.deleteVideo.
    cbn [Http.withUser Http.paramId Http.reqUser].
    destruct (Http.findVideo S (Http.paramId req)) as [[v|]|e]; try discriminate.
    destruct (String.eqb_spec (Http.role u) "viewer"); [contradiction|].
    destruct (Http.notOwnerNorAdmin u v); [discriminate|].
    destruct (Http.existsSync S (Http.videoPath v));
      [destruct (Http.unlinkSync S 0 (Http.videoPath v)); [discriminate|]|];
      destruct (Http.deleteVideoRecord S (Http.paramId req)); discriminate.
  - intros u Hadmits Hviewer.
    assert (Hstep : Http.authenticate S req = Http.Next (Http.withUser req u)).
    { apply authenticate_next. exists u. split; [assumption | reflexivity]. }
    unfold Http.updateRoute, Http.deleteRoute. rewrite Hstep.
    cbn [Http.guarded]. unfold Http.requireRole, Http.includesRole.
    cbn [Http.withUser Http.reqUser existsb]. rewrite Hviewer.
    split; reflexivity.
Qed.

End ChangingRoutes.

Lemma title_change_witness :
  exists u v,
    admits SampleHttp.server (SampleHttp.request (Some "  Launch day ") None) u /\
    mayChange u v.
Proof.
  destruct (title_changes_only_for_owner_or_admin SampleHttp.server
              (SampleHttp.request (Some "  Launch day ") None)
              (Http.Json 200 (Http.Updated "v1" "Launch day" completed safe))
              [Http.SetTitle "v1" "Launch day"] "v1" "Launch day")
    as (u & v & given & Hadmits & _ & Hmay & _).
  - reflexivity.
  - left. reflexivity.
  - exists u, v. split; assumption.
Defined.

Lemma video_removal_witness :
  exists u v,
    admits SampleHttp.server (SampleHttp.request None None) u /\ mayChange u v.
Proof.
  destruct (video_is_removed_only_for_owner_or_admin SampleHttp.server
              (SampleHttp.request None None)
              (Http.Json 200 (Http.Deleted "v1"))
              [Http.Unlink "uploads/video-1.mp4" true; Http.Remove "v1"])
    as (u & v & Hadmits & _ & Hmay & _).
  - reflexivity.
  - discriminate.
  - exists u, v. split; assumption.
Defined.

(* --------------------------------------------------------------------- *)
(** ** 15.3 The upload, caller of the processor *)
(* --------------------------------------------------------------------- *)

Section Upload.

Variable S : Http.server.

Local Open Scope list_scope.

(** X23. [uploadVideo] answers 201 exactly when it has saved the record
    and scheduled its processing, once, for the uploaded file and the new
    record; the record saved is [pending], owned by the caller and carries
    the trimmed title.  In every other case with a file uploaded the
    handler answers 400 or 500, saves and schedules nothing, and has tried
    to delete the file. *)
Theorem upload_schedules_exactly_when_it_answers_201
    (req : Http.request) (f : Http.upload) (r : Http.response)
    (acts : list Http.action) :
  Http.file req = Some f ->
  Http.uploadVideo S req = (r, acts) ->
  (exists u given v,
     Http.reqUser req = Some u /\
     truthy (Http.bodyTitle req) = Some given /\
     Http.saveVideo S v = None /\
     Http.title v = Http.trim given /\
     Http.status v = pending /\
     Http.ownerId v = Http.userId u /\
     Http.videoPath v = Http.path f /\
     acts = [Http.Insert v; Http.Schedule (Http.path f) (Http.videoId v)] /\
     r = Http.Json 201
           (Http.Uploaded (Http.videoId v) (Http.title v) (Http.videoFilename v)
              (Http.videoSize v) pending (Http.uploadDate v) (Http.ownerId v)
              (Http.videoOrganization v))) \/
  ((exists b, r = Http.Json 400 b \/ r = Http.Json 500 b) /\
   (exists done, In (Http.Unlink (Http.path f) done) acts) /\
   (forall a, In a acts -> exists p done, a = Http.Unlink p done)).
Proof.
  intros Hfile. unfold Http.uploadVideo, Http.uploadFailure, Http.after.
  rewrite Hfile.
  destruct (truthy (Http.bodyTitle req)) as [given|] eqn:Htitle.
  - destruct (Http.reqUser req) as [u|] eqn:Huser.
    + match goal with
      | |- context [Http.saveVideo S ?d] =>
          set (v := d); destruct (Http.saveVideo S v) as [e|] eqn:Hsave
      end.
      * intros Heq. inversion Heq; subst. right.
        split; [eexists; right; reflexivity|]. split.
        -- eexists. left. reflexivity.
        -- intros a [<-|[]]. eauto.
      * intros Heq. inversion Heq; subst. left.
        exists u, given, v. repeat split; assumption.
    + intros Heq. inversion Heq; subst. right.
      split; [eexists; right; reflexivity|]. split.
      * eexists. left. reflexivity.
      * intros a [<-|[]]. eauto.
  - destruct (Http.unlinkSync S 0 (Http.path f)) as [e|].
    + cbn [fst snd app]. intros Heq. inversion Heq; subst. right.
      split; [eexists; right; reflexivity|]. split.
      * eexists. left. reflexivity.
      * intros a [<-|[<-|[]]]; eauto.
    + intros Heq. inversion Heq; subst. right.
      split; [eexists; left; reflexivity|]. split.
      * eexists. left. reflexivity.
      * intros a [<-|[]]. eauto.
Qed.

(** Where [uploadVideo] schedules the processing. *)
Lemma uploadVideo_scheduled
    (req : Http.request) (f : Http.upload) (r : Http.response)
    (acts : list Http.action) (p id : string) :
  Http.file req = Some f ->
  Http.uploadVideo S req = (r, acts) ->
  In (Http.Schedule p id) acts ->
  exists u given b,
    Http.reqUser req = Some u /\
    truthy (Http.bodyTitle req) = Some given /\
    p = Http.path f /\ id = Http.newId S /\
    r = Http.Json 201 b.
Proof.
  intros Hfile. unfold Http.uploadVideo, Http.uploadFailure, Http.after.
  rewrite Hfile.
  destruct (truthy (Http.bodyTitle req)) as [given|] eqn:Htitle.
  - destruct (Http.reqUser req) as [u|] eqn:Huser.
    + match goal with
      | |- context [Http.saveVideo S ?d] =>
          set (v := d); destruct (Http.saveVideo S v) as [e|] eqn:Hsave
      end.
      * intros Heq Hin. inversion Heq; subst.
        destruct Hin as [Hin|[]]; discriminate.
      * intros Heq Hin. inversion Heq; subst.
        destruct Hin as [Hin|[Hin|[]]]; [discriminate|].
        inversion Hin; subst. exists u, given. eexists.
        repeat split; reflexivity.
    + intros Heq Hin. inversion Heq; subst.
      destruct Hin as [Hin|[]]; discriminate.
  - destruct (Http.unlinkSync S 0 (Http.path f)) as [e|].
    + cbn [fst snd app]. intros Heq Hin. inversion Heq; subst.
      destruct Hin as [Hin|[Hin|[]]]; discriminate.
    + intros Heq Hin. inversion Heq; subst.
      destruct Hin as [Hin|[]]; discriminate.
Qed.

(** X24. Through [POST /upload] processing is scheduled only for an
    active editor or administrator who sent a file of an allowed video
    type with a title: the file is the one the disk storage wrote for
    that part, and the answer is 201. *)
Theorem processing_starts_only_for_an_accepted_upload
    (req : Http.request) (r : Http.response) (acts : list Http.action)
    (p id : string) :
  Http.file req = None ->
  Http.uploadRoute S req = (r, acts) ->
  In (Http.Schedule p id) acts ->
  exists u part f given b,
    admits S req u /\
    (Http.role u = "editor" \/ Http.role u = "admin") /\
    Http.incoming req = Some part /\
    In (Http.partType part) Http.allowedMimeTypes /\
    Http.storeFile S part = Http.Returns f /\
    truthy (Http.bodyTitle req) = Some given /\
    p = Http.path f /\ id = Http.newId S /\
    r = Http.Json 201 b.
Proof.
  unfold Http.uploadRoute. intros Hnone Hrun Hin.
  destruct (editors_and_admins_pass S req _ r acts Hrun) as (u & Hadmits & Hrole & Hrest).
  { intros ->. destruct Hin. }
  clear Hrun. unfold Http.uploadSingle in Hrest.
  cbn [Http.withUser Http.incoming] in Hrest.
  destruct (Http.incoming req) as [part|] eqn:Hpart.
  - unfold Http.fileFilter in Hrest.
    destruct (existsb (String.eqb (Http.partType part)) Http.allowedMimeTypes)
      eqn:Hallowed; [|cbn in Hrest; inversion Hrest; subst; destruct Hin].
    destruct (Http.storeFile S part) as [f|e] eqn:Hstored;
      [|cbn in Hrest; inversion Hrest; subst; destruct Hin].
    cbn [Http.guarded] in Hrest.
    destruct (uploadVideo_scheduled
                (Http.withFile (Http.withUser req u) f) f r acts p id
                eq_refl Hrest Hin)
      as (u' & given & b & Huser & Htitle & -> & -> & ->).
    cbn [Http.withFile Http.withUser Http.reqUser Http.bodyTitle] in Huser, Htitle.
    exists u, part, f, given, b.
    repeat split; try assumption; try reflexivity.
    apply existsb_exists in Hallowed. destruct Hallowed as (t & Ht & Heq).
    apply String.eqb_eq in Heq. now subst.
  - cbn [Http.guarded] in Hrest. unfold Http.uploadVideo in Hrest.
    cbn [Http.withUser Http.file] in Hrest. rewrite Hnone in Hrest.
    inversion Hrest; subst. destruct Hin.
Qed.

(** X25. A file part of a type outside the six video types is refused
    with a plain error, which the error handler of the application
    answers as 500 [Internal server error] (with the reason only in
    development), not as a 400; nothing is written, saved or
    scheduled. *)
Theorem refused_file_type_is_answered_500
    (req : Http.request) (u : Http.user) (part : Http.incomingFile) :
  admits S req u ->
  Http.role u = "editor" \/ Http.role u = "admin" ->
  Http.incoming req = Some part ->
  ~ In (Http.partType part) Http.allowedMimeTypes ->
  Http.uploadRoute S req =
    (Http.Json 500
       (Http.InternalError
          (if Http.development S
           then "Invalid file type. Only video files are allowed."
           else "Something went wrong")), []).
Proof.
  intros Hadmits Hrole Hpart Hrefused.
  assert (Hstep : Http.authenticate S req = Http.Next (Http.withUser req u)).
  { apply authenticate_next. exists u. split; [assumption | reflexivity]. }
  assert (Hpass : Http.requireRole ["editor"; "admin"] (Http.withUser req u)
                  = Http.Next (Http.withUser req u)).
  { unfold Http.requireRole, Http.includesRole.
    cbn [Http.withUser Http.reqUser existsb].
    destruct Hrole as [-> | ->]; reflexivity. }
  assert (Hfilter : existsb (String.eqb (Http.partType part))
                            Http.allowedMimeTypes = false).
  { destruct (existsb _ _) eqn:Hex; [|reflexivity].
    apply existsb_exists in Hex. destruct Hex as (t & Ht & Heq).
    apply String.eqb_eq in Heq. subst t. contradiction. }
  unfold Http.uploadRoute. rewrite Hstep. cbn [Http.guarded].
  rewrite Hpass. cbn [Http.guarded].
  unfold Http.uploadSingle, Http.fileFilter.
  cbn [Http.withUser Http.incoming]. rewrite Hpart, Hfilter.
  reflexivity.
Qed.

End Upload.

Lemma upload_witness :
  exists b, fst (Http.uploadRoute SampleHttp.server
                   (SampleHttp.request (Some "Holiday")
                      (Some SampleHttp.moviePart)))
            = Http.Json 201 b.
Proof.
  destruct (processing_starts_only_for_an_accepted_upload SampleHttp.server
              (SampleHttp.request (Some "Holiday") (Some SampleHttp.moviePart))
              (fst (Http.uploadRoute SampleHttp.server
                      (SampleHttp.request (Some "Holiday")
                         (Some SampleHttp.moviePart))))
              (snd (Http.uploadRoute SampleHttp.server
                      (SampleHttp.request (Some "Holiday")
                         (Some SampleHttp.moviePart))))
              "uploads/video-2.mp4" "v2")
    as (u & part & f & given & b & _ & _ & _ & _ & _ & _ & _ & _ & Hanswer).
  - reflexivity.
  - reflexivity.
  - right. left. reflexivity.
  - exists b. exact Hanswer.
Defined.

Lemma upload_handler_witness :
  exists v,
    snd (Http.uploadVideo SampleHttp.server
           (Http.withFile
              (Http.withUser (SampleHttp.request (Some " Holiday ") None)
                 SampleHttp.alice)
              {| Http.path := "uploads/video-2.mp4";
                 Http.filename := "video-2.mp4";
                 Http.originalname := "holiday.mp4";
                 Http.size := 2097152;
                 Http.mimetype := "video/mp4" |}))
    = [Http.Insert v; Http.Schedule "uploads/video-2.mp4" (Http.videoId v)] /\
    Http.title v = "Holiday".
Proof.
  destruct (upload_schedules_exactly_when_it_answers_201 SampleHttp.server
              (Http.withFile
                 (Http.withUser (SampleHttp.request (Some " Holiday ") None)
                    SampleHttp.alice)
                 {| Http.path := "uploads/video-2.mp4";
                    Http.filename := "video-2.mp4";
                    Http.originalname := "holiday.mp4";
                    Http.size := 2097152;
                    Http.mimetype := "video/mp4" |})
              {| Http.path := "uploads/video-2.mp4";
                 Http.filename := "video-2.mp4";
                 Http.originalname := "holiday.mp4";
                 Http.size := 2097152;
                 Http.mimetype := "video/mp4" |}
              (fst (Http.uploadVideo SampleHttp.server
                      (Http.withFile
                         (Http.withUser (SampleHttp.request (Some " Holiday ") None)
                            SampleHttp.alice)
                         {| Http.path := "uploads/video-2.mp4";
                            Http.filename := "video-2.mp4";
                            Http.originalname := "holiday.mp4";
                            Http.size := 2097152;
                            Http.mimetype := "video/mp4" |})))
              (snd (Http.uploadVideo SampleHttp.server
                      (Http.withFile
                         (Http.withUser (SampleHttp.request (Some " Holiday ") None)
                            SampleHttp.alice)
                         {| Http.path := "uploads/video-2.mp4";
                            Http.filename := "video-2.mp4";
                            Http.originalname := "holiday.mp4";
                            Http.size := 2097152;
                            Http.mimetype := "video/mp4" |}))))
    as [(u & given & v & _ & Hgiven & _ & Htitle & _ & _ & _ & Hacts & _)
       |((b & Hcode) & _)].
  - reflexivity.
  - reflexivity.
  - exists v. split; [exact Hacts|].
    rewrite Htitle. inversion Hgiven. reflexivity.
  - exfalso. destruct Hcode as [Hcode|Hcode]; discriminate Hcode.
Defined.

Lemma refused_file_type_witness :
  Http.uploadRoute SampleHttp.server
    (SampleHttp.request (Some "Holiday") (Some SampleHttp.picturePart))
  = (Http.Json 500 (Http.InternalError "Something went wrong"), []).
Proof.
  apply (refused_file_type_is_answered_500 SampleHttp.server
           (SampleHttp.request (Some "Holiday") (Some SampleHttp.picturePart))
           SampleHttp.alice SampleHttp.picturePart).
  - exists "good", (Some "u1"). repeat split.
  - left. reflexivity.
  - reflexivity.
  - simpl. intros Hin.
    repeat (destruct Hin as [Hin|Hin]; [discriminate|]). exact Hin.
Defined.

(* --------------------------------------------------------------------- *)
(** ** 15.4 Whole numbers in binary64 *)
(* --------------------------------------------------------------------- *)

Section Binary64Integers.

Local Open Scope Z_scope.

Lemma Zdigits2_shift (c j : Z) :
  0 < c -> 0 <= j -> Zdigits2 (c * 2 ^ j) = Zdigits2 c + j.
Proof.
  intros Hc Hj.
  pose proof (pow2_pos j Hj) as Hp.
  pose proof (Zdigits2_nonneg c) as Hd.
  assert (Hd1 : 1 <= Zdigits2 c).
  { pose proof (Zdigits2_gt c 0 ltac:(lia) ltac:(simpl; lia)). lia. }
  destruct (Zdigits2_bound c ltac:(lia)) as [Hhi|Hz]; [|lia].
  pose proof (Zdigits2_lower c Hc) as Hlo.
  assert (Hle : Zdigits2 (c * 2 ^ j) <= Zdigits2 c + j).
  { apply Zdigits2_le_of_lt; [nia | lia |].
    rewrite pow2_split by lia. nia. }
  assert (Hge : Zdigits2 c + j - 1 < Zdigits2 (c * 2 ^ j)).
  { apply Zdigits2_gt; [lia|].
    replace (Zdigits2 c + j - 1) with ((Zdigits2 c - 1) + j) by lia.
    rewrite pow2_split by lia. nia. }
  lia.
Qed.

Lemma round_of_full_mantissa (s : bool) (m e : Z) :
  Zdigits2 m = 53 -> 0 < m -> -1074 <= e <= 971 ->
  binary_round_aux F64.prec F64.emax s m e loc_Exact =
  S754_finite s (Z.to_pos m) e.
Proof.
  intros Hd Hm He.
  destruct (binary_round_aux_spec s m e loc_Exact ltac:(lia))
    as (q' & _ & Hexact & _ & _ & _ & _ & ->).
  rewrite Hd, fexp64_eq in *.
  assert (Hk : Z.max (53 + e - 53) (-1074) - e = 0) by lia.
  rewrite Hk in *. cbn [Z.ltb Z.compare] in *.
  rewrite (Hexact eq_refl ltac:(lia)).
  unfold rounded.
  destruct (Zdigits2_bound m ltac:(lia)) as [Hlt|Hz]; [|lia].
  rewrite Hd in Hlt.
  destruct (Z.eqb_spec m 0); [lia|].
  destruct (Z.ltb_spec m (2 ^ 53)); [|lia].
  destruct (Z.leb_spec e 971); [reflexivity | lia].
Qed.

(** Rounding [c * 2^j] at exponent [-j] gives the value of [c], whatever
    [j] is. *)
Lemma binary_round_whole (s : bool) (c j : Z) :
  0 < c < 2 ^ 53 -> 0 <= j ->
  binary_round F64.prec F64.emax s (Z.to_pos (c * 2 ^ j)) (- j) =
  S754_finite s (wholeMantissa c) (Zdigits2 c - 53).
Proof.
  intros Hc Hj.
  pose proof (pow2_pos j Hj) as Hp.
  set (d := Zdigits2 c).
  assert (Hd : 1 <= d <= 53).
  { unfold d. split.
    - pose proof (Zdigits2_gt c 0 ltac:(lia) ltac:(simpl; lia)). lia.
    - apply Zdigits2_le_of_lt; lia. }
  assert (Hpos : 0 < c * 2 ^ j) by nia.
  unfold binary_round.
  change (Zpos (digits2_pos (Z.to_pos (c * 2 ^ j))))
    with (Zdigits2 (Zpos (Z.to_pos (c * 2 ^ j)))).
  rewrite Z2Pos.id by assumption.
  rewrite (Zdigits2_shift c j) by lia. fold d.
  rewrite fexp64_eq.
  replace (Z.max (d + j + - j - 53) (-1074)) with (d - 53) by lia.
  unfold shl_align.
  destruct (d - 53 - - j) as [|k|k] eqn:Hk.
  - (* the mantissa has 53 bits already *)
    rewrite Z2Pos.id by assumption.
    assert (Hj53 : j = 53 - d) by lia.
    rewrite round_of_full_mantissa.
    + unfold wholeMantissa. fold d. rewrite Hj53.
      f_equal. lia.
    + rewrite Zdigits2_shift by lia. fold d. lia.
    + assumption.
    + lia.
  - (* more than 53 bits: the low zeros are shifted out *)
    rewrite Z2Pos.id by assumption.
    destruct (binary_round_aux_spec s (c * 2 ^ j) (- j) loc_Exact ltac:(lia))
      as (q' & _ & _ & Hdown & _ & _ & _ & ->).
    rewrite Zdigits2_shift, fexp64_eq in * by lia. fold d in Hdown |- *.
    replace (Z.max (d + j + - j - 53) (-1074) - - j) with (Zpos k) in * by lia.
    cbn [Z.ltb Z.compare] in *.
    assert (Hsplit : c * 2 ^ j = (c * 2 ^ (53 - d)) * 2 ^ Zpos k).
    { replace j with ((53 - d) + Zpos k) at 1 by lia.
      rewrite pow2_split by lia. lia. }
    pose proof (pow2_pos (Zpos k) ltac:(lia)) as Hpk.
    pose proof (pow2_pos (53 - d) ltac:(lia)) as Hpd.
    assert (Hrem : (c * 2 ^ j) mod 2 ^ Zpos k = 0).
    { rewrite Hsplit. apply Z.mod_mul. lia. }
    assert (Hquot : (c * 2 ^ j) / 2 ^ Zpos k = c * 2 ^ (53 - d)).
    { rewrite Hsplit. apply Z.div_mul. lia. }
    rewrite (Hdown ltac:(lia) ltac:(rewrite Hrem; lia)), Hquot.
    replace (- j + Zpos k) with (d - 53) by lia.
    assert (Hfull : c * 2 ^ (53 - d) < 2 ^ 53).
    { destruct (Zdigits2_bound c ltac:(lia)) as [Hlt|Hz]; [|lia].
      fold d in Hlt.
      assert (2 ^ 53 = 2 ^ d * 2 ^ (53 - d)).
      { rewrite <- pow2_split by lia. f_equal. lia. }
      nia. }
    unfold rounded.
    destruct (Z.eqb_spec (c * 2 ^ (53 - d)) 0); [nia|].
    destruct (Z.ltb_spec (c * 2 ^ (53 - d)) (2 ^ 53)); [|lia].
    destruct (Z.leb_spec (d - 53) 971); [reflexivity | lia].
  - (* fewer than 53 bits: the mantissa is moved up *)
    rewrite (iter_xO k), Z2Pos.id by assumption.
    assert (Hsplit : c * 2 ^ j * 2 ^ Zpos k = c * 2 ^ (53 - d)).
    { replace (53 - d) with (j + Zpos k) by lia.
      rewrite pow2_split by lia. lia. }
    rewrite Hsplit.
    pose proof (pow2_pos (53 - d) ltac:(lia)) as Hpd.
    rewrite round_of_full_mantissa.
    + reflexivity.
    + rewrite Zdigits2_shift by lia. fold d. lia.
    + nia.
    + lia.
Qed.

Lemma normalize_whole (n j : Z) :
  - 2 ^ 53 < n < 2 ^ 53 -> 0 <= j ->
  binary_normalize F64.prec F64.emax (n * 2 ^ j) (- j) false = ofWhole n.
Proof.
  intros Hn Hj. pose proof (pow2_pos j Hj) as Hp.
  destruct n as [|p|p].
  - reflexivity.
  - assert (Hpos : 0 < Zpos p * 2 ^ j) by nia.
    destruct (Zpos p * 2 ^ j) as [|m|m] eqn:Hm; try lia.
    unfold binary_normalize, ofWhole.
    rewrite <- (binary_round_whole false (Zpos p) j) by lia.
    now rewrite Hm.
  - assert (Hneg : Zneg p * 2 ^ j < 0) by nia.
    destruct (Zneg p * 2 ^ j) as [|m|m] eqn:Hm; try lia.
    unfold binary_normalize, ofWhole.
    rewrite <- (binary_round_whole true (Zpos p) j) by lia.
    f_equal. assert (Zpos m = Zpos p * 2 ^ j) by lia.
    replace (Zpos p * 2 ^ j) with (Zpos m) by lia. reflexivity.
Qed.

Lemma ofZ_whole (n : Z) : - 2 ^ 53 < n < 2 ^ 53 -> F64.ofZ n = ofWhole n.
Proof.
  intros Hn. unfold F64.ofZ.
  rewrite <- (normalize_whole n 0) by lia.
  f_equal. change (2 ^ 0) with 1. lia.
Qed.

Lemma shl_align_value (m : positive) (e ez : Z) :
  ez <= e -> Zpos (fst (shl_align m e ez)) = Zpos m * 2 ^ (e - ez).
Proof.
  intros Hle. unfold shl_align.
  destruct (ez - e) as [|k|k] eqn:Hk; try lia.
  - replace (e - ez) with 0 by lia. cbn [fst]. change (2 ^ 0) with 1. lia.
  - cbn [fst]. rewrite iter_xO. f_equal. f_equal. lia.
Qed.

Lemma ofWhole_finite (n : Z) :
  n <> 0 -> - 2 ^ 53 < n < 2 ^ 53 ->
  exists m e,
    ofWhole n = S754_finite (n <? 0) m e /\
    -52 <= e <= 0 /\
    cond_Zopp (n <? 0) (Zpos m) = n * 2 ^ (- e).
Proof.
  intros Hne Hn.
  assert (Hshape : forall p : positive, Zpos p < 2 ^ 53 ->
            -52 <= Zdigits2 (Zpos p) - 53 <= 0 /\
            Zpos (wholeMantissa (Zpos p)) =
            Zpos p * 2 ^ (- (Zdigits2 (Zpos p) - 53))).
  { intros p Hp.
    assert (Hd : 1 <= Zdigits2 (Zpos p) <= 53).
    { split.
      - pose proof (Zdigits2_gt (Zpos p) 0 ltac:(lia) ltac:(simpl; lia)). lia.
      - apply Zdigits2_le_of_lt; lia. }
    split; [lia|]. unfold wholeMantissa.
    pose proof (pow2_pos (53 - Zdigits2 (Zpos p)) ltac:(lia)).
    rewrite Z2Pos.id by nia. f_equal. f_equal. lia. }
  destruct n as [|p|p]; [now elim Hne | |].
  - destruct (Hshape p ltac:(lia)) as [He Hm].
    do 2 eexists. split; [reflexivity|]. split; [exact He|]. exact Hm.
  - destruct (Hshape p ltac:(lia)) as [He Hm].
    do 2 eexists. split; [reflexivity|]. split; [exact He|].
    cbn [Z.ltb Z.compare cond_Zopp]. rewrite Hm. lia.
Qed.

Lemma aligned_value (s : bool) (m : positive) (e ez n : Z) :
  ez <= e -> e <= 0 ->
  cond_Zopp s (Zpos m) = n * 2 ^ (- e) ->
  cond_Zopp s (Zpos (fst (shl_align m e ez))) = n * 2 ^ (- ez).
Proof.
  intros Hle He Hm. rewrite shl_align_value by assumption.
  replace (- ez) with ((- e) + (e - ez)) by lia.
  rewrite pow2_split by lia.
  destruct s; cbn [cond_Zopp] in *; lia.
Qed.

(** Sums and differences of whole numbers are exact as long as they stay
    below [2^53] in magnitude. *)
Lemma add_whole (a b : Z) :
  - 2 ^ 53 < a < 2 ^ 53 -> - 2 ^ 53 < b < 2 ^ 53 ->
  - 2 ^ 53 < a + b < 2 ^ 53 ->
  F64.add (ofWhole a) (ofWhole b) = ofWhole (a + b).
Proof.
  intros Ha Hb Hab.
  destruct (Z.eq_dec a 0) as [->|Hane].
  { destruct b; reflexivity. }
  destruct (Z.eq_dec b 0) as [->|Hbne].
  { rewrite Z.add_0_r. destruct a; reflexivity. }
  destruct (ofWhole_finite a Hane Ha) as (ma & ea & -> & Hea & Hma).
  destruct (ofWhole_finite b Hbne Hb) as (mb & eb & -> & Heb & Hmb).
  unfold F64.add, SFadd.
  rewrite (aligned_value _ ma ea (Z.min ea eb) a) by (try assumption; lia).
  rewrite (aligned_value _ mb eb (Z.min ea eb) b) by (try assumption; lia).
  rewrite <- Z.mul_add_distr_r.
  rewrite <- (normalize_whole (a + b) (- Z.min ea eb)) by lia.
  now rewrite Z.opp_involutive.
Qed.

Lemma sub_whole (a b : Z) :
  - 2 ^ 53 < a < 2 ^ 53 -> - 2 ^ 53 < b < 2 ^ 53 ->
  - 2 ^ 53 < a - b < 2 ^ 53 ->
  F64.sub (ofWhole a) (ofWhole b) = ofWhole (a - b).
Proof.
  intros Ha Hb Hab.
  destruct (Z.eq_dec b 0) as [->|Hbne].
  { rewrite Z.sub_0_r. destruct a; reflexivity. }
  destruct (Z.eq_dec a 0) as [->|Hane].
  { destruct b; try reflexivity; now elim Hbne. }
  destruct (ofWhole_finite a Hane Ha) as (ma & ea & -> & Hea & Hma).
  destruct (ofWhole_finite b Hbne Hb) as (mb & eb & -> & Heb & Hmb).
  unfold F64.sub, SFsub.
  rewrite (aligned_value _ ma ea (Z.min ea eb) a) by (try assumption; lia).
  rewrite (aligned_value _ mb eb (Z.min ea eb) b) by (try assumption; lia).
  rewrite <- Z.mul_sub_distr_r.
  rewrite <- (normalize_whole (a - b) (- Z.min ea eb)) by lia.
  now rewrite Z.opp_involutive.
Qed.

End Binary64Integers.

(* --------------------------------------------------------------------- *)
(** ** 15.5 Streaming *)
(* --------------------------------------------------------------------- *)

Section Streaming.

Variable S : Http.server.

Local Open Scope list_scope.

Lemma stripPrefix_app (pat s : string) :
  Http.stripPrefix pat (pat ++ s)%string = Some s.
Proof.
  induction pat as [|c pat IH]; simpl; [reflexivity|].
  now rewrite Ascii.eqb_refl.
Qed.

Lemma removeFirst_prefix (pat s : string) :
  Http.removeFirst pat (pat ++ s)%string = s.
Proof.
  assert (H : forall t r,
             Http.stripPrefix pat t = Some r -> Http.removeFirst pat t = r).
  { intros t r Ht. destruct t; cbn [Http.removeFirst]; now rewrite Ht. }
  apply H, stripPrefix_app.
Qed.

Lemma digit_character (c : ascii) (d : Z) :
  digitValue c = Some d ->
  Http.isSpace c = false /\ Ascii.eqb c "-" = false /\ Ascii.eqb c "+" = false.
Proof.
  destruct c as [[] [] [] [] [] [] [] []]; vm_compute; intros H;
    try discriminate H; repeat split.
Qed.

Lemma splitOn_digits (a rest : string) :
  allDigits a = true ->
  Http.splitOn "-" (a ++ "-" ++ rest)%string = a :: Http.splitOn "-" rest.
Proof.
  induction a as [|c a IH]; [reflexivity|].
  cbn [allDigits]. destruct (digitValue c) as [d|] eqn:Hc; [|discriminate].
  intros Ha. destruct (digit_character c d Hc) as (_ & Hdash & _).
  change ((String c a ++ "-" ++ rest)%string)
    with (String c (a ++ "-" ++ rest)%string).
  cbn [Http.splitOn]. rewrite Hdash, (IH Ha). reflexivity.
Qed.

Lemma splitOn_only_digits (a : string) :
  allDigits a = true -> Http.splitOn "-" a = [a].
Proof.
  induction a as [|c a IH]; [reflexivity|].
  cbn [allDigits]. destruct (digitValue c) as [d|] eqn:Hc; [|discriminate].
  intros Ha. destruct (digit_character c d Hc) as (_ & Hdash & _).
  cbn [Http.splitOn]. rewrite Hdash, (IH Ha). reflexivity.
Qed.

Lemma decimalDigits_nonneg (s : string) :
  forall acc v, decimalDigits acc s = Some v -> (0 <= acc)%Z -> (0 <= v)%Z.
Proof.
  induction s as [|c s IH]; intros acc v; cbn [decimalDigits].
  - intros Heq; inversion Heq; subst; auto.
  - destruct (digitValue c) as [d|] eqn:Hc; [|discriminate].
    intros Hrest Hacc. apply (IH _ _ Hrest).
    unfold digitValue in Hc.
    destruct (_ && _)%bool; [|discriminate]. inversion Hc. lia.
Qed.

Lemma leadingDigits_decimal (s : string) :
  forall acc o v,
    s <> EmptyString -> decimalDigits acc s = Some v ->
    acc = match o with Some a => a | None => 0%Z end ->
    Http.leadingDigits o s = Some v.
Proof.
  induction s as [|c s IH]; intros acc o v Hne; [now elim Hne|].
  cbn [decimalDigits Http.leadingDigits].
  destruct (digitValue c) as [d|]; [|discriminate].
  intros Hrest ->.
  destruct s as [|c' s'].
  - cbn [decimalDigits] in Hrest. exact Hrest.
  - apply (IH _ _ _ ltac:(discriminate) Hrest). reflexivity.
Qed.

(** [parseInt] reads a decimal numeral as its value. *)
Lemma parseInt_digits (s : string) (n : Z) :
  s <> EmptyString -> decimalDigits 0 s = Some n ->
  Http.parseInt s = F64.ofZ n.
Proof.
  intros Hne Hn.
  pose proof (leadingDigits_decimal s 0%Z None n Hne Hn eq_refl) as Hlead.
  destruct s as [|c s]; [now elim Hne|].
  pose proof Hn as Hc. cbn [decimalDigits] in Hc.
  destruct (digitValue c) as [d|] eqn:Hd; [|discriminate].
  destruct (digit_character c d Hd) as (Hspace & Hdash & Hplus).
  unfold Http.parseInt. cbn [Http.trimStart].
  rewrite Hspace, Hdash, Hplus, Hlead.
  destruct n; reflexivity.
Qed.

Lemma length_of_window (x y : Z) :
  (0 <= x < 2 ^ 53)%Z -> (0 <= y < 2 ^ 53)%Z ->
  F64.add (F64.sub (F64.ofZ y) (F64.ofZ x)) (F64.ofZ 1) = F64.ofZ (y - x + 1).
Proof.
  intros Hx Hy.
  destruct (Z.eq_dec (y - x + 1) (2 ^ 53)) as [Hcorner|Hinside].
  - assert (x = 0%Z) by lia. assert (y = (2 ^ 53 - 1)%Z) by lia. subst.
    vm_compute. reflexivity.
  - rewrite !ofZ_whole by lia.
    rewrite sub_whole by lia. rewrite add_whole by lia. reflexivity.
Qed.

Lemma last_byte_of_file (bytes : Z) :
  (0 <= bytes < 2 ^ 53)%Z ->
  F64.sub (F64.ofZ bytes) (F64.ofZ 1) = F64.ofZ (bytes - 1).
Proof.
  intros Hb. rewrite !ofZ_whole by lia. now rewrite sub_whole by lia.
Qed.

(** X26. A file is piped only for a completed video and only to its owner
    or an administrator: whenever [GET /:id/stream] answers with a file,
    the caller's token verifies to an active user who owns the video or is
    an administrator, the video is completed, and the file is the one of
    that video.  The role is otherwise not looked at, and nothing is
    changed. *)
Theorem file_is_piped_only_for_a_completed_video_of_the_caller
    (req : Http.request) (code : Z) (h : Http.head) (filePath : string)
    (window : option (F64.t * F64.t)) (acts : list Http.action) :
  Http.streamRoute S req = (Http.Piped code h filePath window, acts) ->
  exists u v,
    admits S req u /\
    Http.findVideo S (Http.paramId req) = Http.Returns (Some v) /\
    (Http.role u = "admin" \/ Http.ownerId v = Http.userId u) /\
    Http.status v = completed /\
    filePath = Http.videoPath v /\
    acts = [].
Proof.
  unfold Http.streamRoute. intros Hrun.
  destruct (Http.authenticate S req) as [req1|r1|e] eqn:Hauth;
    cbn [Http.guarded] in Hrun;
    [| destruct (authenticate_answers S req r1 Hauth) as [[t ->]| ->];
       discriminate
     | unfold Http.errorHandler in Hrun;
       destruct (Http.multerCode e);
       [destruct (String.eqb _ _)|]; discriminate].
  apply authenticate_next in Hauth. destruct Hauth as (u & Hadmits & ->).
  unfold Http.streamVideo in Hrun.
  cbn [Http.withUser Http.paramId Http.reqUser Http.range] in Hrun.
  destruct (Http.findVideo S (Http.paramId req)) as [[v|]|e] eqn:Hfind;
    try discriminate.
  destruct (Http.notOwnerNorAdmin u v) eqn:Hcheck; [discriminate|].
  destruct (Http.status v) eqn:Hstatus; try discriminate.
  destruct (Http.statSize S (Http.videoPath v)) as [bytes|e]; [|discriminate].
  exists u, v. split; [assumption|]. split; [reflexivity|].
  split.
  { unfold Http.notOwnerNorAdmin in Hcheck. apply andb_false_iff in Hcheck.
    destruct Hcheck as [Hadmin|Howner].
    - left. now apply negb_false_iff, String.eqb_eq in Hadmin.
    - right. now apply negb_false_iff, String.eqb_eq in Howner. }
  split; [exact Hstatus|].
  cbv zeta in Hrun.
  destruct (truthy (Http.range req)).
  - destruct (Http.createReadStream S _ _ _); [discriminate|].
    inversion Hrun; subst. split; reflexivity.
  - inversion Hrun; subst. split; reflexivity.
Qed.

(** What the handler does with a range of two numerals: it asks the file
    system for that window and announces it, or reports the error of the
    file system. *)
Lemma streamVideo_window
    (req : Http.request) (v : Http.video) (bytes : Z) (a b : string)
    (x y : Z) :
  streamable S req v bytes ->
  Http.range req = Some ("bytes=" ++ a ++ "-" ++ b)%string ->
  a <> EmptyString -> decimalDigits 0 a = Some x -> (x < 2 ^ 53)%Z ->
  b <> EmptyString -> decimalDigits 0 b = Some y -> (y < 2 ^ 53)%Z ->
  Http.streamVideo S req =
  match Http.createReadStream S (Http.videoPath v) (F64.ofZ x) (F64.ofZ y) with
  | Some e => Http.failed500 "Failed to stream video" e
  | None => partialContent v bytes x y (y - x + 1)
  end.
Proof.
  intros (u & Hu & Hv & Hown & Hst & Hsize) Hrange Ha Hx Hxb Hb Hy Hyb.
  pose proof (decimalDigits_nonneg a 0 x Hx ltac:(lia)) as Hx0.
  pose proof (decimalDigits_nonneg b 0 y Hy ltac:(lia)) as Hy0.
  unfold Http.streamVideo, partialContent.
  rewrite Hv, Hu, Hown, Hst, Hsize, Hrange. cbv zeta.
  change (truthy (Some ("bytes=" ++ a ++ "-" ++ b)%string))
    with (Some ("bytes=" ++ a ++ "-" ++ b)%string).
  cbv beta iota.
  rewrite removeFirst_prefix.
  rewrite splitOn_digits by (eapply decimalDigits_allDigits; eassumption).
  rewrite splitOn_only_digits by (eapply decimalDigits_allDigits; eassumption).
  cbn [List.nth List.nth_error].
  assert (Htruthy : truthy (Some b) = Some b) by (destruct b; [now elim Hb | reflexivity]).
  rewrite Htruthy.
  rewrite (parseInt_digits a x Ha Hx), (parseInt_digits b y Hb Hy).
  rewrite length_of_window by lia. reflexivity.
Qed.

Lemma streamVideo_open_window
    (req : Http.request) (v : Http.video) (bytes : Z) (a : string) (x : Z) :
  streamable S req v bytes ->
  Http.range req = Some ("bytes=" ++ a ++ "-")%string ->
  a <> EmptyString -> decimalDigits 0 a = Some x -> (x < 2 ^ 53)%Z ->
  (0 <= bytes < 2 ^ 53)%Z ->
  Http.streamVideo S req =
  match Http.createReadStream S (Http.videoPath v)
          (F64.ofZ x) (F64.ofZ (bytes - 1)) with
  | Some e => Http.failed500 "Failed to stream video" e
  | None => partialContent v bytes x (bytes - 1) (bytes - x)
  end.
Proof.
  intros (u & Hu & Hv & Hown & Hst & Hsize) Hrange Ha Hx Hxb Hbytes.
  pose proof (decimalDigits_nonneg a 0 x Hx ltac:(lia)) as Hx0.
  unfold Http.streamVideo, partialContent.
  rewrite Hv, Hu, Hown, Hst, Hsize, Hrange. cbv zeta.
  change (truthy (Some ("bytes=" ++ a ++ "-")%string))
    with (Some ("bytes=" ++ a ++ "-")%string).
  cbv beta iota.
  rewrite removeFirst_prefix.
  change (a ++ "-")%string with (a ++ "-" ++ EmptyString)%string.
  rewrite splitOn_digits by (eapply decimalDigits_allDigits; eassumption).
  cbn [Http.splitOn List.nth List.nth_error truthy].
  rewrite (parseInt_digits a x Ha Hx).
  rewrite last_byte_of_file by assumption.
  assert (Hlength :
            F64.add (F64.sub (F64.ofZ (bytes - 1)) (F64.ofZ x)) (F64.ofZ 1) =
            F64.ofZ (bytes - x)).
  { destruct (Z.eq_dec (bytes - 1 - x) (- 2 ^ 53)) as [Hcorner|Hinside].
    - assert (bytes = 0%Z) by lia. assert (x = (2 ^ 53 - 1)%Z) by lia. subst.
      vm_compute. reflexivity.
    - rewrite !ofZ_whole by lia.
      rewrite sub_whole by lia. rewrite add_whole by lia.
      f_equal. lia. }
  rewrite Hlength. reflexivity.
Qed.

(** X27. A range with both ends is passed on as it was asked, without a
    look at the size of the file or at the order of the two ends: for the
    header [bytes=a-b] with decimal numerals [a] and [b] below [2^53],
    the handler asks the file system for a stream of the bytes [a] to [b].
    If the stream opens, the answer is the 206 with that window,
    [Content-Range: bytes a-b/size] and a [Content-Length] of exactly
    [b - a + 1], the end not cut back to the last byte of the file.  If
    [createReadStream] throws on the window, the answer is the 500 of the
    [catch] block with the message of that error. *)
Theorem range_is_served_as_asked
    (req : Http.request) (v : Http.video) (bytes : Z) (a b : string)
    (x y : Z) :
  streamable S req v bytes ->
  Http.range req = Some ("bytes=" ++ a ++ "-" ++ b)%string ->
  a <> EmptyString -> decimalDigits 0 a = Some x -> (x < 2 ^ 53)%Z ->
  b <> EmptyString -> decimalDigits 0 b = Some y -> (y < 2 ^ 53)%Z ->
  (Http.createReadStream S (Http.videoPath v) (F64.ofZ x) (F64.ofZ y) = None ->
   Http.streamVideo S req = partialContent v bytes x y (y - x + 1)) /\
  (forall e,
     Http.createReadStream S (Http.videoPath v) (F64.ofZ x) (F64.ofZ y) = Some e ->
     Http.streamVideo S req =
     (Http.Json 500
        (Http.ErrorDetails "Failed to stream video" (Http.message e)), [])).
Proof.
  intros Hstream Hrange Ha Hx Hxb Hb Hy Hyb.
  rewrite (streamVideo_window req v bytes a b x y Hstream Hrange Ha Hx Hxb Hb Hy Hyb).
  split.
  - intros Hopen. now rewrite Hopen.
  - intros e Hrefused. now rewrite Hrefused.
Qed.

(** X28. A range without an end is taken to run to the last byte of the
    file: for the header [bytes=a-] and a file of [bytes] bytes, the
    handler asks the file system for a stream of the bytes [a] to
    [bytes - 1].  If the stream opens, the answer is the 206 with that
    window and a [Content-Length] of exactly [bytes - a].  If
    [createReadStream] throws on the window, the answer is the 500 of the
    [catch] block with the message of that error; the handler itself
    never compares the start with the size of the file. *)
Theorem open_range_runs_to_the_last_byte
    (req : Http.request) (v : Http.video) (bytes : Z) (a : string) (x : Z) :
  streamable S req v bytes ->
  Http.range req = Some ("bytes=" ++ a ++ "-")%string ->
  a <> EmptyString -> decimalDigits 0 a = Some x -> (x < 2 ^ 53)%Z ->
  (0 <= bytes < 2 ^ 53)%Z ->
  (Http.createReadStream S (Http.videoPath v)
     (F64.ofZ x) (F64.ofZ (bytes - 1)) = None ->
   Http.streamVideo S req = partialContent v bytes x (bytes - 1) (bytes - x)) /\
  (forall e,
     Http.createReadStream S (Http.videoPath v)
       (F64.ofZ x) (F64.ofZ (bytes - 1)) = Some e ->
     Http.streamVideo S req =
     (Http.Json 500
        (Http.ErrorDetails "Failed to stream video" (Http.message e)), [])).
Proof.
  intros Hstream Hrange Ha Hx Hxb Hbytes.
  rewrite (streamVideo_open_window req v bytes a x Hstream Hrange Ha Hx Hxb Hbytes).
  split.
  - intros Hopen. now rewrite Hopen.
  - intros e Hrefused. now rewrite Hrefused.
Qed.

(** X29. A suffix range is never served as the last bytes of the file:
    for a header [bytes=-n] the start is read from the empty text before
    the dash and is not a number, so the handler either fails to open the
    stream and answers 500, or announces a window and a length that are
    not numbers. *)
Theorem suffix_range_is_not_served
    (req : Http.request) (v : Http.video) (bytes : Z) (n : string) :
  streamable S req v bytes ->
  Http.range req = Some ("bytes=-" ++ n)%string ->
  (exists e, Http.streamVideo S req =
             Http.failed500 "Failed to stream video" e) \/
  (exists last contentType,
     Http.streamVideo S req =
     (Http.Piped 206
        (Http.RangeHead S754_nan last (F64.ofZ bytes) S754_nan contentType)
        (Http.videoPath v) (Some (S754_nan, last)), [])).
Proof.
  intros (u & Hu & Hv & Hown & Hst & Hsize) Hrange.
  unfold Http.streamVideo.
  rewrite Hv, Hu, Hown, Hst, Hsize, Hrange. cbv zeta.
  change (truthy (Some ("bytes=-" ++ n)%string))
    with (Some ("bytes=" ++ "-" ++ n)%string).
  cbv beta iota.
  rewrite removeFirst_prefix.
  change (Http.splitOn "-" ("-" ++ n)%string)
    with (EmptyString :: Http.splitOn "-" n).
  cbn [List.nth].
  change (Http.parseInt EmptyString) with S754_nan.
  match goal with
  | |- context [Http.createReadStream S ?p ?s ?e] =>
      set (last := e); destruct (Http.createReadStream S p s last) as [e'|]
  end.
  - left. now exists e'.
  - right. exists last, (orElse (Some (Http.videoMimeType v)) "video/mp4").
    assert (Hnan : F64.add (F64.sub last S754_nan) (F64.ofZ 1) = S754_nan).
    { unfold F64.sub, SFsub. now destruct last. }
    rewrite Hnan. reflexivity.
Qed.

End Streaming.

Lemma file_is_piped_witness :
  exists u v,
    admits SampleHttp.server (SampleHttp.ranged "bytes=0-99") u /\
    Http.findVideo SampleHttp.server "v1" = Http.Returns (Some v) /\
    (Http.role u = "admin" \/ Http.ownerId v = Http.userId u) /\
    Http.status v = completed /\
    "uploads/video-1.mp4" = Http.videoPath v /\
    @nil Http.action = [].
Proof.
  exact (file_is_piped_only_for_a_completed_video_of_the_caller
           SampleHttp.server (SampleHttp.ranged "bytes=0-99") 206
           (Http.RangeHead (F64.ofZ 0) (F64.ofZ 99) (F64.ofZ 1048576)
              (F64.ofZ 100) "video/mp4")
           "uploads/video-1.mp4" (Some (F64.ofZ 0, F64.ofZ 99)) []
           eq_refl).
Defined.

Lemma streamable_sample (header : string) :
  streamable SampleHttp.server
    (Http.withUser (SampleHttp.ranged header) SampleHttp.alice)
    SampleHttp.clip 1048576.
Proof.
  exists SampleHttp.alice. repeat split; reflexivity.
Defined.

(** On the sample server, whose file system refuses a window that ends
    before it starts: a window that reaches beyond the file is announced as
    asked, and a window with its ends the wrong way round is answered
    500. *)
Lemma range_is_served_witness :
  Http.streamVideo SampleHttp.server
    (Http.withUser (SampleHttp.ranged "bytes=100-2000000") SampleHttp.alice) =
  partialContent SampleHttp.clip 1048576 100 2000000 1999901 /\
  Http.streamVideo SampleHttp.server
    (Http.withUser (SampleHttp.ranged "bytes=500-100") SampleHttp.alice) =
  (Http.Json 500
     (Http.ErrorDetails "Failed to stream video"
        "The value of start is out of range"), []).
Proof.
  split.
  - apply (range_is_served_as_asked SampleHttp.server
             (Http.withUser (SampleHttp.ranged "bytes=100-2000000") SampleHttp.alice)
             SampleHttp.clip 1048576 "100" "2000000" 100 2000000).
    + apply streamable_sample.
    + reflexivity.
    + discriminate.
    + reflexivity.
    + reflexivity.
    + discriminate.
    + reflexivity.
    + reflexivity.
    + vm_compute. reflexivity.
  - destruct (range_is_served_as_asked SampleHttp.server
                (Http.withUser (SampleHttp.ranged "bytes=500-100") SampleHttp.alice)
                SampleHttp.clip 1048576 "500" "100" 500 100)
      as [_ Hrefused].
    + apply streamable_sample.
    + reflexivity.
    + discriminate.
    + reflexivity.
    + reflexivity.
    + discriminate.
    + reflexivity.
    + reflexivity.
    + apply (Hrefused {| Http.name := "RangeError";
                         Http.message := "The value of start is out of range";
                         Http.multerCode := None |}).
      vm_compute. reflexivity.
Defined.

Lemma open_range_witness :
  Http.streamVideo SampleHttp.server
    (Http.withUser (SampleHttp.ranged "bytes=100-") SampleHttp.alice) =
  partialContent SampleHttp.clip 1048576 100 1048575 1048476 /\
  Http.streamVideo SampleHttp.server
    (Http.withUser (SampleHttp.ranged "bytes=1048576-") SampleHttp.alice) =
  (Http.Json 500
     (Http.ErrorDetails "Failed to stream video"
        "The value of start is out of range"), []).
Proof.
  split.
  - apply (open_range_runs_to_the_last_byte SampleHttp.server
             (Http.withUser (SampleHttp.ranged "bytes=100-") SampleHttp.alice)
             SampleHttp.clip 1048576 "100" 100).
    + apply streamable_sample.
    + reflexivity.
    + discriminate.
    + reflexivity.
    + reflexivity.
    + split; [discriminate | reflexivity].
    + vm_compute. reflexivity.
  - destruct (open_range_runs_to_the_last_byte SampleHttp.server
                (Http.withUser (SampleHttp.ranged "bytes=1048576-") SampleHttp.alice)
                SampleHttp.clip 1048576 "1048576" 1048576)
      as [_ Hrefused].
    + apply streamable_sample.
    + reflexivity.
    + discriminate.
    + reflexivity.
    + reflexivity.
    + split; [discriminate | reflexivity].
    + apply (Hrefused {| Http.name := "RangeError";
                         Http.message := "The value of start is out of range";
                         Http.multerCode := None |}).
      vm_compute. reflexivity.
Defined.

Lemma suffix_range_witness :
  (exists e,
     Http.streamVideo SampleHttp.server
       (Http.withUser (SampleHttp.ranged "bytes=-500") SampleHttp.alice) =
     Http.failed500 "Failed to stream video" e) \/
  (exists last contentType,
     Http.streamVideo SampleHttp.server
       (Http.withUser (SampleHttp.ranged "bytes=-500") SampleHttp.alice) =
     (Http.Piped 206
        (Http.RangeHead S754_nan last (F64.ofZ 1048576) S754_nan contentType)
        (Http.videoPath SampleHttp.clip) (Some (S754_nan, last)), [])).
Proof.
  apply (suffix_range_is_not_served SampleHttp.server
           (Http.withUser (SampleHttp.ranged "bytes=-500") SampleHttp.alice)
           SampleHttp.clip 1048576 "500").
  - apply streamable_sample.
  - reflexivity.
Defined.
